(** * MonitorNap: the per-monitor dimming controller

    A shallow embedding of [MonitorController] from [monitornap.py]
    (activity check, dim / restore, the hardware fade driven by a
    [QTimer] and the overlay fade driven by single-shot callbacks),
    together with the properties the specification states about it.

    Conventions of the embedding.
    - Python [int] is [Z]; a Python [float] is the rational it stands
      for, in [Q]; [int(x)] truncates toward zero and [round(x)] rounds
      half to even, as in Python 3.  The hardware dim target, the one
      float result that is rounded to an integer and written to the
      monitor, is computed with every operation rounded to the nearest
      double ([F64]); fade steps, opacities and time differences are
      taken without rounding error, and what is proved of them is bounds
      and tolerances.
    - The DDC/CI monitors, the display enumeration, the clock, the cursor,
      the foreground window, the shared global configuration and the queue
      of pending single-shot callbacks form the [World]; a controller
      refers to its DDC monitor through a handle into the enumeration.
    - Methods are computations in a state-and-exception monad: an
      exception leaves the state as it was at the [raise], and
      [try_except] resumes from there, as Python does. *)

From Stdlib Require Import SpecFloat.
From Stdlib Require Import ZArith QArith Qabs Qround Qminmax Qpower List Bool Lia Lqa.
Import ListNotations.

Open Scope Z_scope.

(* ------------------------------------------------------------------ *)
(** ** Python primitives *)

Module Py.

(** [x < y] on floats. *)
Definition Qltb (x y : Q) : bool := negb (Qle_bool y x).

(** [int(x)] for a float [x]: truncation toward zero. *)
Definition int (x : Q) : Z := Z.quot (Qnum x) (Zpos (Qden x)).

(** [round(x)] for a float [x]: nearest integer, ties to even. *)
Definition round (x : Q) : Z :=
  let f := Qfloor x in
  let r := (x - inject_Z f)%Q in
  if Qltb r (1 # 2) then f
  else if Qltb (1 # 2) r then f + 1
  else if Z.even f then f else f + 1.

(** [float(n)] for an int [n]. *)
Definition float (n : Z) : Q := inject_Z n.

(** [0 <= i < len(l)] followed by [l[i]]. *)
Definition in_range {A} (i : Z) (l : list A) : bool :=
  (0 <=? i) && (i <? Z.of_nat (length l)).

End Py.

(** Binary64 arithmetic, the [float] of CPython: a finite double is a
    rational [m * 2^e] with [|m| <= 2^53] and [e >= -1074], and every
    operation returns the double nearest to the exact result, ties going
    to the even significand.  The exponent is not bounded above: the
    luminances, levels and factors of this program stay far below the
    largest double. *)
Module F64.

(** [floor(log2 x)] for [x > 0]. *)
Definition flog2 (x : Q) : Z :=
  let k := Z.log2 (Qnum x) - Z.log2 (Zpos (Qden x)) in
  if Qle_bool (2 ^ k) x then k else k - 1.

(** The exponent of the unit in the last place of the doubles around
    [x]. *)
Definition ulp_exp (x : Q) : Z := Z.max (-1074) (flog2 (Qabs x) - 52).

(** The double nearest to [x]. *)
Definition rnd (x : Q) : Q :=
  let e := ulp_exp x in
  (inject_Z (Py.round (x / 2 ^ e)) * 2 ^ e)%Q.

(** [float(n)], and [n] where an [int] meets a [float] operand. *)
Definition of_int (n : Z) : Q := rnd (inject_Z n).

Definition sub (x y : Q) : Q := rnd (x - y).
Definition mul (x y : Q) : Q := rnd (x * y).
Definition div (x y : Q) : Q := rnd (x / y).

End F64.

(* ------------------------------------------------------------------ *)
(** ** Data model *)

(** A DDC/CI monitor as [monitorcontrol] exposes it.  [get_luminance]
    and [set_luminance] raise when the channel does not answer. *)
Record Monitor := mkMonitor {
  luminance : Z;
  readable  : bool;
  writable  : bool
}.

(** One entry of [screeninfo.get_monitors()]. *)
Record Screen := mkScreen {
  mon_x : Z; mon_y : Z; mon_width : Z; mon_height : Z
}.

(** The foreground window: [win_rect = None] when [GetWindowRect]
    raises. *)
Record Window := mkWindow {
  win_visible : bool;
  win_rect    : option (Z * Z * Z * Z)
}.

(** The per-monitor configuration dictionary [cfg]. *)
Record MonitorCfg := mkMonitorCfg {
  enable_hardware_dimming : bool;
  enable_software_dimming : bool;
  hardware_dimming_level  : Z;
  software_dimming_level  : Q
}.

(** The shared configuration dictionary [global_cfg]. *)
Record GlobalCfg := mkGlobalCfg {
  awake_mode         : bool;
  inactivity_limit   : Q;
  overlay_fade_time  : Q;
  overlay_fade_steps : Z
}.

(** [OverlayWindow]: visibility, window opacity and geometry. *)
Record OverlayWindow := mkOverlay {
  visible  : bool;
  opacity  : Q;
  ov_rect  : Z * Z * Z * Z
}.

(** A [QTimer]. *)
Record QTimer := mkTimer {
  interval : Z;
  isActive : bool
}.

(** The attributes of a [MonitorController]. *)
Record Controller := mkController {
  cfg                    : MonitorCfg;
  is_dimmed              : bool;
  restore_in_progress    : bool;
  last_active            : Q;
  display_index          : Z;
  ddc_index              : Z;
  monitorcontrol_monitor : option nat;
  original_brightness    : option Z;
  left   : Z;
  top    : Z;
  width  : Z;
  height : Z;
  overlay           : option OverlayWindow;
  fade_timer        : option QTimer;
  current_fade_step : Z;
  fade_steps        : Z;
  fade_start        : Z;
  fade_target       : Z;
  fade_step_size    : Q
}.

(** A closure handed to [QTimer.singleShot] by [_fade_overlay_step]:
    [lambda: self._fade_overlay_step(next_val, target, step_opacity, delay)]. *)
Record Callback := mkCallback {
  cb_current : Q;
  cb_target  : Q;
  cb_step    : Q;
  cb_delay   : Z
}.

(** Everything outside the controller. *)
Record World := mkWorld {
  ddc_monitors : list Monitor;       (* monitorcontrol.get_monitors() *)
  screens      : list Screen;        (* screeninfo.get_monitors() *)
  clock        : Q;                  (* time.time() *)
  cursor       : Z * Z;              (* QCursor.pos() *)
  os_nt        : bool;               (* os.name == 'nt' *)
  foreground   : option Window;      (* win32gui.GetForegroundWindow() *)
  global_cfg   : GlobalCfg;
  singleshots  : list Callback       (* pending QTimer.singleShot closures *)
}.

Record State := mkState {
  ctl   : Controller;
  world : World
}.

(** *** Field updates *)

Definition with_ctl (f : Controller -> Controller) (s : State) : State :=
  mkState (f (ctl s)) (world s).

Definition with_world (f : World -> World) (s : State) : State :=
  mkState (ctl s) (f (world s)).

Definition set_cfg (v : MonitorCfg) (c : Controller) : Controller :=
  mkController v (is_dimmed c) (restore_in_progress c) (last_active c)
    (display_index c) (ddc_index c) (monitorcontrol_monitor c)
    (original_brightness c) (left c) (top c) (width c) (height c)
    (overlay c) (fade_timer c) (current_fade_step c) (fade_steps c)
    (fade_start c) (fade_target c) (fade_step_size c).

Definition set_is_dimmed (v : bool) (c : Controller) : Controller :=
  mkController (cfg c) v (restore_in_progress c) (last_active c)
    (display_index c) (ddc_index c) (monitorcontrol_monitor c)
    (original_brightness c) (left c) (top c) (width c) (height c)
    (overlay c) (fade_timer c) (current_fade_step c) (fade_steps c)
    (fade_start c) (fade_target c) (fade_step_size c).

Definition set_restore_in_progress (v : bool) (c : Controller) : Controller :=
  mkController (cfg c) (is_dimmed c) v (last_active c)
    (display_index c) (ddc_index c) (monitorcontrol_monitor c)
    (original_brightness c) (left c) (top c) (width c) (height c)
    (overlay c) (fade_timer c) (current_fade_step c) (fade_steps c)
    (fade_start c) (fade_target c) (fade_step_size c).

Definition set_last_active (v : Q) (c : Controller) : Controller :=
  mkController (cfg c) (is_dimmed c) (restore_in_progress c) v
    (display_index c) (ddc_index c) (monitorcontrol_monitor c)
    (original_brightness c) (left c) (top c) (width c) (height c)
    (overlay c) (fade_timer c) (current_fade_step c) (fade_steps c)
    (fade_start c) (fade_target c) (fade_step_size c).

Definition set_display_index (v : Z) (c : Controller) : Controller :=
  mkController (cfg c) (is_dimmed c) (restore_in_progress c) (last_active c)
    v (ddc_index c) (monitorcontrol_monitor c)
    (original_brightness c) (left c) (top c) (width c) (height c)
    (overlay c) (fade_timer c) (current_fade_step c) (fade_steps c)
    (fade_start c) (fade_target c) (fade_step_size c).

Definition set_ddc_index (v : Z) (c : Controller) : Controller :=
  mkController (cfg c) (is_dimmed c) (restore_in_progress c) (last_active c)
    (display_index c) v (monitorcontrol_monitor c)
    (original_brightness c) (left c) (top c) (width c) (height c)
    (overlay c) (fade_timer c) (current_fade_step c) (fade_steps c)
    (fade_start c) (fade_target c) (fade_step_size c).

Definition set_monitorcontrol_monitor (v : option nat) (c : Controller)
  : Controller :=
  mkController (cfg c) (is_dimmed c) (restore_in_progress c) (last_active c)
    (display_index c) (ddc_index c) v
    (original_brightness c) (left c) (top c) (width c) (height c)
    (overlay c) (fade_timer c) (current_fade_step c) (fade_steps c)
    (fade_start c) (fade_target c) (fade_step_size c).

Definition set_original_brightness (v : option Z) (c : Controller)
  : Controller :=
  mkController (cfg c) (is_dimmed c) (restore_in_progress c) (last_active c)
    (display_index c) (ddc_index c) (monitorcontrol_monitor c)
    v (left c) (top c) (width c) (height c)
    (overlay c) (fade_timer c) (current_fade_step c) (fade_steps c)
    (fade_start c) (fade_target c) (fade_step_size c).

Definition set_geometry (g : Z * Z * Z * Z) (c : Controller) : Controller :=
  let '(l, t, w, h) := g in
  mkController (cfg c) (is_dimmed c) (restore_in_progress c) (last_active c)
    (display_index c) (ddc_index c) (monitorcontrol_monitor c)
    (original_brightness c) l t w h
    (overlay c) (fade_timer c) (current_fade_step c) (fade_steps c)
    (fade_start c) (fade_target c) (fade_step_size c).

Definition set_overlay (v : option OverlayWindow) (c : Controller)
  : Controller :=
  mkController (cfg c) (is_dimmed c) (restore_in_progress c) (last_active c)
    (display_index c) (ddc_index c) (monitorcontrol_monitor c)
    (original_brightness c) (left c) (top c) (width c) (height c)
    v (fade_timer c) (current_fade_step c) (fade_steps c)
    (fade_start c) (fade_target c) (fade_step_size c).

Definition set_fade_timer (v : option QTimer) (c : Controller) : Controller :=
  mkController (cfg c) (is_dimmed c) (restore_in_progress c) (last_active c)
    (display_index c) (ddc_index c) (monitorcontrol_monitor c)
    (original_brightness c) (left c) (top c) (width c) (height c)
    (overlay c) v (current_fade_step c) (fade_steps c)
    (fade_start c) (fade_target c) (fade_step_size c).

Definition set_current_fade_step (v : Z) (c : Controller) : Controller :=
  mkController (cfg c) (is_dimmed c) (restore_in_progress c) (last_active c)
    (display_index c) (ddc_index c) (monitorcontrol_monitor c)
    (original_brightness c) (left c) (top c) (width c) (height c)
    (overlay c) (fade_timer c) v (fade_steps c)
    (fade_start c) (fade_target c) (fade_step_size c).

(** The four assignments [fade_step_size], [fade_steps], [fade_start],
    [fade_target] of [fade_hardware]. *)
Definition set_fade_plan (size : Q) (steps start target : Z) (c : Controller)
  : Controller :=
  mkController (cfg c) (is_dimmed c) (restore_in_progress c) (last_active c)
    (display_index c) (ddc_index c) (monitorcontrol_monitor c)
    (original_brightness c) (left c) (top c) (width c) (height c)
    (overlay c) (fade_timer c) (current_fade_step c) steps
    start target size.

Definition set_ddc_monitors (v : list Monitor) (w : World) : World :=
  mkWorld v (screens w) (clock w) (cursor w) (os_nt w) (foreground w)
    (global_cfg w) (singleshots w).

Definition set_singleshots (v : list Callback) (w : World) : World :=
  mkWorld (ddc_monitors w) (screens w) (clock w) (cursor w) (os_nt w)
    (foreground w) (global_cfg w) v.

Definition set_luminance_field (v : Z) (m : Monitor) : Monitor :=
  mkMonitor v (readable m) (writable m).

Definition set_visible (v : bool) (o : OverlayWindow) : OverlayWindow :=
  mkOverlay v (opacity o) (ov_rect o).

Definition set_opacity_field (v : Q) (o : OverlayWindow) : OverlayWindow :=
  mkOverlay (visible o) v (ov_rect o).

Definition set_ov_rect (v : Z * Z * Z * Z) (o : OverlayWindow)
  : OverlayWindow :=
  mkOverlay (visible o) (opacity o) v.

Definition stop (t : QTimer) : QTimer := mkTimer (interval t) false.

(** Replace the element at position [n]; out of range the list is
    unchanged (handles are only taken from an in-range index). *)
Fixpoint list_update {A} (n : nat) (x : A) (l : list A) : list A :=
  match l, n with
  | [], _ => []
  | _ :: t, O => x :: t
  | h :: t, S k => h :: list_update k x t
  end.

(* ------------------------------------------------------------------ *)
(** ** The monad of methods: state and exceptions *)

Inductive exn :=
| VCPError          (* raised by the DDC/CI channel *)
| WinError          (* raised by a win32 call *)
| IndexError        (* list index out of range *)
| AttributeError.   (* method call on None *)

Inductive outcome (A : Type) :=
| Ok    (a : A)
| Raise (e : exn).
Arguments Ok {A} a.
Arguments Raise {A} e.

Definition M (A : Type) : Type := State -> outcome A * State.

Definition ret {A} (a : A) : M A := fun s => (Ok a, s).

Definition bind {A B} (m : M A) (k : A -> M B) : M B :=
  fun s => match m s with
           | (Ok a, s') => k a s'
           | (Raise e, s') => (Raise e, s')
           end.

Definition raise {A} (e : exn) : M A := fun s => (Raise e, s).

(** [try: body  except Exception as e: handler(e)]. *)
Definition try_except {A} (body : M A) (handler : exn -> M A) : M A :=
  fun s => match body s with
           | (Ok a, s') => (Ok a, s')
           | (Raise e, s') => handler e s'
           end.

Definition get : M State := fun s => (Ok s, s).
Definition self : M Controller := fun s => (Ok (ctl s), s).
Definition env : M World := fun s => (Ok (world s), s).
Definition update (f : Controller -> Controller) : M unit :=
  fun s => (Ok tt, with_ctl f s).
Definition update_world (f : World -> World) : M unit :=
  fun s => (Ok tt, with_world f s).

(** [log_message]: the log is not part of the model. *)
Definition log_message : M unit := ret tt.

Declare Scope py_scope.
Delimit Scope py_scope with py.
Notation "x <- c ;; k" := (bind c (fun x => k))
  (at level 61, c at next level, right associativity) : py_scope.
Notation "c ;; k" := (bind c (fun _ => k))
  (at level 61, right associativity) : py_scope.
Notation "'when' b 'then' c" := (if b then c else ret tt)
  (at level 60, b at level 9, c at level 61) : py_scope.
Open Scope py_scope.

(* ------------------------------------------------------------------ *)
(** ** External collaborators *)

(** [monitor.get_luminance()] inside [with monitor:]. *)
Definition get_luminance (h : nat) : M Z :=
  w <- env ;;
  match nth_error (ddc_monitors w) h with
  | Some m => if readable m then ret (luminance m) else raise VCPError
  | None => raise VCPError
  end.

(** [monitor.set_luminance(value)] inside [with monitor:]. *)
Definition set_luminance (h : nat) (value : Z) : M unit :=
  w <- env ;;
  match nth_error (ddc_monitors w) h with
  | Some m =>
      if writable m
      then update_world
             (set_ddc_monitors
                (list_update h (set_luminance_field value m) (ddc_monitors w)))
      else raise VCPError
  | None => raise VCPError
  end.

(** [win32gui.GetWindowRect(fg_hwnd)]. *)
Definition GetWindowRect (fg : Window) : M (Z * Z * Z * Z) :=
  match win_rect fg with
  | Some r => ret r
  | None => raise WinError
  end.

(** Methods of the overlay widget; [self.overlay] is [None] only before
    [init_monitor] has run, and a method call on [None] raises. *)
Definition overlay_call (f : OverlayWindow -> OverlayWindow) : M unit :=
  c <- self ;;
  match overlay c with
  | Some o => update (set_overlay (Some (f o)))
  | None => raise AttributeError
  end.

Definition overlay_show : M unit := overlay_call (set_visible true).
Definition overlay_hide : M unit := overlay_call (set_visible false).
Definition overlay_set_opacity (v : Q) : M unit :=
  overlay_call (set_opacity_field v).
Definition overlay_setGeometry (r : Z * Z * Z * Z) : M unit :=
  overlay_call (set_ov_rect r).

Definition windowOpacity : M Q :=
  c <- self ;;
  match overlay c with
  | Some o => ret (opacity o)
  | None => raise AttributeError
  end.

(** [QTimer.singleShot(delay, callback)]. *)
Definition singleShot (cb : Callback) : M unit :=
  update_world (fun w => set_singleshots (singleshots w ++ [cb]) w).

(* ------------------------------------------------------------------ *)
(** ** MonitorController *)

Definition geometry_of (c : Controller) : Z * Z * Z * Z :=
  (left c, top c, width c, height c).

Definition rect_eqb (a b : Z * Z * Z * Z) : bool :=
  let '(a1, a2, a3, a4) := a in
  let '(b1, b2, b3, b4) := b in
  (a1 =? b1) && (a2 =? b2) && (a3 =? b3) && (a4 =? b4).

Definition _update_geometry_from_system : M unit :=
  c <- self ;;
  w <- env ;;
  let idx := display_index c in
  let monitors := screens w in
  if Py.in_range idx monitors then
    match nth_error monitors (Z.to_nat idx) with
    | Some mon =>
        update (set_geometry (mon_x mon, mon_y mon, mon_width mon, mon_height mon))
    | None => raise IndexError
    end
  else
    update (set_geometry (0, 0, 800, 600)).

Definition refresh_geometry : M unit :=
  c <- self ;;
  let prev := geometry_of c in
  _update_geometry_from_system ;;
  c <- self ;;
  let now := geometry_of c in
  match overlay c with
  | Some _ =>
      when (negb (rect_eqb now prev)) then
        (overlay_setGeometry now ;; log_message)
  | None => ret tt
  end.

Definition is_monitor_active : M bool :=
  c <- self ;;
  w <- env ;;
  let '(x, y) := cursor w in
  if (left c <=? x) && (x <? left c + width c)
     && (top c <=? y) && (y <? top c + height c)
  then ret true
  else if os_nt w then
    match foreground w with
    | Some fg =>
        if win_visible fg then
          try_except
            (r <- GetWindowRect fg ;;
             let '(win_left, win_top, win_right, win_bottom) := r in
             let mon_left := left c in
             let mon_top := top c in
             let mon_right := left c + width c in
             let mon_bottom := top c + height c in
             let inter_left := Z.max mon_left win_left in
             let inter_top := Z.max mon_top win_top in
             let inter_right := Z.min mon_right win_right in
             let inter_bottom := Z.min mon_bottom win_bottom in
             let inter_w := Z.max 0 (inter_right - inter_left) in
             let inter_h := Z.max 0 (inter_bottom - inter_top) in
             let inter_area := inter_w * inter_h in
             let mon_area := Z.max 1 (width c * height c) in
             ret (Qle_bool (95 # 100)
                    (Py.float inter_area / Py.float mon_area)%Q))
            (fun _ => ret false)
        else ret false
    | None => ret false
    end
  else ret false.

Definition set_brightness (value : Z) : M unit :=
  c <- self ;;
  match monitorcontrol_monitor c with
  | None => ret tt
  | Some h => try_except (set_luminance h value) (fun _ => log_message)
  end.

(** *** The hardware fade *)

(** The start value of a hardware fade: the fresh read when there is
    one, else the cached original, else 100. *)
Definition fade_start_value (read : option Z) (original : option Z) : Z :=
  match read with
  | Some v => v
  | None => match original with
            | Some b => b
            | None => 100
            end
  end.

(** [1 - level / 100.0]: a float division and a float subtraction. *)
Definition dim_scale (level : Z) : Q :=
  F64.sub 1 (F64.div (F64.of_int level) 100).

(** [max(0, min(100, int(round(x * scale))))] for floats [x] and
    [scale]: a float product, rounded to an integer. *)
Definition scaled (x scale : Q) : Z :=
  Z.max 0 (Z.min 100 (Py.round (F64.mul x scale))).

(** [max(0, min(100, int(round(start * (1 - level / 100.0)))))] with
    [level = max(0, min(100, int(cfg["hardware_dimming_level"])))];
    the int [start] becomes a float where it meets the float factor. *)
Definition dim_target (hardware_dimming_level start : Z) : Z :=
  let level := Z.max 0 (Z.min 100 hardware_dimming_level) in
  scaled (F64.of_int start) (dim_scale level).

(** The number of steps and the timer interval (ms) of a hardware fade. *)
Definition hardware_profile (g : GlobalCfg) (down : bool) : Z * Q * Z :=
  let steps := overlay_fade_steps g in
  let duration := overlay_fade_time g in
  let duration := if down then duration
                  else Qmax (1 # 100) (duration * (5 # 100)) in
  let steps := if down then steps else Z.min steps 3 in
  let steps := if steps <=? 0 then 1 else steps in
  let interval_ms := Py.int ((duration / Py.float steps) * 1000)%Q in
  (steps, duration, interval_ms).

Definition fade_hardware (down : bool) : M unit :=
  c <- self ;;
  if restore_in_progress c then ret tt else
  update (set_restore_in_progress true) ;;
  read <- match monitorcontrol_monitor c with
          | Some h =>
              try_except (v <- get_luminance h ;; ret (Some v))
                         (fun _ => log_message ;; ret None)
          | None => ret None
          end ;;
  let start := fade_start_value read (original_brightness c) in
  let target :=
    if down then dim_target (hardware_dimming_level (cfg c)) start
    else match original_brightness c with
         | Some b => b
         | None => start
         end in
  w <- env ;;
  let '(steps, duration, interval_ms) := hardware_profile (global_cfg w) down in
  let step_size := (Py.float (target - start) / Py.float steps)%Q in
  update (set_current_fade_step 0) ;;
  update (set_fade_plan step_size steps start target) ;;
  update (set_fade_timer (Some (mkTimer interval_ms true))).

(** The value [_do_fade] computes once the step counter has been
    incremented, and whether this tick is the last one. *)
Definition fade_value (c : Controller) : Q :=
  (Py.float (fade_start c) + fade_step_size c * Py.float (current_fade_step c))%Q.

Definition fade_done (c : Controller) : bool :=
  let new_value := fade_value c in
  (Py.Qltb 0 (fade_step_size c) && Qle_bool (Py.float (fade_target c)) new_value)
  || (Py.Qltb (fade_step_size c) 0 && Qle_bool new_value (Py.float (fade_target c)))
  || (fade_steps c <=? current_fade_step c).

Definition _do_fade : M unit :=
  update (fun c => set_current_fade_step (current_fade_step c + 1) c) ;;
  c <- self ;;
  let new_value := fade_value c in
  if fade_done c then
    set_brightness (fade_target c) ;;
    update (fun c => set_fade_timer (option_map stop (fade_timer c)) c) ;;
    update (set_restore_in_progress false)
  else
    set_brightness (Py.int new_value).

(** *** The overlay fade *)

(** The value one overlay step applies. *)
Definition overlay_next (current target step_opacity : Q) : Q :=
  let next_val := (current + step_opacity)%Q in
  if (Py.Qltb 0 step_opacity && Qle_bool target next_val)
     || (Py.Qltb step_opacity 0 && Qle_bool next_val target)
  then target else next_val.

(** Whether another step is scheduled after [next_val] was applied. *)
Definition overlay_again (next_val target : Q) : bool :=
  Py.Qltb (1 # 100) (Qabs (next_val - target)).

Definition _fade_overlay_step (current target step_opacity : Q) (delay : Z)
  : M unit :=
  let next_val := overlay_next current target step_opacity in
  overlay_set_opacity next_val ;;
  if overlay_again next_val target then
    singleShot (mkCallback next_val target step_opacity delay)
  else
    when (Py.Qltb (Qabs target) (1 # 100)) then overlay_hide.

(** Step count, total time, step and delay (ms) of an overlay fade. *)
Definition overlay_profile (g : GlobalCfg) (current target_opacity : Q)
  : Z * Q * Q * Z :=
  let steps := overlay_fade_steps g in
  let steps := if steps <=? 0 then 1 else steps in
  let total_time := overlay_fade_time g in
  let fast := Py.Qltb target_opacity current in
  let total_time := if fast then Qmax (1 # 100) (total_time * (5 # 100))
                    else total_time in
  let steps := if fast then Z.min steps 3 else steps in
  let step_opacity := ((target_opacity - current) / Py.float steps)%Q in
  let step_delay_ms :=
    Z.max 1 (Py.int ((total_time / Py.float steps) * 1000)%Q) in
  (steps, total_time, step_opacity, step_delay_ms).

Definition fade_overlay (target_opacity : Q) : M unit :=
  current <- windowOpacity ;;
  w <- env ;;
  let '(steps, total_time, step_opacity, step_delay_ms) :=
    overlay_profile (global_cfg w) current target_opacity in
  _fade_overlay_step current target_opacity step_opacity step_delay_ms.

(** *** Dim and restore *)

Definition immediate_restore : M unit :=
  c <- self ;;
  (match fade_timer c with
   | Some t => when (isActive t) then update (set_fade_timer (Some (stop t)))
   | None => ret tt
   end) ;;
  (match monitorcontrol_monitor c, original_brightness c with
   | Some _, Some b => set_brightness b
   | _, _ => ret tt
   end) ;;
  (match overlay c with
   | Some _ => overlay_hide ;; overlay_set_opacity 0
   | None => ret tt
   end) ;;
  update (set_is_dimmed false).

Definition restore_dim : M unit :=
  update (set_is_dimmed false) ;;
  immediate_restore.

Definition dim : M unit :=
  try_except
    (c <- self ;;
     if is_dimmed c then ret tt else
     update (set_is_dimmed true) ;;
     (match overlay c with
      | Some _ =>
          when (enable_software_dimming (cfg c)) then
            (let target_opacity :=
               Qmax 0 (Qmin 1 (software_dimming_level (cfg c))) in
             overlay_show ;;
             fade_overlay target_opacity)
      | None => ret tt
      end) ;;
     match original_brightness c with
     | Some _ =>
         when (enable_hardware_dimming (cfg c)) then fade_hardware true
     | None => ret tt
     end)
    (fun _ => log_message).

Definition check_inactivity : M unit :=
  w <- env ;;
  if awake_mode (global_cfg w) then
    c <- self ;;
    when (is_dimmed c) then restore_dim
  else
    active <- is_monitor_active ;;
    if active then
      update (set_last_active (clock w)) ;;
      c <- self ;;
      when (is_dimmed c) then restore_dim
    else
      c <- self ;;
      let idle_time := (clock w - last_active c)%Q in
      when (Qle_bool (inactivity_limit (global_cfg w)) idle_time
            && negb (is_dimmed c)) then dim.

Definition set_indices (display_idx ddc_idx : Z) : M unit :=
  update (set_display_index (Z.max 0 display_idx)) ;;
  update (set_ddc_index (Z.max 0 ddc_idx)) ;;
  w <- env ;;
  let all_mc := ddc_monitors w in
  update (set_monitorcontrol_monitor None) ;;
  update (set_original_brightness None) ;;
  c <- self ;;
  (when (Py.in_range (ddc_index c) all_mc) then
     (let h := Z.to_nat (ddc_index c) in
      update (set_monitorcontrol_monitor (Some h)) ;;
      try_except
        (v <- get_luminance h ;; update (set_original_brightness (Some v)))
        (fun _ => log_message))) ;;
  refresh_geometry.

(* ------------------------------------------------------------------ *)
(** ** The event loop: timers *)

Definition timer_active (c : Controller) : bool :=
  match fade_timer c with
  | Some t => isActive t
  | None => false
  end.

(** The value the tick hands to [set_brightness], read off the
    controller once the step counter has been incremented. *)
Definition fade_applied (c : Controller) : Z :=
  if fade_done c then fade_target c else Py.int (fade_value c).

Definition bump (c : Controller) : Controller :=
  set_current_fade_step (current_fade_step c + 1) c.

(** [fade_timer] fires ([timeout] is connected to [_do_fade]) for as long
    as it is active.  The run collects the values handed to
    [set_brightness], tick by tick; [None] when the fuel does not
    suffice or a tick raises. *)
Fixpoint run_fade (fuel : nat) (s : State) : option (list Z * State) :=
  if timer_active (ctl s) then
    match fuel with
    | O => None
    | S n =>
        match _do_fade s with
        | (Ok _, s') =>
            match run_fade n s' with
            | Some (tr, sf) => Some (fade_applied (bump (ctl s)) :: tr, sf)
            | None => None
            end
        | (Raise _, _) => None
        end
    end
  else Some ([], s).

(** The chain of [_fade_overlay_step] calls: the first one is made by
    [fade_overlay], each further one by the closure the previous step
    handed to [QTimer.singleShot].  The run collects the opacities
    applied; [None] when the fuel does not suffice. *)
Fixpoint run_overlay (fuel : nat) (current target step_opacity : Q)
  : option (list Q) :=
  match fuel with
  | O => None
  | S n =>
      let next_val := overlay_next current target step_opacity in
      if overlay_again next_val target then
        match run_overlay n next_val target step_opacity with
        | Some tr => Some (next_val :: tr)
        | None => None
        end
      else Some [next_val]
  end.

(** The event loop runs the oldest pending single-shot closure. *)
Definition fire_singleshot : M unit :=
  w <- env ;;
  match singleshots w with
  | [] => ret tt
  | cb :: rest =>
      update_world (set_singleshots rest) ;;
      _fade_overlay_step (cb_current cb) (cb_target cb) (cb_step cb)
                         (cb_delay cb)
  end.

(* ------------------------------------------------------------------ *)
(** ** Observations used by the statements *)

(** The DDC monitor the controller is attached to. *)
Definition attached (s : State) : option Monitor :=
  match monitorcontrol_monitor (ctl s) with
  | Some h => nth_error (ddc_monitors (world s)) h
  | None => None
  end.

(** The luminance the hardware shows. *)
Definition hardware_luminance (s : State) : option Z :=
  option_map luminance (attached s).

(** What a fresh [get_luminance] returns; [None] when it raises. *)
Definition fresh_read (s : State) : option Z :=
  match attached s with
  | Some m => if readable m then Some (luminance m) else None
  | None => None
  end.

Definition overlay_opacity (s : State) : option Q :=
  option_map opacity (overlay (ctl s)).

Definition overlay_visible (s : State) : option bool :=
  option_map visible (overlay (ctl s)).

(** A value lies beyond [target] when coming from [start]. *)
Definition overshoots (start target v : Z) : Prop :=
  (start <= target /\ target < v) \/ (target <= start /\ v < target).

Definition Qovershoots (start target v : Q) : Prop :=
  ((start <= target)%Q /\ (target < v)%Q)
  \/ ((target <= start)%Q /\ (v < target)%Q).

(** The dim target in the words of the specification:
    [clamp(round(start*(1-level/100)), 0, 100)], a formula of
    arithmetic: the product is the exact one and [round] takes the
    nearest integer, the even one at a tie. *)
Definition clamp (x lo hi : Z) : Z := Z.max lo (Z.min hi x).

Definition spec_dim_target (level start : Z) : Z :=
  clamp (Py.round (inject_Z start * (1 - inject_Z level / 100))%Q) 0 100.

(** The world as [set_brightness] leaves it. *)
Definition brightness_world (value : Z) (c : Controller) (w : World) : World :=
  match monitorcontrol_monitor c with
  | Some h =>
      match nth_error (ddc_monitors w) h with
      | Some m =>
          if writable m
          then set_ddc_monitors
                 (list_update h (set_luminance_field value m) (ddc_monitors w)) w
          else w
      | None => w
      end
  | None => w
  end.

(** The rectangle [_update_geometry_from_system] stores. *)
Definition system_geometry (idx : Z) (monitors : list Screen)
  : Z * Z * Z * Z :=
  if Py.in_range idx monitors then
    match nth_error monitors (Z.to_nat idx) with
    | Some mon => (mon_x mon, mon_y mon, mon_width mon, mon_height mon)
    | None => (0, 0, 800, 600)
    end
  else (0, 0, 800, 600).

(** The controller as [refresh_geometry] leaves it. *)
Definition refreshed (c : Controller) (w : World) : Controller :=
  let c' := set_geometry (system_geometry (display_index c) (screens w)) c in
  match overlay c' with
  | Some o =>
      if negb (rect_eqb (geometry_of c') (geometry_of c))
      then set_overlay (Some (set_ov_rect (geometry_of c') o)) c'
      else c'
  | None => c'
  end.

(* ------------------------------------------------------------------ *)
(** ** Sample states *)

(** The defaults [load_config] fills in. *)
Definition sample_cfg : MonitorCfg := mkMonitorCfg true true 30 (1 # 2).

Definition sample_global (awake : bool) : GlobalCfg :=
  mkGlobalCfg awake 10 (1 # 2) 10.

Definition sample_overlay (shown : bool) (alpha : Q) : OverlayWindow :=
  mkOverlay shown alpha (0, 0, 1920, 1080).

(** A controller as [__init__] leaves it on a 1920x1080 display, with
    the given dim state, idle stamp and cached brightness. *)
Definition sample_controller (dimmed : bool) (stamp : Q) (orig : option Z)
  : Controller :=
  mkController sample_cfg dimmed false stamp 0 0 (Some 0%nat) orig
    0 0 1920 1080 (Some (sample_overlay dimmed (if dimmed then 1 # 2 else 0)))
    None 0 0 0 0 0.

(** One DDC monitor, one display, the cursor away from the display. *)
Definition sample_world (m : Monitor) (awake : bool) (now : Q) : World :=
  mkWorld [m] [mkScreen 0 0 1920 1080] now (5000, 5000) false None
    (sample_global awake) [].

Definition sample_state (dimmed awake : bool) (lum : Z) (orig : option Z)
  : State :=
  mkState (sample_controller dimmed 0 orig)
          (sample_world (mkMonitor lum true true) awake 100).

(** The controller as [fade_hardware] leaves it once past the
    [restore_in_progress] guard. *)
Definition planned (down : bool) (s : State) : Controller :=
  let c := ctl s in
  let start := fade_start_value (fresh_read s) (original_brightness c) in
  let target :=
    if down then dim_target (hardware_dimming_level (cfg c)) start
    else match original_brightness c with
         | Some b => b
         | None => start
         end in
  let '(steps, duration, interval_ms) :=
    hardware_profile (global_cfg (world s)) down in
  set_fade_timer (Some (mkTimer interval_ms true))
    (set_fade_plan (Py.float (target - start) / Py.float steps)%Q
       steps start target
       (set_current_fade_step 0 (set_restore_in_progress true c))).

(** The overlay and the callback queue as one [_fade_overlay_step]
    leaves them. *)
Definition overlay_stepped (current target step_opacity : Q)
    (o : OverlayWindow) : OverlayWindow :=
  let next_val := overlay_next current target step_opacity in
  let o1 := set_opacity_field next_val o in
  if overlay_again next_val target then o1
  else if Py.Qltb (Qabs target) (1 # 100) then set_visible false o1
  else o1.

Definition overlay_scheduled (current target step_opacity : Q) (delay : Z)
    (q : list Callback) : list Callback :=
  let next_val := overlay_next current target step_opacity in
  if overlay_again next_val target
  then q ++ [mkCallback next_val target step_opacity delay]
  else q.

(** The state as the software half of [dim] leaves it. *)
Definition software_dimmed (s : State) : State :=
  let c := ctl s in
  let w := world s in
  match overlay c with
  | Some o =>
      if enable_software_dimming (cfg c) then
        let target := Qmax 0 (Qmin 1 (software_dimming_level (cfg c))) in
        let current := opacity o in
        let '(steps, total_time, step_opacity, delay) :=
          overlay_profile (global_cfg w) current target in
        mkState
          (set_overlay
             (Some (overlay_stepped current target step_opacity
                      (set_visible true o)))
             (set_is_dimmed true c))
          (set_singleshots
             (overlay_scheduled current target step_opacity delay
                (singleshots w)) w)
      else mkState (set_is_dimmed true c) w
  | None => mkState (set_is_dimmed true c) w
  end.

(** The state as [dim] leaves it. *)
Definition dimmed (s : State) : State :=
  if is_dimmed (ctl s) then s
  else
    let s1 := software_dimmed s in
    match original_brightness (ctl s) with
    | Some _ =>
        if enable_hardware_dimming (cfg (ctl s)) then
          if restore_in_progress (ctl s1) then s1
          else mkState (planned true s1) (world s1)
        else s1
    | None => s1
    end.

(** The round trip as the specification words it: after [dim] then
    [restore_dim] the luminance and the overlay opacity are what they
    were before. *)
Definition dim_restore_roundtrip (s : State) : Prop :=
  forall s', (dim ;; restore_dim) s = (Ok tt, s') ->
    hardware_luminance s' = hardware_luminance s
    /\ overlay_opacity s' = overlay_opacity s.

(** The idle timer reset as the specification words it: after
    [restore_dim], [last_active] is the current time. *)
Definition restore_resets_idle_timer (s : State) : Prop :=
  forall s', restore_dim s = (Ok tt, s') ->
    (last_active (ctl s') == clock (world s'))%Q.


(** The controller as one [_do_fade] tick leaves it. *)
Definition after_tick (c : Controller) : Controller :=
  let c' := bump c in
  if fade_done c'
  then set_restore_in_progress false
         (set_fade_timer (option_map stop (fade_timer c')) c')
  else c'.

(** Exact landing of the overlay fade as the specification words it:
    the last opacity a completed overlay fade applies is the target. *)
Definition overlay_lands_on_target (current target : Q) (steps : Z) : Prop :=
  forall fuel tr,
    run_overlay fuel current target ((target - current) / inject_Z steps)%Q
    = Some tr ->
    (last tr current == target)%Q.

(** The sample controller right after [fade_hardware(down=True)]:
    a fade from 100 to 70 in 10 steps. *)
Definition sample_fading : State :=
  snd (fade_hardware true (sample_state false false 100 (Some 100))).

(** The event loop runs the pending closures of the overlay fade one
    after the other until none is left, collecting the opacity the
    overlay shows after each; [None] when the fuel does not suffice or
    a closure raises. *)
Fixpoint drain (fuel : nat) (s : State) : option (list Q * State) :=
  match singleshots (world s) with
  | [] => Some ([], s)
  | _ :: _ =>
      match fuel with
      | O => None
      | S n =>
          match fire_singleshot s with
          | (Ok _, s') =>
              match overlay_opacity s', drain n s' with
              | Some v, Some (tr, sf) => Some (v :: tr, sf)
              | _, _ => None
              end
          | (Raise _, _) => None
          end
      end
  end.

(** [fade_overlay] and then the closures it leaves behind: the
    opacities the overlay shows, step by step. *)
Definition run_fade_overlay (fuel : nat) (target_opacity : Q) (s : State)
  : option (list Q) :=
  match fade_overlay target_opacity s with
  | (Ok _, s1) =>
      match overlay_opacity s1, drain fuel s1 with
      | Some v, Some (tr, _) => Some (v :: tr)
      | _, _ => None
      end
  | (Raise _, _) => None
  end.

(* ------------------------------------------------------------------ *)
(** ** Further methods of the controller *)

Definition set_enable_hardware_dimming (v : bool) (m : MonitorCfg)
  : MonitorCfg :=
  mkMonitorCfg v (enable_software_dimming m) (hardware_dimming_level m)
    (software_dimming_level m).

Definition set_enable_software_dimming (v : bool) (m : MonitorCfg)
  : MonitorCfg :=
  mkMonitorCfg (enable_hardware_dimming m) v (hardware_dimming_level m)
    (software_dimming_level m).

Definition disable_hw_dimming : M unit :=
  c <- self ;;
  (match original_brightness c with
   | Some b => when (is_dimmed c) then set_brightness b
   | None => ret tt
   end) ;;
  update (fun c => set_cfg (set_enable_hardware_dimming false (cfg c)) c).

Definition disable_sw_dimming : M unit :=
  c <- self ;;
  (match overlay c with
   | Some _ =>
       when (is_dimmed c) then (overlay_hide ;; overlay_set_opacity 0)
   | None => ret tt
   end) ;;
  update (fun c => set_cfg (set_enable_software_dimming false (cfg c)) c).

(** [fade_timer.timeout]: the event loop calls [_do_fade] only while
    the timer is active. *)
Definition fade_timer_timeout : M unit :=
  c <- self ;;
  when (timer_active c) then _do_fade.

(** The cursor test of [is_monitor_active]. *)
Definition cursor_in_rect (c : Controller) (w : World) : bool :=
  let '(x, y) := cursor w in
  (left c <=? x) && (x <? left c + width c)
  && (top c <=? y) && (y <? top c + height c).

(** The area of the intersection of a window rectangle with the
    monitor, as [is_monitor_active] computes it. *)
Definition inter_area_of (c : Controller) (r : Z * Z * Z * Z) : Z :=
  let '(win_left, win_top, win_right, win_bottom) := r in
  Z.max 0 (Z.min (left c + width c) win_right - Z.max (left c) win_left)
  * Z.max 0 (Z.min (top c + height c) win_bottom - Z.max (top c) win_top).

(** The sample display on Windows with a full-screen foreground
    window and the cursor on another display. *)
Definition sample_fullscreen (dimmed : bool) : State :=
  mkState (sample_controller dimmed 0 (Some 100))
          (mkWorld [mkMonitor 70 true true] [mkScreen 0 0 1920 1080] 100
                   (5000, 5000) true
                   (Some (mkWindow true (Some (0, 0, 1920, 1080))))
                   (sample_global false) []).

(** The sample display on Windows with the cursor on another display
    and the given foreground window. *)
Definition sample_foreground (fg : Window) : State :=
  mkState (sample_controller false 0 (Some 100))
          (mkWorld [mkMonitor 70 true true] [mkScreen 0 0 1920 1080] 100
                   (5000, 5000) true (Some fg) (sample_global false) []).

(** The sample display with the cursor on it. *)
Definition sample_present (dimmed : bool) : State :=
  mkState (sample_controller dimmed 0 (Some 100))
          (mkWorld [mkMonitor 70 true true] [mkScreen 0 0 1920 1080] 100
                   (100, 100) false None (sample_global false) []).

(** The sample controller five seconds after its last activity. *)
Definition sample_idle_5s : State :=
  mkState (sample_controller false 95 (Some 100))
          (sample_world (mkMonitor 100 true true) false 100).

(** The state as [restore_dim] leaves it. *)
Definition restored (s : State) : State :=
  let c := ctl s in
  mkState
    (set_is_dimmed false
       (set_overlay
          (option_map (fun o => set_opacity_field 0 (set_visible false o))
                      (overlay c))
          (match fade_timer c with
           | Some t => if isActive t
                       then set_fade_timer (Some (stop t)) c
                       else c
           | None => c
           end)))
    (match original_brightness c with
     | Some b => brightness_world b c (world s)
     | None => world s
     end).

(** The sample controller right after [dim]: the overlay fade has made
    its first step and left a closure on the event loop. *)
Definition sample_dimming : State :=
  snd (dim (sample_state false false 100 (Some 100))).

(* ------------------------------------------------------------------ *)
(** ** Construction, and the controller as a whole *)

(** [init_monitor]: attach the DDC monitor at [ddc_index] and probe it,
    take the geometry of the display at [display_index], and create
    the overlay, hidden and with opacity 0.0. *)
Definition init_monitor : M unit :=
  c <- self ;;
  w <- env ;;
  let ddc_idx := ddc_index c in
  let all_mc := ddc_monitors w in
  (if Py.in_range ddc_idx all_mc then
     (let h := Z.to_nat ddc_idx in
      update (set_monitorcontrol_monitor (Some h)) ;;
      try_except
        (v <- get_luminance h ;; update (set_original_brightness (Some v)))
        (fun _ => log_message ;; update (set_original_brightness None)))
   else update (set_monitorcontrol_monitor None)) ;;
  _update_geometry_from_system ;;
  c <- self ;;
  update (set_overlay (Some (mkOverlay false 0 (geometry_of c)))) ;;
  log_message.

(** The attributes [__init__] assigns before it calls [init_monitor];
    [display_idx] and [ddc_idx] are what the [cfg.get] lookups give. *)
Definition new_controller (monitor_cfg : MonitorCfg) (display_idx ddc_idx : Z)
    (now : Q) : Controller :=
  mkController monitor_cfg false false now display_idx ddc_idx None None
    0 0 1 1 None None 0 0 0 0 0.

Definition __init__ (monitor_cfg : MonitorCfg) (display_idx ddc_idx : Z)
    (w : World) : outcome unit * State :=
  init_monitor (mkState (new_controller monitor_cfg display_idx ddc_idx
                                        (clock w)) w).

(** The controller as [set_indices] leaves it. *)
Definition reindexed (display_idx ddc_idx : Z) (s : State) : Controller :=
  let w := world s in
  let h := Z.max 0 ddc_idx in
  let c1 :=
    set_original_brightness None
      (set_monitorcontrol_monitor None
         (set_ddc_index h
            (set_display_index (Z.max 0 display_idx) (ctl s)))) in
  let c2 :=
    if Py.in_range h (ddc_monitors w) then
      let c' := set_monitorcontrol_monitor (Some (Z.to_nat h)) c1 in
      match nth_error (ddc_monitors w) (Z.to_nat h) with
      | Some m => if readable m
                  then set_original_brightness (Some (luminance m)) c'
                  else c'
      | None => c'
      end
    else c1 in
  refreshed c2 w.

(** The state as a tick of [check_inactivity] leaves it, given the
    answer of [is_monitor_active]. *)
Definition ticked (active : bool) (s : State) : State :=
  if awake_mode (global_cfg (world s)) then
    if is_dimmed (ctl s) then restored s else s
  else if active then
    let s1 := with_ctl (set_last_active (clock (world s))) s in
    if is_dimmed (ctl s1) then restored s1 else s1
  else
    if Qle_bool (inactivity_limit (global_cfg (world s)))
                (clock (world s) - last_active (ctl s))
       && negb (is_dimmed (ctl s))
    then dimmed s else s.

(** What the methods keep true of a controller: a known original
    brightness comes with an attached monitor; a running fade timer
    comes with [restore_in_progress] and a step counter below the step
    count; the overlay exists and covers the controller's rectangle. *)
Definition Inv (c : Controller) : Prop :=
  (original_brightness c <> None -> monitorcontrol_monitor c <> None)
  /\ (timer_active c = true ->
      restore_in_progress c = true
      /\ 0 <= current_fade_step c < fade_steps c)
  /\ (exists o, overlay c = Some o /\ ov_rect o = geometry_of c).

(** The entry points of a controller: its timers, and the methods the
    window and the tray call. *)
Inductive Op :=
| OpCheckInactivity
| OpFadeTimer
| OpSingleShot
| OpDim
| OpRestoreDim
| OpImmediateRestore
| OpSetIndices (display_idx ddc_idx : Z)
| OpRefreshGeometry
| OpDisableHw
| OpDisableSw.

Definition run_op (op : Op) : M unit :=
  match op with
  | OpCheckInactivity => check_inactivity
  | OpFadeTimer => fade_timer_timeout
  | OpSingleShot => fire_singleshot
  | OpDim => dim
  | OpRestoreDim => restore_dim
  | OpImmediateRestore => immediate_restore
  | OpSetIndices d h => set_indices d h
  | OpRefreshGeometry => refresh_geometry
  | OpDisableHw => disable_hw_dimming
  | OpDisableSw => disable_sw_dimming
  end.

(** What happens to a controller over time: calls of its entry points,
    and changes of everything outside it (the hardware, the displays,
    the cursor, the clock, the configuration). *)
Inductive Event :=
| Call (op : Op)
| Outside (f : World -> World).

Fixpoint run_events (es : list Event) (s : State) : outcome unit * State :=
  match es with
  | [] => (Ok tt, s)
  | Call op :: rest =>
      match run_op op s with
      | (Ok _, s') => run_events rest s'
      | (Raise e, s') => (Raise e, s')
      end
  | Outside f :: rest => run_events rest (with_world f s)
  end.

(* ------------------------------------------------------------------ *)
(** ** The window: awake mode, pause, and the loops over controllers *)

(** The part of [MainWindow] that drives the controllers.  [shared] is
    the world all controllers live in; its [global_cfg] is
    [self.config].  A timer attribute is [None] until it is first
    assigned ([hasattr] is false). *)
Record MainWindow := mkMainWindow {
  controllers         : list Controller;
  shared              : World;
  _pause_timer        : option QTimer;
  _pause_update_timer : option QTimer
}.

Definition set_awake_mode (v : bool) (g : GlobalCfg) : GlobalCfg :=
  mkGlobalCfg v (inactivity_limit g) (overlay_fade_time g)
    (overlay_fade_steps g).

Definition set_inactivity_limit (v : Q) (g : GlobalCfg) : GlobalCfg :=
  mkGlobalCfg (awake_mode g) v (overlay_fade_time g) (overlay_fade_steps g).

Definition set_global_cfg (v : GlobalCfg) (w : World) : World :=
  mkWorld (ddc_monitors w) (screens w) (clock w) (cursor w) (os_nt w)
    (foreground w) v (singleshots w).

(** [for ctl in self.controllers: ctl.method()]: the controllers share
    the world; an exception leaves the loop. *)
Fixpoint each_controller (method : M unit) (cs : list Controller) (w : World)
  : outcome unit * (list Controller * World) :=
  match cs with
  | [] => (Ok tt, ([], w))
  | c :: rest =>
      match method (mkState c w) with
      | (Ok _, s') =>
          match each_controller method rest (world s') with
          | (r, (rest', w')) => (r, (ctl s' :: rest', w'))
          end
      | (Raise e, s') => (Raise e, (ctl s' :: rest, world s'))
      end
  end.

Definition for_controllers (method : M unit) (a : MainWindow)
  : outcome unit * MainWindow :=
  match each_controller method (controllers a) (shared a) with
  | (r, (cs, w)) =>
      (r, mkMainWindow cs w (_pause_timer a) (_pause_update_timer a))
  end.

(** [if hasattr(self, t) and t.isActive(): t.stop()]. *)
Definition stop_if_active (t : option QTimer) : option QTimer :=
  match t with
  | Some q => if isActive q then Some (stop q) else Some q
  | None => None
  end.

(** [if hasattr(self, t): t.stop()]. *)
Definition stop_if_present (t : option QTimer) : option QTimer :=
  option_map stop t.

Definition pause_active (a : MainWindow) : bool :=
  match _pause_timer a with
  | Some q => isActive q
  | None => false
  end.

Definition on_awake_toggled (state : bool) (a : MainWindow)
  : outcome unit * MainWindow :=
  let pause := if negb state then stop_if_active (_pause_timer a)
               else _pause_timer a in
  let upd := if negb state then stop_if_present (_pause_update_timer a)
             else _pause_update_timer a in
  let w := set_global_cfg (set_awake_mode state (global_cfg (shared a)))
             (shared a) in
  let cs := if state then controllers a
            else map (set_last_active (clock w)) (controllers a) in
  (Ok tt, mkMainWindow cs w pause upd).

Definition toggle_awake_mode (a : MainWindow) : outcome unit * MainWindow :=
  let a1 := mkMainWindow (controllers a) (shared a)
              (stop_if_active (_pause_timer a))
              (stop_if_present (_pause_update_timer a)) in
  let new_state := negb (awake_mode (global_cfg (shared a1))) in
  on_awake_toggled new_state a1.

Definition pause_dimming (minutes : Z) (a : MainWindow)
  : outcome unit * MainWindow :=
  let a1 := mkMainWindow (controllers a) (shared a)
              (stop_if_active (_pause_timer a)) (_pause_update_timer a) in
  match (if negb (awake_mode (global_cfg (shared a1)))
         then on_awake_toggled true a1 else (Ok tt, a1)) with
  | (Ok _, a2) =>
      (Ok tt,
       mkMainWindow (controllers a2) (shared a2)
         (Some (mkTimer (Z.max 1 minutes * 60 * 1000) true))
         (Some (mkTimer 30000 true)))
  | (Raise e, a2) => (Raise e, a2)
  end.

Definition _pause_timeout (a : MainWindow) : outcome unit * MainWindow :=
  on_awake_toggled false
    (mkMainWindow (controllers a) (shared a) (_pause_timer a)
                  (stop_if_present (_pause_update_timer a))).

(** The single-shot [_pause_timer] expires: it is inactive from then
    on, and its [timeout] runs [_pause_timeout]. *)
Definition pause_timer_timeout (a : MainWindow) : outcome unit * MainWindow :=
  if pause_active a then
    _pause_timeout
      (mkMainWindow (controllers a) (shared a)
                    (option_map stop (_pause_timer a))
                    (_pause_update_timer a))
  else (Ok tt, a).

Definition resume_now (a : MainWindow) : outcome unit * MainWindow :=
  let a1 := mkMainWindow (controllers a) (shared a)
              (stop_if_active (_pause_timer a))
              (stop_if_present (_pause_update_timer a)) in
  if awake_mode (global_cfg (shared a1)) then on_awake_toggled false a1
  else (Ok tt, a1).

Definition nap_now : MainWindow -> outcome unit * MainWindow :=
  for_controllers dim.

(** [c.restore_dim(); c.last_active = time.time()]. *)
Definition restore_and_stamp : M unit :=
  restore_dim ;;
  w <- env ;;
  update (set_last_active (clock w)).

Definition on_apply_clicked (new_inactivity : Z) (a : MainWindow)
  : outcome unit * MainWindow :=
  let w := set_global_cfg
             (set_inactivity_limit (inject_Z new_inactivity)
                                   (global_cfg (shared a)))
             (shared a) in
  for_controllers restore_and_stamp
    (mkMainWindow (controllers a) w (_pause_timer a)
                  (_pause_update_timer a)).

(** [MonitorNapApplication.cleanup]. *)
Definition cleanup : MainWindow -> outcome unit * MainWindow :=
  for_controllers immediate_restore.

(** [MonitorNapApplication.refresh_all_geometries]: the loop sits in a
    [try]; an exception is logged. *)
Definition refresh_all_geometries (a : MainWindow)
  : outcome unit * MainWindow :=
  match for_controllers refresh_geometry a with
  | (Ok _, a') => (Ok tt, a')
  | (Raise _, a') => (Ok tt, a')
  end.

(** One round of the 1 Hz activity timers, one per controller. *)
Definition tick_all : MainWindow -> outcome unit * MainWindow :=
  for_controllers check_inactivity.

(** What the user, the tray and the timers can do to the window. *)
Inductive WindowOp :=
| AwakeToggled (state : bool)
| ToggleAwakeMode
| PauseDimming (minutes : Z)
| PauseTimerExpires
| ResumeNow
| NapNow
| ApplyClicked (new_inactivity : Z)
| Cleanup
| RefreshAllGeometries
| TickAll
| Elsewhere (f : World -> World).

(** Changes from outside reach everything but [self.config]. *)
Definition outside (f : World -> World) (w : World) : World :=
  set_global_cfg (global_cfg w) (f w).

Definition run_window_op (op : WindowOp) (a : MainWindow)
  : outcome unit * MainWindow :=
  match op with
  | AwakeToggled state => on_awake_toggled state a
  | ToggleAwakeMode => toggle_awake_mode a
  | PauseDimming minutes => pause_dimming minutes a
  | PauseTimerExpires => pause_timer_timeout a
  | ResumeNow => resume_now a
  | NapNow => nap_now a
  | ApplyClicked v => on_apply_clicked v a
  | Cleanup => cleanup a
  | RefreshAllGeometries => refresh_all_geometries a
  | TickAll => tick_all a
  | Elsewhere f =>
      (Ok tt, mkMainWindow (controllers a) (outside f (shared a))
                           (_pause_timer a) (_pause_update_timer a))
  end.

Fixpoint run_window_ops (ops : list WindowOp) (a : MainWindow)
  : outcome unit * MainWindow :=
  match ops with
  | [] => (Ok tt, a)
  | op :: rest =>
      match run_window_op op a with
      | (Ok _, a') => run_window_ops rest a'
      | (Raise e, a') => (Raise e, a')
      end
  end.

(** What the window keeps true: while the pause timer runs, awake mode
    is on; and every controller satisfies [Inv]. *)
Definition WindowInv (a : MainWindow) : Prop :=
  (pause_active a = true -> awake_mode (global_cfg (shared a)) = true)
  /\ Forall Inv (controllers a).

(** Two sample controllers, the second one Dimmed, sharing one world. *)
Definition sample_window (awake : bool) : MainWindow :=
  mkMainWindow
    [sample_controller false 0 (Some 100);
     set_ddc_index 1 (set_monitorcontrol_monitor (Some 1%nat)
                        (sample_controller true 0 (Some 90)))]
    (mkWorld [mkMonitor 100 true true; mkMonitor 60 true false]
             [mkScreen 0 0 1920 1080] 100 (5000, 5000) false None
             (sample_global awake) [])
    None None.

(** The clock and the configuration are the same in both worlds. *)
Definition same_env (w w' : World) : Prop :=
  global_cfg w' = global_cfg w /\ clock w' = clock w.

(* ------------------------------------------------------------------ *)
(** ** The dim target, value by value *)

(** C4 as the specification words it, at one state: the target that
    [fade_hardware(down=True)] stores is the formula of the
    specification at the configured level and the start of the fade. *)
Definition target_is_spec_formula (s : State) : Prop :=
  forall s', fade_hardware true s = (Ok tt, s') ->
    fade_target (ctl s')
    = spec_dim_target (hardware_dimming_level (cfg (ctl s)))
                      (fade_start (ctl s')).

(** The computation of the dim target in the IEEE 754 model of the
    Standard Library, at precision 53 and maximal exponent 1024. *)
Definition ieee_of_int (n : Z) : spec_float :=
  binary_normalize 53 1024 n 0 false.

Definition ieee_to_Q (f : spec_float) : Q :=
  match f with
  | S754_finite sign m e =>
      ((if sign then -1 else 1) * inject_Z (Zpos m) * 2 ^ e)%Q
  | _ => 0%Q
  end.

Definition ieee_scale (level : Z) : spec_float :=
  SFsub 53 1024 (ieee_of_int 1)
    (SFdiv 53 1024 (ieee_of_int level) (ieee_of_int 100)).

Definition ieee_scaled (x scale : spec_float) : Z :=
  Z.max 0 (Z.min 100 (Py.round (ieee_to_Q (SFmul 53 1024 x scale)))).

Definition dim_target_ieee (hardware_dimming_level start : Z) : Z :=
  let level := Z.max 0 (Z.min 100 hardware_dimming_level) in
  ieee_scaled (ieee_of_int start) (ieee_scale level).

(** The integers 0..100. *)
Definition percents : list Z := map Z.of_nat (seq 0 101).

(** What is checked of the target [t] of one level and one start, both
    in 0..100; [start * (100 - level)] is a hundred times the exact
    product [start * (1 - level / 100)], which lies halfway between two
    integers when it leaves 50 modulo 100.  At the levels 25, 50 and 75
    the factor is a double. *)
Definition target_check (level start t t_ieee : Z) : bool :=
  let exact := start * (100 - level) in
  (t =? t_ieee)
  && (Z.abs (100 * t - exact) <=? 50)
  && ((exact mod 100 =? 50) || (t =? spec_dim_target level start))
  && (Z.abs (t - spec_dim_target level start) <=? 1)
  && (t <=? start)
  && ((level <? 100) || (t =? 0))
  && ((0 <? level) || (t =? start))
  && (negb ((level =? 25) || (level =? 50) || (level =? 75))
      || negb (exact mod 100 =? 50) || Z.even t).

(** A start with its float, and a level with its factor, in both
    models. *)
Definition start_row (start : Z) : Z * (Q * spec_float) :=
  (start, (F64.of_int start, ieee_of_int start)).

Definition level_row (level : Z) : Z * (Q * spec_float) :=
  (level, (dim_scale level, ieee_scale level)).

Definition row_check (a e : Z * (Q * spec_float)) : bool :=
  target_check (fst e) (fst a)
    (scaled (fst (snd a)) (fst (snd e)))
    (ieee_scaled (snd (snd a)) (snd (snd e))).

Definition start_rows : list (Z * (Q * spec_float)) := map start_row percents.

Definition level_rows : list (Z * (Q * spec_float)) := map level_row percents.

(* ------------------------------------------------------------------ *)
(** ** Basic facts *)

Lemma Qltb_lt (x y : Q) : Py.Qltb x y = true <-> (x < y)%Q.
Proof.
  unfold Py.Qltb. rewrite negb_true_iff.
  split; intro H.
  - apply Qnot_le_lt. intro L. apply Qle_bool_iff in L. congruence.
  - destruct (Qle_bool y x) eqn:E; trivial.
    apply Qle_bool_iff in E. exfalso. exact (Qlt_not_le _ _ H E).
Qed.

Lemma Qltb_ge (x y : Q) : Py.Qltb x y = false <-> (y <= x)%Q.
Proof.
  unfold Py.Qltb. rewrite negb_false_iff. apply Qle_bool_iff.
Qed.

Lemma Qle_bool_false (x y : Q) : Qle_bool x y = false <-> (y < x)%Q.
Proof.
  rewrite <- Qltb_lt. unfold Py.Qltb. now rewrite negb_true_iff.
Qed.

(** Unfold the monad operations and the state projections. *)
Ltac monad :=
  cbv beta iota zeta delta
    [bind ret raise try_except get self env update update_world
     log_message with_ctl with_world ctl world
     cfg is_dimmed restore_in_progress last_active display_index ddc_index
     monitorcontrol_monitor original_brightness left top width height
     overlay fade_timer current_fade_step fade_steps fade_start fade_target
     fade_step_size
     set_cfg set_is_dimmed set_restore_in_progress set_last_active
     set_display_index set_ddc_index set_monitorcontrol_monitor
     set_original_brightness set_geometry set_overlay set_fade_timer
     set_current_fade_step set_fade_plan
     ddc_monitors screens clock cursor os_nt foreground global_cfg
     singleshots set_ddc_monitors set_singleshots
     interval isActive stop visible opacity ov_rect
     set_visible set_opacity_field set_ov_rect
     overlay_call overlay_show overlay_hide overlay_set_opacity
     overlay_setGeometry windowOpacity singleShot option_map].

Lemma set_brightness_spec (value : Z) (s : State) :
  set_brightness value s
  = (Ok tt, mkState (ctl s) (brightness_world value (ctl s) (world s))).
Proof.
  destruct s as [c w]. destruct c, w.
  unfold set_brightness, brightness_world, set_luminance. monad.
  destruct monitorcontrol_monitor0 as [h|]; trivial.
  destruct (nth_error ddc_monitors0 h) as [m|]; trivial.
  destruct (writable m); trivial.
Qed.

Lemma list_update_length {A} (n : nat) (x : A) (l : list A) :
  length (list_update n x l) = length l.
Proof.
  revert n; induction l as [|a l IH]; intros [|n]; cbn; auto.
Qed.

Lemma nth_error_list_update {A} (n : nat) (x y : A) (l : list A) :
  nth_error l n = Some y -> nth_error (list_update n x l) n = Some x.
Proof.
  revert n; induction l as [|a l IH]; intros [|n]; cbn; intros H;
    try discriminate; auto.
Qed.

(* ------------------------------------------------------------------ *)
(** ** Immediate restore *)

(** The controller as [immediate_restore] leaves it. *)
Lemma immediate_restore_spec (s : State) :
  immediate_restore s
  = (Ok tt,
     mkState
       (set_is_dimmed false
          (set_overlay
             (option_map (fun o => set_opacity_field 0 (set_visible false o))
                         (overlay (ctl s)))
             (match fade_timer (ctl s) with
              | Some t => if isActive t
                          then set_fade_timer (Some (stop t)) (ctl s)
                          else ctl s
              | None => ctl s
              end)))
       (match original_brightness (ctl s) with
        | Some b => brightness_world b (ctl s) (world s)
        | None => world s
        end)).
Proof.
  destruct s as [c w]. destruct c.
  unfold immediate_restore. monad.
  destruct fade_timer0 as [[i [|]]|]; monad;
    destruct monitorcontrol_monitor0 as [h|];
    destruct original_brightness0 as [b|]; monad;
    rewrite ?set_brightness_spec; monad;
    destruct overlay0 as [o|]; monad; reflexivity.
Qed.

(** C10: from every controller state [immediate_restore] returns
    normally and leaves [is_dimmed] false, the overlay hidden and its
    opacity 0.0; the state ranges over monitors whose luminance write
    fails as well, so a failed write changes none of this. *)
Theorem immediate_restore_postcondition (s : State) :
  exists s',
    immediate_restore s = (Ok tt, s')
    /\ is_dimmed (ctl s') = false
    /\ match overlay (ctl s') with
       | Some o => visible o = false /\ opacity o = 0%Q
       | None => overlay (ctl s) = None
       end.
Proof.
  rewrite immediate_restore_spec. eexists. split; [reflexivity|].
  destruct s as [c w]. destruct c. monad.
  split; [reflexivity|].
  destruct overlay0; [split|]; reflexivity.
Qed.

(* ------------------------------------------------------------------ *)
(** ** Geometry and indices *)

Lemma nth_error_in_range {A} (i : Z) (l : list A) :
  Py.in_range i l = true -> exists x, nth_error l (Z.to_nat i) = Some x.
Proof.
  unfold Py.in_range. rewrite andb_true_iff, Z.leb_le, Z.ltb_lt.
  intros [H0 H1].
  destruct (nth_error l (Z.to_nat i)) as [x|] eqn:E; [now exists x|].
  apply nth_error_None in E. lia.
Qed.

Lemma _update_geometry_from_system_spec (s : State) :
  _update_geometry_from_system s
  = (Ok tt,
     mkState (set_geometry
                (system_geometry (display_index (ctl s)) (screens (world s)))
                (ctl s))
             (world s)).
Proof.
  destruct s as [c w]. destruct c, w.
  unfold _update_geometry_from_system, system_geometry. monad.
  destruct (Py.in_range display_index0 screens0) eqn:R; [|reflexivity].
  destruct (nth_error_in_range _ _ R) as [mon ->]. reflexivity.
Qed.

(** C9: when [display_index] lies outside the display enumeration the
    geometry update returns normally and stores the default rectangle,
    origin (0,0) and size 800x600. *)
Theorem geometry_out_of_range_default (s : State) :
  ~ (0 <= display_index (ctl s) < Z.of_nat (length (screens (world s)))) ->
  exists s',
    _update_geometry_from_system s = (Ok tt, s')
    /\ geometry_of (ctl s') = (0, 0, 800, 600).
Proof.
  intro H. rewrite _update_geometry_from_system_spec.
  eexists. split; [reflexivity|].
  unfold system_geometry.
  replace (Py.in_range (display_index (ctl s)) (screens (world s)))
    with false.
  - destruct s as [c w]; destruct c; reflexivity.
  - symmetry. unfold Py.in_range.
    apply andb_false_iff.
    destruct (Z.leb_spec 0 (display_index (ctl s))); [right|now left].
    apply Z.ltb_ge. lia.
Qed.

Lemma geometry_out_of_range_default_witness :
  exists s',
    _update_geometry_from_system
      (mkState (set_display_index 7 (sample_controller false 0 (Some 100)))
               (sample_world (mkMonitor 100 true true) false 100))
    = (Ok tt, s')
    /\ geometry_of (ctl s') = (0, 0, 800, 600).
Proof.
  apply geometry_out_of_range_default. cbn. lia.
Defined.

Lemma refresh_geometry_spec (s : State) :
  refresh_geometry s = (Ok tt, mkState (refreshed (ctl s) (world s)) (world s)).
Proof.
  destruct s as [c w]. destruct c, w.
  unfold refresh_geometry, refreshed, geometry_of. monad.
  rewrite _update_geometry_from_system_spec. monad.
  destruct (system_geometry display_index0 screens0) as [[[l t] wd] hg].
  monad.
  destruct overlay0 as [o|]; [|reflexivity].
  destruct (negb _); reflexivity.
Qed.

(** C8: for every pair of integers [set_indices] returns normally;
    the stored indices are the inputs clamped below at 0, and
    [original_brightness] is the probed luminance, [None] when the probe
    fails (no monitor at the index, or the read raises). *)
Theorem set_indices_never_raises (s : State) (display_idx ddc_idx : Z) :
  exists s',
    set_indices display_idx ddc_idx s = (Ok tt, s')
    /\ display_index (ctl s') = Z.max 0 display_idx
    /\ ddc_index (ctl s') = Z.max 0 ddc_idx
    /\ (display_idx < 0 -> display_index (ctl s') = 0)
    /\ (ddc_idx < 0 -> ddc_index (ctl s') = 0)
    /\ original_brightness (ctl s') = fresh_read s'
    /\ (fresh_read s' = None -> original_brightness (ctl s') = None).
Proof.
  assert (P : exists s',
    set_indices display_idx ddc_idx s = (Ok tt, s')
    /\ display_index (ctl s') = Z.max 0 display_idx
    /\ ddc_index (ctl s') = Z.max 0 ddc_idx
    /\ original_brightness (ctl s') = fresh_read s').
  { destruct s as [c w]. destruct c, w.
    unfold set_indices, get_luminance. monad.
    destruct (Py.in_range (Z.max 0 ddc_idx) ddc_monitors0) eqn:R.
    - destruct (nth_error_in_range _ _ R) as [m Hm].
      monad. rewrite Hm.
      destruct (readable m) eqn:Hr; monad;
        rewrite refresh_geometry_spec; eexists; (split; [reflexivity|]);
        unfold refreshed, fresh_read, attached, geometry_of; monad;
        destruct (system_geometry _ _) as [[[l t] wd] hg]; monad;
        destruct overlay0 as [o|]; try destruct (negb _); monad;
        rewrite ?Hm, ?Hr; auto.
    - monad. rewrite refresh_geometry_spec. eexists. split; [reflexivity|].
      unfold refreshed, fresh_read, attached, geometry_of; monad.
      destruct (system_geometry _ _) as [[[l t] wd] hg]; monad.
      destruct overlay0 as [o|]; try destruct (negb _); monad; auto. }
  destruct P as (s' & E & D & H & O).
  exists s'. repeat split; trivial; try lia. congruence.
Qed.

(* ------------------------------------------------------------------ *)
(** ** Starting the fades *)

Lemma fade_hardware_spec (down : bool) (s : State) :
  fade_hardware down s
  = (Ok tt,
     if restore_in_progress (ctl s) then s
     else mkState (planned down s) (world s)).
Proof.
  destruct s as [c w]. destruct c, w.
  unfold fade_hardware, planned, get_luminance, fresh_read, attached. monad.
  destruct restore_in_progress0; [reflexivity|].
  destruct monitorcontrol_monitor0 as [h|]; monad.
  - destruct (nth_error ddc_monitors0 h) as [m|]; monad.
    + destruct (readable m); monad;
        destruct (hardware_profile global_cfg0 down) as [[st du] iv];
        reflexivity.
    + destruct (hardware_profile global_cfg0 down) as [[st du] iv];
        reflexivity.
  - destruct (hardware_profile global_cfg0 down) as [[st du] iv];
      reflexivity.
Qed.

Lemma _fade_overlay_step_spec (current target step_opacity : Q) (delay : Z)
    (s : State) (o : OverlayWindow) :
  overlay (ctl s) = Some o ->
  _fade_overlay_step current target step_opacity delay s
  = (Ok tt,
     mkState
       (set_overlay (Some (overlay_stepped current target step_opacity o))
                    (ctl s))
       (set_singleshots
          (overlay_scheduled current target step_opacity delay
             (singleshots (world s)))
          (world s))).
Proof.
  destruct s as [c w]. destruct c, w. monad. intros ->.
  unfold _fade_overlay_step, overlay_stepped, overlay_scheduled. monad.
  destruct (overlay_again _ target); monad; [reflexivity|].
  destruct (Py.Qltb (Qabs target) (1 # 100)); reflexivity.
Qed.

Lemma dim_spec (s : State) : dim s = (Ok tt, dimmed s).
Proof.
  destruct s as [c w]. destruct c, w.
  unfold dim, dimmed, software_dimmed, fade_overlay. monad.
  destruct is_dimmed0; [reflexivity|].
  assert (H : forall s1 : State,
    (match original_brightness0 with
     | Some _ =>
         if enable_hardware_dimming cfg0 then fade_hardware true
         else fun s => (Ok tt, s)
     | None => fun s => (Ok tt, s)
     end) s1
    = (Ok tt,
       match original_brightness0 with
       | Some _ =>
           if enable_hardware_dimming cfg0 then
             if restore_in_progress (ctl s1) then s1
             else mkState (planned true s1) (world s1)
           else s1
       | None => s1
       end)).
  { intros s1. destruct original_brightness0; [|reflexivity].
    destruct (enable_hardware_dimming cfg0); [|reflexivity].
    apply fade_hardware_spec. }
  destruct overlay0 as [o|]; monad.
  - destruct (enable_software_dimming cfg0); monad.
    + destruct (overlay_profile _ _ _) as [[[st tt'] so] dl] eqn:P.
      erewrite _fade_overlay_step_spec by reflexivity. monad.
      rewrite H. reflexivity.
    + rewrite H. reflexivity.
  - rewrite H. reflexivity.
Qed.

(* ------------------------------------------------------------------ *)
(** ** Restore *)

Lemma brightness_world_luminance (b : Z) (c c' : Controller) (w : World)
    (m : Monitor) :
  monitorcontrol_monitor c' = monitorcontrol_monitor c ->
  attached (mkState c w) = Some m ->
  hardware_luminance (mkState c' (brightness_world b c w))
  = Some (if writable m then b else luminance m).
Proof.
  unfold hardware_luminance, attached, brightness_world. cbn [ctl world].
  intros ->. destruct (monitorcontrol_monitor c) as [h|]; [|discriminate].
  intros E. rewrite E.
  destruct (writable m).
  - destruct w. cbn [ddc_monitors set_ddc_monitors].
    cbn [ddc_monitors] in E.
    now rewrite (nth_error_list_update _ _ _ _ E).
  - now rewrite E.
Qed.

Lemma restore_dim_effect (s : State) :
  exists s',
    restore_dim s = (Ok tt, s')
    /\ is_dimmed (ctl s') = false
    /\ timer_active (ctl s') = false
    /\ last_active (ctl s') = last_active (ctl s)
    /\ monitorcontrol_monitor (ctl s') = monitorcontrol_monitor (ctl s)
    /\ original_brightness (ctl s') = original_brightness (ctl s)
    /\ overlay (ctl s')
       = option_map (fun o => set_opacity_field 0 (set_visible false o))
                    (overlay (ctl s))
    /\ world s'
       = match original_brightness (ctl s) with
         | Some b => brightness_world b (ctl s) (world s)
         | None => world s
         end.
Proof.
  unfold restore_dim. unfold bind at 1. unfold update at 1.
  rewrite immediate_restore_spec. eexists. split; [reflexivity|].
  destruct s as [c w]. destruct c. unfold timer_active, brightness_world.
  monad.
  destruct fade_timer0 as [[i [|]]|]; repeat split; reflexivity.
Qed.

(** C7, as the code has it: from every state [restore_dim] returns
    normally with the controller Active and no hardware fade timer
    running; the overlay is hidden with opacity 0.0 and, when the DDC
    monitor is attached, the original brightness known and the write
    succeeds, the hardware shows the original brightness at once.
    [last_active] is left as it was. *)
Theorem restore_dim_instant (s : State) :
  exists s',
    restore_dim s = (Ok tt, s')
    /\ is_dimmed (ctl s') = false
    /\ timer_active (ctl s') = false
    /\ overlay_visible s' = option_map (fun _ => false) (overlay (ctl s))
    /\ overlay_opacity s' = option_map (fun _ => 0%Q) (overlay (ctl s))
    /\ (forall m b, attached s = Some m ->
                    original_brightness (ctl s) = Some b ->
                    writable m = true ->
                    hardware_luminance s' = Some b)
    /\ last_active (ctl s') = last_active (ctl s).
Proof.
  destruct (restore_dim_effect s) as (s' & E & D & T & L & Hm & Ho & Ov & W).
  exists s'. repeat split; trivial.
  - unfold overlay_visible. rewrite Ov. now destruct (overlay (ctl s)).
  - unfold overlay_opacity. rewrite Ov. now destruct (overlay (ctl s)).
  - intros m b A B Wr. destruct s as [c w], s' as [c' w'].
    cbn [ctl world] in *. rewrite B in W. subst w'.
    rewrite (brightness_world_luminance b c c' w m Hm A). now rewrite Wr.
Qed.

(** C7, counterexample: a dimmed controller last active at time 0 is
    restored at time 100; [last_active] is still 0 afterwards. *)
Lemma restore_dim_keeps_last_active :
  ~ restore_resets_idle_timer (sample_state true false 70 (Some 100)).
Proof.
  intros H.
  specialize (H (snd (restore_dim (sample_state true false 70 (Some 100))))).
  assert (E : restore_dim (sample_state true false 70 (Some 100))
              = (Ok tt,
                 snd (restore_dim (sample_state true false 70 (Some 100)))))
    by (vm_compute; reflexivity).
  specialize (H E). vm_compute in H. discriminate.
Qed.

(** C1, counterexample: the cached original brightness is 100 and the
    hardware shows 50 when [dim] is called; after [dim] then
    [restore_dim] the hardware shows 100. *)
Lemma dim_restore_not_roundtrip :
  ~ dim_restore_roundtrip (sample_state false false 50 (Some 100)).
Proof.
  intros H.
  specialize
    (H (snd ((dim ;; restore_dim) (sample_state false false 50 (Some 100))))).
  assert (E : (dim ;; restore_dim) (sample_state false false 50 (Some 100))
              = (Ok tt,
                 snd ((dim ;; restore_dim)
                        (sample_state false false 50 (Some 100)))))
    by (vm_compute; reflexivity).
  destruct (H E) as [L _]. vm_compute in L. discriminate.
Qed.

(** What [dim] leaves untouched. *)
Lemma dimmed_frame (s : State) :
  monitorcontrol_monitor (ctl (dimmed s)) = monitorcontrol_monitor (ctl s)
  /\ original_brightness (ctl (dimmed s)) = original_brightness (ctl s)
  /\ last_active (ctl (dimmed s)) = last_active (ctl s)
  /\ ddc_monitors (world (dimmed s)) = ddc_monitors (world s)
  /\ option_map (fun _ => tt) (overlay (ctl (dimmed s)))
     = option_map (fun _ => tt) (overlay (ctl s)).
Proof.
  destruct s as [c w]. destruct c, w.
  unfold dimmed, software_dimmed, planned. monad.
  destruct is_dimmed0; [repeat split|].
  destruct overlay0 as [o|]; [destruct (enable_software_dimming cfg0)|];
    try destruct (overlay_profile _ _ _) as [[[st tt'] so] dl];
    destruct original_brightness0 as [b|];
    try destruct (enable_hardware_dimming cfg0);
    monad; try destruct restore_in_progress0;
    try destruct (hardware_profile _ _) as [[hs hd] hi];
    repeat split.
Qed.

(** C1, as the code has it: [dim] followed at once by [restore_dim]
    returns normally and leaves the overlay opacity 0.0; the hardware
    shows the cached original brightness when that is known and the
    write succeeds, and its previous luminance otherwise.  Hence the
    values before the dim are back whenever the luminance before the
    dim was the cached original brightness and the overlay opacity
    before the dim was 0.0. *)
Theorem dim_then_restore (s : State) :
  exists s',
    (dim ;; restore_dim) s = (Ok tt, s')
    /\ overlay_opacity s' = option_map (fun _ => 0%Q) (overlay (ctl s))
    /\ (forall m, attached s = Some m ->
          hardware_luminance s'
          = Some (match original_brightness (ctl s) with
                  | Some b => if writable m then b else luminance m
                  | None => luminance m
                  end))
    /\ (attached s = None -> hardware_luminance s' = None)
    /\ (original_brightness (ctl s) = hardware_luminance s ->
        hardware_luminance s' = hardware_luminance s)
    /\ (overlay_opacity s = Some 0%Q ->
        overlay_opacity s' = overlay_opacity s).
Proof.
  unfold bind at 1. rewrite dim_spec.
  destruct (dimmed_frame s) as (Fm & Fo & _ & Fd & Fv).
  destruct (restore_dim_effect (dimmed s))
    as (s' & E & _ & _ & _ & Hm & Ho & Ov & W).
  exists s'. split; [exact E|].
  assert (A : forall m, attached s = Some m ->
          hardware_luminance s'
          = Some (match original_brightness (ctl s) with
                  | Some b => if writable m then b else luminance m
                  | None => luminance m
                  end)).
  { intros m A.
    assert (A' : attached (mkState (ctl (dimmed s)) (world (dimmed s)))
                 = Some m).
    { unfold attached in *. cbn [ctl world]. now rewrite Fm, Fd. }
    destruct s' as [c' w']. cbn [ctl world] in *. rewrite Fo in W.
    destruct (original_brightness (ctl s)) as [b|]; subst w'.
    - apply brightness_world_luminance; assumption.
    - unfold hardware_luminance, attached in *. cbn [ctl world] in *.
      rewrite Hm. rewrite A'. reflexivity. }
  assert (N : attached s = None -> hardware_luminance s' = None).
  { intros A0.
    destruct s' as [c' w']. cbn [ctl world] in *. rewrite Fo in W.
    unfold hardware_luminance, attached in *. cbn [ctl world] in *.
    rewrite Hm, Fm.
    destruct (monitorcontrol_monitor (ctl s)) as [h|] eqn:Eh; [|reflexivity].
    assert (Hw : ddc_monitors w' = ddc_monitors (world s)).
    { subst w'. destruct (original_brightness (ctl s)); [|exact Fd].
      unfold brightness_world. rewrite Fm, Fd, A0. exact Fd. }
    now rewrite Hw, A0. }
  assert (O : overlay_opacity s'
              = option_map (fun _ => 0%Q) (overlay (ctl s))).
  { unfold overlay_opacity. rewrite Ov.
    destruct (overlay (ctl (dimmed s))), (overlay (ctl s));
      try discriminate; reflexivity. }
  repeat split; trivial.
  - intros R. unfold hardware_luminance at 2. unfold hardware_luminance in R.
    destruct (attached s) as [m|] eqn:Am.
    + rewrite (A m eq_refl). rewrite R. cbn. now destruct (writable m).
    + now apply N.
  - intros Z0. rewrite O. unfold overlay_opacity in *.
    destruct (overlay (ctl s)); [|discriminate]. cbn in *. now symmetry.
Qed.

(* ------------------------------------------------------------------ *)
(** ** The activity tick *)

Lemma brightness_world_global_cfg (b : Z) (c : Controller) (w : World) :
  global_cfg (brightness_world b c w) = global_cfg w.
Proof.
  unfold brightness_world.
  destruct (monitorcontrol_monitor c) as [h|]; [|reflexivity].
  destruct (nth_error (ddc_monitors w) h) as [m|]; [|reflexivity].
  destruct (writable m); [|reflexivity].
  destruct w; reflexivity.
Qed.

Lemma restore_dim_observed (s : State) :
  exists s',
    restore_dim s = (Ok tt, s')
    /\ is_dimmed (ctl s') = false
    /\ timer_active (ctl s') = false
    /\ overlay_visible s' = option_map (fun _ => false) (overlay (ctl s))
    /\ overlay_opacity s' = option_map (fun _ => 0%Q) (overlay (ctl s))
    /\ (forall m b, attached s = Some m ->
                    original_brightness (ctl s) = Some b ->
                    writable m = true ->
                    hardware_luminance s' = Some b)
    /\ global_cfg (world s') = global_cfg (world s).
Proof.
  destruct (restore_dim_effect s) as (s' & E & D & T & L & Hm & Ho & Ov & W).
  exists s'. repeat split; trivial.
  - unfold overlay_visible. rewrite Ov. now destruct (overlay (ctl s)).
  - unfold overlay_opacity. rewrite Ov. now destruct (overlay (ctl s)).
  - intros m b A B Wr. destruct s as [c w], s' as [c' w'].
    cbn [ctl world] in *. rewrite B in W. subst w'.
    rewrite (brightness_world_luminance b c c' w m Hm A). now rewrite Wr.
  - rewrite W. destruct (original_brightness (ctl s)); trivial.
    apply brightness_world_global_cfg.
Qed.

(** C2: in awake mode a tick of [check_inactivity] returns normally
    from every state (so from every state reached by earlier ticks) and
    leaves the controller Active.  On a Dimmed controller the tick is
    [restore_dim]: the hardware fade timer is stopped, the overlay is
    hidden with opacity 0.0, and the hardware shows the original
    brightness when the DDC monitor is attached, the original known and
    the write succeeds.  On an Active controller the tick changes
    nothing, so no tick enters the Dimmed state, whatever the idle
    time.  The tick leaves the global configuration as it was, and the
    tick after it changes nothing. *)
Theorem awake_mode_tick_active (s : State) :
  awake_mode (global_cfg (world s)) = true ->
  exists s',
    check_inactivity s = (Ok tt, s')
    /\ is_dimmed (ctl s') = false
    /\ global_cfg (world s') = global_cfg (world s)
    /\ (is_dimmed (ctl s) = false -> s' = s)
    /\ (is_dimmed (ctl s) = true ->
        restore_dim s = (Ok tt, s')
        /\ timer_active (ctl s') = false
        /\ overlay_visible s' = option_map (fun _ => false) (overlay (ctl s))
        /\ overlay_opacity s' = option_map (fun _ => 0%Q) (overlay (ctl s))
        /\ (forall m b, attached s = Some m ->
                        original_brightness (ctl s) = Some b ->
                        writable m = true ->
                        hardware_luminance s' = Some b))
    /\ check_inactivity s' = (Ok tt, s').
Proof.
  intros A.
  assert (Tick : forall t : State,
             awake_mode (global_cfg (world t)) = true ->
             check_inactivity t
             = (if is_dimmed (ctl t) then restore_dim t else (Ok tt, t))).
  { intros t At. unfold check_inactivity.
    unfold bind at 1. unfold env at 1. rewrite At.
    unfold bind at 1. unfold self at 1.
    now destruct (is_dimmed (ctl t)). }
  rewrite (Tick s A).
  destruct (is_dimmed (ctl s)) eqn:D.
  - destruct (restore_dim_observed s) as (s' & E & D' & T & V & O & H & G).
    exists s'. split; [exact E|]. split; [exact D'|]. split; [exact G|].
    split; [discriminate|]. split.
    + intros _. repeat split; assumption.
    + rewrite (Tick s') by (now rewrite G). now rewrite D'.
  - exists s. split; [reflexivity|]. split; [exact D|].
    split; [reflexivity|]. split; [reflexivity|]. split; [discriminate|].
    rewrite (Tick s A). now rewrite D.
Qed.

Lemma awake_mode_tick_active_witness :
  exists s',
    check_inactivity (sample_state true true 70 (Some 100)) = (Ok tt, s')
    /\ is_dimmed (ctl s') = false
    /\ global_cfg (world s')
       = global_cfg (world (sample_state true true 70 (Some 100)))
    /\ (is_dimmed (ctl (sample_state true true 70 (Some 100))) = false ->
        s' = sample_state true true 70 (Some 100))
    /\ (is_dimmed (ctl (sample_state true true 70 (Some 100))) = true ->
        restore_dim (sample_state true true 70 (Some 100)) = (Ok tt, s')
        /\ timer_active (ctl s') = false
        /\ overlay_visible s'
           = option_map (fun _ => false)
               (overlay (ctl (sample_state true true 70 (Some 100))))
        /\ overlay_opacity s'
           = option_map (fun _ => 0%Q)
               (overlay (ctl (sample_state true true 70 (Some 100))))
        /\ (forall m b,
               attached (sample_state true true 70 (Some 100)) = Some m ->
               original_brightness (ctl (sample_state true true 70 (Some 100)))
               = Some b ->
               writable m = true ->
               hardware_luminance s' = Some b))
    /\ check_inactivity s' = (Ok tt, s').
Proof.
  apply awake_mode_tick_active. reflexivity.
Defined.

(* ------------------------------------------------------------------ *)
(** ** The plan of a hardware fade *)

Lemma planned_fields (down : bool) (s : State) :
  fade_start (planned down s)
  = fade_start_value (fresh_read s) (original_brightness (ctl s))
  /\ fade_target (planned down s)
     = (if down
        then dim_target (hardware_dimming_level (cfg (ctl s)))
               (fade_start (planned down s))
        else match original_brightness (ctl s) with
             | Some b => b
             | None => fade_start (planned down s)
             end)
  /\ fade_steps (planned down s)
     = fst (fst (hardware_profile (global_cfg (world s)) down))
  /\ fade_timer (planned down s)
     = Some (mkTimer (snd (hardware_profile (global_cfg (world s)) down)) true)
  /\ current_fade_step (planned down s) = 0
  /\ (fade_step_size (planned down s)
      = Py.float (fade_target (planned down s) - fade_start (planned down s))
        / Py.float (fade_steps (planned down s)))%Q.
Proof.
  unfold planned.
  destruct (hardware_profile (global_cfg (world s)) down) as [[st du] iv].
  destruct s as [c w]. destruct c. monad. repeat split.
Qed.

(* ------------------------------------------------------------------ *)
(** ** Rounding *)

Lemma round_floor_or_succ (x : Q) :
  Py.round x = Qfloor x
  \/ (Py.round x = Qfloor x + 1 /\ (inject_Z (Qfloor x) < x)%Q).
Proof.
  unfold Py.round.
  destruct (Py.Qltb (x - inject_Z (Qfloor x)) (1 # 2)) eqn:A; [now left|].
  apply Qltb_ge in A.
  assert (L : (inject_Z (Qfloor x) < x)%Q) by lra.
  destruct (Py.Qltb (1 # 2) (x - inject_Z (Qfloor x))); [now right|].
  destruct (Z.even (Qfloor x)); [now left|now right].
Qed.

(** [round] stays between integer bounds of its argument. *)
Lemma round_bounds (x : Q) (lo hi : Z) :
  (inject_Z lo <= x)%Q -> (x <= inject_Z hi)%Q -> lo <= Py.round x <= hi.
Proof.
  intros L H.
  assert (F1 : lo <= Qfloor x).
  { rewrite <- (Qfloor_Z lo). now apply Qfloor_resp_le. }
  assert (F2 : Qfloor x <= hi).
  { rewrite <- (Qfloor_Z hi). now apply Qfloor_resp_le. }
  destruct (round_floor_or_succ x) as [->|[-> S]]; [lia|].
  split; [lia|].
  assert (S2 : (inject_Z (Qfloor x) < inject_Z hi)%Q)
    by (eapply Qlt_le_trans; eassumption).
  rewrite <- Zlt_Qlt in S2. lia.
Qed.

(** [round] is monotone. *)
Lemma round_monotone (x y : Q) : (x <= y)%Q -> Py.round x <= Py.round y.
Proof.
  intros L.
  pose proof (Qfloor_resp_le _ _ L) as F.
  destruct (Z.eq_dec (Qfloor x) (Qfloor y)) as [E|N].
  - unfold Py.round. rewrite <- E.
    set (f := Qfloor x) in *.
    destruct (Py.Qltb (x - inject_Z f) (1 # 2)) eqn:A1;
      destruct (Py.Qltb (y - inject_Z f) (1 # 2)) eqn:A2;
      destruct (Py.Qltb (1 # 2) (x - inject_Z f)) eqn:B1;
      destruct (Py.Qltb (1 # 2) (y - inject_Z f)) eqn:B2;
      destruct (Z.even f); try lia;
      rewrite ?Qltb_lt, ?Qltb_ge in *; lra.
  - destruct (round_floor_or_succ x) as [->|[-> _]];
      destruct (round_floor_or_succ y) as [->|[-> _]]; lia.
Qed.

Lemma round_inject (n : Z) : Py.round (inject_Z n) = n.
Proof.
  unfold Py.round. rewrite Qfloor_Z.
  replace (Py.Qltb (inject_Z n - inject_Z n) (1 # 2)) with true; [reflexivity|].
  symmetry. apply Qltb_lt. lra.
Qed.

Lemma round_ge (x : Q) (lo : Z) : (inject_Z lo <= x)%Q -> lo <= Py.round x.
Proof.
  intros H. rewrite <- (round_inject lo). now apply round_monotone.
Qed.

Lemma round_le (x : Q) (hi : Z) : (x <= inject_Z hi)%Q -> Py.round x <= hi.
Proof.
  intros H. rewrite <- (round_inject hi). now apply round_monotone.
Qed.

(** *** Powers of two *)

Lemma pow2_pos (e : Z) : (0 < 2 ^ e)%Q.
Proof. apply Qpower_0_lt. reflexivity. Qed.

Lemma pow2_plus (a b : Z) : (2 ^ (a + b) == 2 ^ a * 2 ^ b)%Q.
Proof. apply Qpower_plus. discriminate. Qed.

Lemma pow2_le (a b : Z) : a <= b -> (2 ^ a <= 2 ^ b)%Q.
Proof. intros H. apply Qpower_le_compat_l; [exact H|discriminate]. Qed.

Lemma pow2_lt_inv (a b : Z) : (2 ^ a < 2 ^ b)%Q -> a < b.
Proof. intros H. apply (Qpower_lt_compat_l_inv 2); [exact H|reflexivity]. Qed.

Lemma pow2_inject (b : Z) : 0 <= b -> (inject_Z (2 ^ b) == 2 ^ b)%Q.
Proof. intros H. now apply Zpower_Qpower. Qed.

(** [flog2 x] is the binade of [x]. *)
Lemma flog2_spec (x : Q) :
  (0 < x)%Q -> (2 ^ F64.flog2 x <= x)%Q /\ (x < 2 ^ (F64.flog2 x + 1))%Q.
Proof.
  intros P. destruct x as [n d].
  assert (N : 0 < n) by (unfold Qlt in P; cbn in P; lia).
  unfold F64.flog2. cbn [Qnum Qden].
  set (a := Z.log2 n). set (b := Z.log2 (Z.pos d)).
  destruct (Z.log2_spec n N) as [A1 A2]. fold a in A1, A2.
  destruct (Z.log2_spec (Z.pos d) ltac:(lia)) as [B1 B2]. fold b in B1, B2.
  assert (A0 : 0 <= a) by apply Z.log2_nonneg.
  assert (B0 : 0 <= b) by apply Z.log2_nonneg.
  assert (D : (0 < inject_Z (Z.pos d))%Q) by reflexivity.
  assert (QA1 : (2 ^ a <= inject_Z n)%Q).
  { rewrite <- pow2_inject by lia. now rewrite <- Zle_Qle. }
  assert (QA2 : (inject_Z n < 2 ^ (a + 1))%Q).
  { rewrite <- pow2_inject by lia. now rewrite <- Zlt_Qlt. }
  assert (QB1 : (2 ^ b <= inject_Z (Z.pos d))%Q).
  { rewrite <- pow2_inject by lia. now rewrite <- Zle_Qle. }
  assert (QB2 : (inject_Z (Z.pos d) < 2 ^ (b + 1))%Q).
  { rewrite <- pow2_inject by lia. now rewrite <- Zlt_Qlt. }
  assert (X : (n # d == inject_Z n / inject_Z (Z.pos d))%Q) by apply Qmake_Qdiv.
  destruct (Qle_bool (2 ^ (a - b)) (n # d)) eqn:E.
  - apply Qle_bool_iff in E. split; [exact E|].
    rewrite X. apply Qlt_shift_div_r; [exact D|].
    eapply Qlt_le_trans; [exact QA2|].
    replace (a + 1) with ((a - b + 1) + b) by lia. rewrite pow2_plus.
    apply Qmult_le_l; [apply pow2_pos|exact QB1].
  - assert (E' : (n # d < 2 ^ (a - b))%Q).
    { apply Qnot_le_lt. intros L. apply Qle_bool_iff in L. congruence. }
    split.
    + rewrite X. apply Qle_shift_div_l; [exact D|].
      eapply Qle_trans; [|exact QA1].
      replace a with ((a - b - 1) + (b + 1)) at 2 by lia. rewrite pow2_plus.
      apply Qmult_le_l; [apply pow2_pos|]. now apply Qlt_le_weak.
    + now replace (a - b - 1 + 1) with (a - b) by lia.
Qed.

Lemma flog2_monotone (x y : Q) :
  (0 < x)%Q -> (x <= y)%Q -> F64.flog2 x <= F64.flog2 y.
Proof.
  intros P L.
  destruct (flog2_spec x P) as [X1 _].
  destruct (flog2_spec y) as [_ Y2]; [eapply Qlt_le_trans; eassumption|].
  assert (H : (2 ^ F64.flog2 x < 2 ^ (F64.flog2 y + 1))%Q).
  { eapply Qle_lt_trans; [exact X1|]. eapply Qle_lt_trans; eassumption. }
  apply pow2_lt_inv in H. lia.
Qed.

Lemma Qabs_pos_eq (x : Q) : (0 < x)%Q -> Qabs x = x.
Proof.
  destruct x as [[|p|p] d]; unfold Qlt; cbn; intros H; try lia; reflexivity.
Qed.

(** *** The nearest double *)

Lemma rnd_zero (x : Q) : (x == 0)%Q -> (F64.rnd x == 0)%Q.
Proof.
  intros Z0. unfold F64.rnd.
  set (e := F64.ulp_exp x).
  assert (X : (x / 2 ^ e == 0)%Q).
  { rewrite Z0. unfold Qdiv. apply Qmult_0_l. }
  assert (R : Py.round (x / 2 ^ e) = 0).
  { pose proof (round_ge (x / 2 ^ e) 0) as B1.
    pose proof (round_le (x / 2 ^ e) 0) as B2.
    change (inject_Z 0) with 0%Q in B1, B2.
    assert (0 <= x / 2 ^ e)%Q by (rewrite X; apply Qle_refl).
    assert (x / 2 ^ e <= 0)%Q by (rewrite X; apply Qle_refl).
    specialize (B1 ltac:(assumption)). specialize (B2 ltac:(assumption)). lia. }
  rewrite R. apply Qmult_0_l.
Qed.

Lemma rnd_nonneg (x : Q) : (0 <= x)%Q -> (0 <= F64.rnd x)%Q.
Proof.
  intros P. unfold F64.rnd. set (e := F64.ulp_exp x).
  pose proof (pow2_pos e) as E.
  assert (R : 0 <= Py.round (x / 2 ^ e)).
  { apply round_ge. apply Qle_shift_div_l; [exact E|].
    change (inject_Z 0) with 0%Q. now rewrite Qmult_0_l. }
  apply Qmult_le_0_compat; [|now apply Qlt_le_weak].
  change 0%Q with (inject_Z 0). now rewrite <- Zle_Qle.
Qed.

(** Rounding to the nearest double keeps the order.  Within one binade
    this is the monotony of [round]; across binades the smaller value
    rounds to at most the power of two that the larger one rounds to at
    least. *)
Lemma rnd_monotone (x y : Q) :
  (0 <= x)%Q -> (x <= y)%Q -> (F64.rnd x <= F64.rnd y)%Q.
Proof.
  intros P L.
  destruct (Qle_lt_or_eq _ _ P) as [Px|Zx].
  2:{ rewrite (rnd_zero x) by (now symmetry).
      apply rnd_nonneg. eapply Qle_trans; eassumption. }
  assert (Py : (0 < y)%Q) by (eapply Qlt_le_trans; eassumption).
  unfold F64.rnd, F64.ulp_exp.
  rewrite (Qabs_pos_eq x Px), (Qabs_pos_eq y Py).
  pose proof (flog2_monotone x y Px L) as M.
  destruct (flog2_spec x Px) as [_ X2].
  destruct (flog2_spec y Py) as [Y1 _].
  set (ex := Z.max (-1074) (F64.flog2 x - 52)).
  set (ey := Z.max (-1074) (F64.flog2 y - 52)).
  pose proof (pow2_pos ex) as Ex. pose proof (pow2_pos ey) as Ey.
  destruct (Z.eq_dec ex ey) as [E|N].
  - rewrite <- E. apply Qmult_le_compat_r; [|now apply Qlt_le_weak].
    rewrite <- Zle_Qle. apply round_monotone.
    apply Qmult_le_compat_r; [exact L|].
    apply Qlt_le_weak, Qinv_lt_0_compat, Ex.
  - assert (Lt : ex < ey) by (unfold ex, ey in *; lia).
    assert (Ey' : ey = F64.flog2 y - 52) by (unfold ex, ey in *; lia).
    assert (Hx : Py.round (x / 2 ^ ex) <= 2 ^ 53).
    { apply round_le.
      apply Qle_shift_div_r; [exact Ex|]. rewrite (pow2_inject 53) by lia.
      rewrite <- pow2_plus. apply Qlt_le_weak.
      eapply Qlt_le_trans; [exact X2|]. apply pow2_le. unfold ex. lia. }
    assert (Hy : 2 ^ 52 <= Py.round (y / 2 ^ ey)).
    { apply round_ge.
      apply Qle_shift_div_l; [exact Ey|]. rewrite (pow2_inject 52) by lia.
      rewrite <- pow2_plus. eapply Qle_trans; [|exact Y1].
      apply pow2_le. lia. }
    apply Qle_trans with (2 ^ (53 + ex))%Q.
    + rewrite pow2_plus. apply Qmult_le_compat_r; [|now apply Qlt_le_weak].
      rewrite <- (pow2_inject 53) by lia. now rewrite <- Zle_Qle.
    + apply Qle_trans with (2 ^ (52 + ey))%Q; [apply pow2_le; lia|].
      rewrite pow2_plus. apply Qmult_le_compat_r; [|now apply Qlt_le_weak].
      rewrite <- (pow2_inject 52) by lia. now rewrite <- Zle_Qle.
Qed.

Lemma of_int_nonneg (n : Z) : 0 <= n -> (0 <= F64.of_int n)%Q.
Proof.
  intros H. apply rnd_nonneg. change 0%Q with (inject_Z 0).
  now rewrite <- Zle_Qle.
Qed.

Lemma of_int_monotone (n n' : Z) :
  0 <= n <= n' -> (F64.of_int n <= F64.of_int n')%Q.
Proof.
  intros H. apply rnd_monotone.
  - change 0%Q with (inject_Z 0). rewrite <- Zle_Qle. lia.
  - rewrite <- Zle_Qle. lia.
Qed.

Lemma div_100_monotone (n n' : Z) :
  0 <= n <= n' ->
  (0 <= F64.div (F64.of_int n) 100 <= F64.div (F64.of_int n') 100)%Q.
Proof.
  intros H.
  pose proof (of_int_nonneg n ltac:(lia)) as N.
  pose proof (of_int_monotone n n' H) as M.
  assert (D : forall q : Q, (q / 100 == q * (1 # 100))%Q) by reflexivity.
  assert (P : (0 <= F64.of_int n / 100)%Q) by (rewrite D; lra).
  split; [now apply rnd_nonneg|].
  apply rnd_monotone; [exact P|]. rewrite !D. lra.
Qed.

Lemma div_100_100 : (F64.div (F64.of_int 100) 100 == 1)%Q.
Proof. vm_compute. reflexivity. Qed.

(** [1 - level / 100.0] lies in [0, 1] and decreases with the level. *)
Lemma dim_scale_antitone (l l' : Z) :
  0 <= l <= l' -> l' <= 100 ->
  (0 <= dim_scale l' <= dim_scale l)%Q.
Proof.
  intros H H'. unfold dim_scale, F64.sub.
  destruct (div_100_monotone l l' H) as [Q0 Q1].
  destruct (div_100_monotone l' 100 ltac:(lia)) as [_ Q2].
  rewrite div_100_100 in Q2.
  split; [apply rnd_nonneg; lra|].
  apply rnd_monotone; lra.
Qed.

Lemma scaled_monotone (x x' f f' : Q) :
  (0 <= x)%Q -> (x <= x')%Q -> (0 <= f)%Q -> (f <= f')%Q ->
  scaled x f <= scaled x' f'.
Proof.
  intros X X' F F'. unfold scaled, F64.mul.
  assert (M : (F64.rnd (x * f) <= F64.rnd (x' * f'))%Q).
  { apply rnd_monotone; [now apply Qmult_le_0_compat|].
    apply Qle_trans with (x * f')%Q.
    - destruct (Qle_lt_or_eq _ _ X) as [P|Z0].
      + now apply Qmult_le_l.
      + rewrite <- Z0, !Qmult_0_l. apply Qle_refl.
    - apply Qmult_le_compat_r; [exact X'|]. eapply Qle_trans; eassumption. }
  pose proof (round_monotone _ _ M). lia.
Qed.

(* ------------------------------------------------------------------ *)
(** ** The dim target for levels and starts in 0..100 *)

Lemma dim_target_range (level start : Z) : 0 <= dim_target level start <= 100.
Proof. unfold dim_target, scaled. cbv zeta. lia. Qed.

Lemma dim_target_in_range (level start : Z) :
  0 <= level <= 100 ->
  dim_target level start = scaled (F64.of_int start) (dim_scale level).
Proof.
  intros H. unfold dim_target. cbv zeta.
  now replace (Z.max 0 (Z.min 100 level)) with level by lia.
Qed.

Lemma dim_target_ieee_in_range (level start : Z) :
  0 <= level <= 100 ->
  dim_target_ieee level start
  = ieee_scaled (ieee_of_int start) (ieee_scale level).
Proof.
  intros H. unfold dim_target_ieee. cbv zeta.
  now replace (Z.max 0 (Z.min 100 level)) with level by lia.
Qed.

Lemma forallb_pairs {A B : Type} (f : A -> B -> bool) (la : list A)
    (lb : list B) :
  forallb (fun a => forallb (f a) lb) la = true ->
  forall a b, In a la -> In b lb -> f a b = true.
Proof.
  intros H a b Ha Hb. rewrite forallb_forall in H.
  specialize (H a Ha). cbv beta in H. rewrite forallb_forall in H.
  now apply H.
Qed.

Lemma In_percents (n : Z) : 0 <= n <= 100 -> In n percents.
Proof.
  intros H. unfold percents. rewrite <- (Z2Nat.id n) by lia.
  apply in_map, in_seq. lia.
Qed.

Lemma row_check_rows (level start : Z) (x f : Q) (y g : spec_float) :
  row_check (start, (x, y)) (level, (f, g))
  = target_check level start (scaled x f) (ieee_scaled y g).
Proof. reflexivity. Qed.

(** All 101 x 101 targets, evaluated. *)
Lemma target_table :
  forallb (fun a => forallb (row_check a) level_rows) start_rows = true.
Proof. vm_compute. reflexivity. Qed.

(** What the table says of one level and one start. *)
Lemma target_checked (level start : Z) :
  0 <= level <= 100 -> 0 <= start <= 100 ->
  let t := dim_target level start in
  t = dim_target_ieee level start
  /\ Z.abs (100 * t - start * (100 - level)) <= 50
  /\ ((start * (100 - level)) mod 100 <> 50 ->
      t = spec_dim_target level start)
  /\ Z.abs (t - spec_dim_target level start) <= 1
  /\ t <= start
  /\ (100 <= level -> t = 0)
  /\ (level <= 0 -> t = start)
  /\ (level = 25 \/ level = 50 \/ level = 75 ->
      (start * (100 - level)) mod 100 = 50 -> Z.even t = true).
Proof.
  intros L S.
  rewrite (dim_target_in_range level start L).
  rewrite (dim_target_ieee_in_range level start L).
  pose proof (forallb_pairs row_check start_rows level_rows target_table
                (start_row start) (level_row level)
                (in_map start_row percents start (In_percents start S))
                (in_map level_row percents level (In_percents level L)))
    as C.
  unfold start_row, level_row in C. rewrite row_check_rows in C.
  revert C.
  generalize (scaled (F64.of_int start) (dim_scale level)).
  generalize (ieee_scaled (ieee_of_int start) (ieee_scale level)).
  intros ti t C. cbv zeta.
  unfold target_check in C. cbv zeta in C.
  rewrite !andb_true_iff in C.
  destruct C as (((((((C1 & C2) & C3) & C4) & C5) & C6) & C7) & C8).
  rewrite !orb_true_iff, !negb_true_iff in C8.
  rewrite !orb_true_iff, !Z.eqb_eq, ?Z.leb_le, ?Z.ltb_lt in *.
  split; [exact C1|]. split; [exact C2|]. split; [lia|].
  split; [exact C4|]. split; [exact C5|]. split; [lia|]. split; [lia|].
  intros Lv Tie. destruct C8 as [[C8|C8]|C8]; [| |exact C8].
  - apply orb_false_iff in C8. destruct C8 as [C8 C9].
    apply orb_false_iff in C8. destruct C8 as [C8 C10].
    apply Z.eqb_neq in C8, C9, C10. lia.
  - apply Z.eqb_neq in C8. contradiction.
Qed.

(** On levels and starts in 0..100 the rounding of [F64] gives the
    target that IEEE 754 binary64 arithmetic gives. *)
Lemma dim_target_ieee754 (level start : Z) :
  0 <= level <= 100 -> 0 <= start <= 100 ->
  dim_target level start = dim_target_ieee level start.
Proof.
  intros L S. now destruct (target_checked level start L S) as [E _].
Qed.

Example dim_target_100_30 : dim_target 30 100 = 70.
Proof. vm_compute. reflexivity. Qed.

Example dim_target_tie_to_even : dim_target 50 5 = 2.
Proof. vm_compute. reflexivity. Qed.

(** The double of [1 - 30 / 100.0] lies just below 0.7, so 45 times it
    lies just below 31.5; the double of [1 - 70 / 100.0] lies just
    above 0.3, so 15 times it lies just above 4.5. *)
Example dim_scale_30 : (dim_scale 30 < 7 # 10)%Q /\ (3 # 10 < dim_scale 70)%Q.
Proof. vm_compute. split; reflexivity. Qed.

Example dim_target_45_30 : dim_target 30 45 = 31 /\ spec_dim_target 30 45 = 32.
Proof. vm_compute. split; reflexivity. Qed.

Example dim_target_85_30 : dim_target 30 85 = 59 /\ spec_dim_target 30 85 = 60.
Proof. vm_compute. split; reflexivity. Qed.

Example dim_target_15_70 : dim_target 70 15 = 5 /\ spec_dim_target 70 15 = 4.
Proof. vm_compute. split; reflexivity. Qed.

Lemma scaled_clamp (x f : Q) :
  scaled x f = clamp (Py.round (F64.mul x f)) 0 100.
Proof. reflexivity. Qed.

Lemma dim_scale_eq (level : Z) :
  dim_scale level = F64.sub 1 (F64.div (F64.of_int level) 100).
Proof. reflexivity. Qed.

(** C4, counterexample: at level 30 a fade that starts from luminance
    45 stores the target 31, where the formula of the specification
    gives [round(31.5) = 32]. *)
Lemma dim_target_off_formula :
  ~ target_is_spec_formula (sample_state false false 45 (Some 100)).
Proof.
  intros H.
  specialize
    (H (snd (fade_hardware true (sample_state false false 45 (Some 100))))).
  assert (E : fade_hardware true (sample_state false false 45 (Some 100))
              = (Ok tt,
                 snd (fade_hardware true
                        (sample_state false false 45 (Some 100)))))
    by (vm_compute; reflexivity).
  specialize (H E). clear E. vm_compute in H. discriminate H.
Qed.

(** C4, as the code has it: for [level] in [1,100] and [start] in
    [0,100] the target that [fade_hardware(down=True)] stores is
    [clamp(round(start*(1-level/100)), 0, 100)] with the division, the
    subtraction and the product evaluated in double precision, which is
    also what the IEEE 754 model of the Standard Library computes.  It
    lies in [0,100] and is an integer nearest to the exact product
    [start*(1-level/100)]; it is the value of the formula of the
    specification whenever the exact product is not halfway between two
    integers, and within 1 of it otherwise.  At the levels 25, 50 and
    75, where the factor is a double, a product halfway between two
    integers goes to the even one. *)
Theorem hardware_dim_target (s : State) (level start : Z) :
  restore_in_progress (ctl s) = false ->
  hardware_dimming_level (cfg (ctl s)) = level ->
  fade_start_value (fresh_read s) (original_brightness (ctl s)) = start ->
  1 <= level <= 100 ->
  0 <= start <= 100 ->
  exists s',
    fade_hardware true s = (Ok tt, s')
    /\ fade_start (ctl s') = start
    /\ fade_target (ctl s')
       = clamp (Py.round
                  (F64.mul (F64.of_int start)
                     (F64.sub 1 (F64.div (F64.of_int level) 100)))) 0 100
    /\ fade_target (ctl s') = dim_target_ieee level start
    /\ 0 <= fade_target (ctl s') <= 100
    /\ Z.abs (100 * fade_target (ctl s') - start * (100 - level)) <= 50
    /\ ((start * (100 - level)) mod 100 <> 50 ->
        fade_target (ctl s') = spec_dim_target level start)
    /\ Z.abs (fade_target (ctl s') - spec_dim_target level start) <= 1
    /\ (level = 25 \/ level = 50 \/ level = 75 ->
        (start * (100 - level)) mod 100 = 50 ->
        Z.even (fade_target (ctl s')) = true).
Proof.
  intros G L S Hl Hs.
  rewrite fade_hardware_spec, G. eexists. split; [reflexivity|].
  cbn [ctl].
  destruct (planned_fields true s) as (Fs & Ft & _).
  rewrite Ft, Fs, L, S. split; [reflexivity|].
  destruct (target_checked level start ltac:(lia) Hs)
    as (C1 & C2 & C3 & C4 & _ & _ & _ & C8).
  pose proof (dim_target_range level start) as R.
  split.
  - rewrite dim_target_in_range by lia.
    now rewrite scaled_clamp, dim_scale_eq.
  - repeat split; trivial; lia.
Qed.

Lemma hardware_dim_target_witness :
  exists s',
    fade_hardware true (sample_state false false 45 (Some 100)) = (Ok tt, s')
    /\ fade_start (ctl s') = 45
    /\ fade_target (ctl s')
       = clamp (Py.round
                  (F64.mul (F64.of_int 45)
                     (F64.sub 1 (F64.div (F64.of_int 30) 100)))) 0 100
    /\ fade_target (ctl s') = dim_target_ieee 30 45
    /\ 0 <= fade_target (ctl s') <= 100
    /\ Z.abs (100 * fade_target (ctl s') - 45 * (100 - 30)) <= 50
    /\ ((45 * (100 - 30)) mod 100 <> 50 ->
        fade_target (ctl s') = spec_dim_target 30 45)
    /\ Z.abs (fade_target (ctl s') - spec_dim_target 30 45) <= 1
    /\ (30 = 25 \/ 30 = 50 \/ 30 = 75 ->
        (45 * (100 - 30)) mod 100 = 50 ->
        Z.even (fade_target (ctl s')) = true).
Proof.
  apply (hardware_dim_target (sample_state false false 45 (Some 100)) 30 45);
    try reflexivity; lia.
Defined.



(* ------------------------------------------------------------------ *)
(** ** Truncation *)

Lemma int_inject (t : Z) : Py.int (inject_Z t) = t.
Proof. unfold Py.int. cbn. apply Z.quot_1_r. Qed.

Lemma int_le (x : Q) (t : Z) : (x <= inject_Z t)%Q -> Py.int x <= t.
Proof.
  destruct x as [n d]. unfold Qle, Py.int. cbn. intros H.
  rewrite Z.mul_1_r in H.
  rewrite <- (Z.quot_mul t (Zpos d)) by discriminate.
  apply Z.quot_le_mono; lia.
Qed.

Lemma int_ge (x : Q) (t : Z) : (inject_Z t <= x)%Q -> t <= Py.int x.
Proof.
  destruct x as [n d]. unfold Qle, Py.int. cbn. intros H.
  rewrite Z.mul_1_r in H.
  rewrite <- (Z.quot_mul t (Zpos d)) at 1 by discriminate.
  apply Z.quot_le_mono; lia.
Qed.

Lemma int_nonneg_le (x : Q) : (0 <= x)%Q -> (inject_Z (Py.int x) <= x)%Q.
Proof.
  destruct x as [n d]. unfold Qle, Py.int. cbn. intros H.
  rewrite Z.mul_1_r in *.
  rewrite Z.mul_comm. apply Z.mul_quot_le; lia.
Qed.

(* ------------------------------------------------------------------ *)
(** ** The hardware fade, tick by tick *)

Lemma _do_fade_spec (s : State) :
  _do_fade s
  = (Ok tt,
     mkState (after_tick (ctl s))
             (brightness_world (fade_applied (bump (ctl s))) (ctl s)
                               (world s))).
Proof.
  destruct s as [c w]. destruct c.
  unfold _do_fade, after_tick, fade_applied, bump. monad.
  match goal with |- context [fade_done ?c] => destruct (fade_done c) end;
    monad; rewrite set_brightness_spec; monad; reflexivity.
Qed.

(** A value the tick applies before the last one lies between the
    start and the target. *)
Lemma fade_applied_between (c : Controller) :
  0 < current_fade_step c ->
  Z.min (fade_start c) (fade_target c) <= fade_applied c
  <= Z.max (fade_start c) (fade_target c).
Proof.
  intros K. unfold fade_applied.
  destruct (fade_done c) eqn:D; [lia|].
  unfold fade_done in D.
  apply orb_false_iff in D. destruct D as [D _].
  apply orb_false_iff in D. destruct D as [Dp Dn].
  unfold fade_value, Py.float in *.
  set (nv := (inject_Z (fade_start c)
              + fade_step_size c * inject_Z (current_fade_step c))%Q) in *.
  assert (Kq : (0 < inject_Z (current_fade_step c))%Q).
  { unfold Qlt. cbn. lia. }
  destruct (Qlt_le_dec 0 (fade_step_size c)) as [P|NP].
  - (* travelling up *)
    rewrite (proj2 (Qltb_lt _ _) P) in Dp. cbn in Dp.
    apply Qle_bool_false in Dp.
    assert (S1 : (inject_Z (fade_start c) <= nv)%Q).
    { unfold nv. rewrite <- (Qplus_0_r (inject_Z (fade_start c))) at 1.
      apply Qplus_le_r. apply Qmult_le_0_compat; apply Qlt_le_weak; trivial. }
    pose proof (int_ge _ _ S1).
    pose proof (int_le _ _ (Qlt_le_weak _ _ Dp)). lia.
  - destruct (Qlt_le_dec (fade_step_size c) 0) as [N|NN].
    + (* travelling down *)
      rewrite (proj2 (Qltb_lt _ _) N) in Dn. cbn in Dn.
      apply Qle_bool_false in Dn.
      assert (S1 : (nv <= inject_Z (fade_start c))%Q).
      { unfold nv. rewrite <- (Qplus_0_r (inject_Z (fade_start c))) at 2.
        apply Qplus_le_r.
        setoid_replace 0%Q
          with (0 * inject_Z (current_fade_step c))%Q by ring.
        apply Qmult_le_compat_r; apply Qlt_le_weak; trivial. }
      pose proof (int_le _ _ S1).
      pose proof (int_ge _ _ (Qlt_le_weak _ _ Dn)). lia.
    + (* a zero step: the value stays at the start *)
      assert (Z0 : (fade_step_size c == 0)%Q) by (apply Qle_antisym; trivial).
      assert (S1 : (nv == inject_Z (fade_start c))%Q).
      { unfold nv. rewrite Z0. ring. }
      assert (L1 : (nv <= inject_Z (fade_start c))%Q) by (rewrite S1; apply Qle_refl).
      assert (L2 : (inject_Z (fade_start c) <= nv)%Q) by (rewrite S1; apply Qle_refl).
      pose proof (int_le _ _ L1). pose proof (int_ge _ _ L2). lia.
Qed.

Lemma bump_fields (c : Controller) :
  fade_start (bump c) = fade_start c
  /\ fade_target (bump c) = fade_target c
  /\ fade_steps (bump c) = fade_steps c
  /\ fade_step_size (bump c) = fade_step_size c
  /\ current_fade_step (bump c) = current_fade_step c + 1.
Proof. destruct c. repeat split. Qed.

Lemma after_tick_fields (c : Controller) :
  fade_start (after_tick c) = fade_start c
  /\ fade_target (after_tick c) = fade_target c
  /\ fade_steps (after_tick c) = fade_steps c
  /\ fade_step_size (after_tick c) = fade_step_size c
  /\ current_fade_step (after_tick c) = current_fade_step c + 1.
Proof.
  unfold after_tick. destruct (fade_done (bump c)); destruct c; repeat split.
Qed.

Lemma after_tick_done (c : Controller) :
  fade_done (bump c) = true ->
  timer_active (after_tick c) = false
  /\ restore_in_progress (after_tick c) = false.
Proof.
  unfold after_tick. intros ->. unfold timer_active. destruct c. monad.
  destruct fade_timer0 as [[i a]|]; split; reflexivity.
Qed.

Lemma after_tick_going (c : Controller) :
  fade_done (bump c) = false ->
  timer_active (after_tick c) = timer_active c
  /\ current_fade_step c + 1 < fade_steps c.
Proof.
  unfold after_tick. intros D. rewrite D. split.
  - destruct c; reflexivity.
  - unfold fade_done in D. apply orb_false_iff in D. destruct D as [_ D].
    apply Z.leb_gt in D.
    destruct (bump_fields c) as (_ & _ & Hs & _ & Hk). lia.
Qed.

(** The fade runs to completion: from a controller whose timer is
    active and that has at most [n + 1] ticks left, [n + 1] units of
    fuel suffice; the run makes at most [n + 1] ticks, each value it
    applies lies between start and target, the last one is the
    target, and the timer is stopped at the end. *)
Lemma run_fade_lands (n : nat) :
  forall (fuel : nat) (s : State),
    (S n <= fuel)%nat ->
    timer_active (ctl s) = true ->
    0 <= current_fade_step (ctl s) ->
    fade_steps (ctl s) - current_fade_step (ctl s) <= Z.of_nat (S n) ->
    exists tr sf,
      run_fade fuel s = Some (tr, sf)
      /\ (1 <= length tr <= S n)%nat
      /\ last tr 0 = fade_target (ctl s)
      /\ Forall (fun v => Z.min (fade_start (ctl s)) (fade_target (ctl s)) <= v
                          <= Z.max (fade_start (ctl s)) (fade_target (ctl s)))
                tr
      /\ timer_active (ctl sf) = false
      /\ restore_in_progress (ctl sf) = false.
Proof.
  induction n as [|n IH]; intros fuel s F T K R;
    (destruct fuel as [|fuel]; [lia|]);
    cbn [run_fade]; rewrite T, _do_fade_spec;
    set (s1 := mkState (after_tick (ctl s)) _);
    destruct (bump_fields (ctl s)) as (Bs & Bt & Bn & _ & Bk);
    destruct (after_tick_fields (ctl s)) as (As & At & An & _ & Ak);
    pose proof (fade_applied_between (bump (ctl s))) as Btw;
    rewrite Bs, Bt, Bk in Btw; specialize (Btw ltac:(lia)).
  - (* one tick left: it is the last *)
    assert (D : fade_done (bump (ctl s)) = true).
    { unfold fade_done. rewrite Bn, Bk.
      replace (fade_steps (ctl s) <=? current_fade_step (ctl s) + 1)
        with true by (symmetry; apply Z.leb_le; lia).
      now rewrite orb_true_r. }
    destruct (after_tick_done _ D) as [Tf Rf].
    destruct fuel; cbn [run_fade]; subst s1; cbn [ctl]; rewrite Tf;
      (eexists; eexists; split; [reflexivity|]);
      unfold fade_applied; rewrite D, Bt; cbn [length last ctl];
      (split; [lia|]); (split; [reflexivity|]);
      (split; [constructor; [lia|constructor]|]); split; assumption.
  - destruct (fade_done (bump (ctl s))) eqn:D.
    + (* the guard stops the fade early *)
      destruct (after_tick_done _ D) as [Tf Rf].
      destruct fuel; cbn [run_fade]; subst s1; cbn [ctl]; rewrite Tf;
        (eexists; eexists; split; [reflexivity|]);
        unfold fade_applied; rewrite D, Bt; cbn [length last ctl];
        (split; [lia|]); (split; [reflexivity|]);
        (split; [constructor; [lia|constructor]|]); split; assumption.
    + destruct (after_tick_going _ D) as [Tg Kg].
      destruct (IH fuel s1) as (tr & sf & E & Len & La & Fa & Tf & Rf).
      * lia.
      * subst s1. cbn [ctl]. now rewrite Tg.
      * subst s1. cbn [ctl]. lia.
      * subst s1. cbn [ctl]. rewrite An, Ak. lia.
      * rewrite E. subst s1. cbn [ctl] in *. rewrite As, At in *.
        exists (fade_applied (bump (ctl s)) :: tr), sf.
        split; [reflexivity|].
        repeat split; trivial; cbn [length]; try lia.
        -- destruct tr as [|v tr]; [cbn in Len; lia|]. exact La.
        -- constructor; trivial.
Qed.

(* ------------------------------------------------------------------ *)
(** ** The overlay fade, step by step *)

Lemma overlay_again_false (next_val target : Q) :
  overlay_again next_val target = false
  <-> (Qabs (next_val - target) <= 1 # 100)%Q.
Proof. unfold overlay_again. apply Qltb_ge. Qed.

Lemma overlay_again_eq (next_val target : Q) :
  (next_val == target)%Q -> overlay_again next_val target = false.
Proof.
  intros E. apply overlay_again_false.
  setoid_replace (next_val - target)%Q with 0%Q by (rewrite E; ring).
  discriminate.
Qed.

(** With [k >= 1] steps of size [step_opacity] left to the target, the
    value a step applies is not past the target. *)
Lemma overlay_next_not_past (current target step_opacity k : Q) :
  (1 <= k)%Q ->
  (target - current == k * step_opacity)%Q ->
  ((0 <= step_opacity)%Q ->
   (overlay_next current target step_opacity <= target)%Q)
  /\ ((step_opacity <= 0)%Q ->
      (target <= overlay_next current target step_opacity)%Q).
Proof.
  intros K E. unfold overlay_next.
  destruct (Py.Qltb 0 step_opacity
            && Qle_bool target (current + step_opacity)
            || Py.Qltb step_opacity 0
               && Qle_bool (current + step_opacity) target) eqn:C.
  - split; intros _; apply Qle_refl.
  - apply orb_false_iff in C. destruct C as [Cp Cn].
    split; intros S.
    + destruct (Qlt_le_dec 0 step_opacity) as [P|NP].
      * rewrite (proj2 (Qltb_lt _ _) P) in Cp. cbn in Cp.
        apply Qle_bool_false in Cp. now apply Qlt_le_weak.
      * assert (Z0 : (step_opacity == 0)%Q) by (apply Qle_antisym; trivial).
        rewrite Z0 in E. rewrite Z0. lra.
    + destruct (Qlt_le_dec step_opacity 0) as [N|NN].
      * rewrite (proj2 (Qltb_lt _ _) N) in Cn. cbn in Cn.
        apply Qle_bool_false in Cn. now apply Qlt_le_weak.
      * assert (Z0 : (step_opacity == 0)%Q) by (apply Qle_antisym; trivial).
        rewrite Z0 in E. rewrite Z0. lra.
Qed.

(** With exactly one step left, the step applies the target. *)
Lemma overlay_next_last (current target step_opacity : Q) :
  (target - current == step_opacity)%Q ->
  (overlay_next current target step_opacity == target)%Q.
Proof.
  intros E. unfold overlay_next.
  destruct (_ || _); [reflexivity|]. lra.
Qed.

(** A step that is not clamped adds [step_opacity]. *)
Lemma overlay_next_cases (current target step_opacity : Q) :
  overlay_next current target step_opacity = target
  \/ overlay_next current target step_opacity = (current + step_opacity)%Q.
Proof. unfold overlay_next. destruct (_ || _); auto. Qed.

(** The overlay fade runs to completion: with [n + 1] steps of size
    [step_opacity] between [current] and [target], [n + 1] units of
    fuel suffice; the run makes at most [n + 1] steps, no applied value
    is past the target, and the last one is within 0.01 of it. *)
Lemma run_overlay_converges (n : nat) :
  forall (fuel : nat) (current target step_opacity : Q),
    (S n <= fuel)%nat ->
    (target - current == inject_Z (Z.of_nat (S n)) * step_opacity)%Q ->
    exists tr,
      run_overlay fuel current target step_opacity = Some tr
      /\ (1 <= length tr <= S n)%nat
      /\ Forall (fun v => ((0 <= step_opacity)%Q -> (v <= target)%Q)
                          /\ ((step_opacity <= 0)%Q -> (target <= v)%Q)) tr
      /\ (Qabs (last tr 0%Q - target) <= 1 # 100)%Q.
Proof.
  induction n as [|n IH]; intros fuel current target step F E;
    (destruct fuel as [|fuel]; [lia|]); cbn [run_overlay].
  - assert (E1 : (target - current == step)%Q).
    { rewrite E. cbn. ring. }
    pose proof (overlay_next_last _ _ _ E1) as L.
    rewrite (overlay_again_eq _ _ L).
    eexists. split; [reflexivity|]. cbn [length last].
    split; [lia|]. split.
    + constructor; [|constructor]. split; intros _; rewrite L; apply Qle_refl.
    + apply overlay_again_false. now apply overlay_again_eq.
  - assert (K : (1 <= inject_Z (Z.of_nat (S (S n))))%Q).
    { unfold Qle. cbn. lia. }
    pose proof (overlay_next_not_past _ _ _ _ K E) as NP.
    destruct (overlay_again (overlay_next current target step) target) eqn:A.
    + destruct (overlay_next_cases current target step) as [C|C].
      * rewrite C in A.
        rewrite overlay_again_eq in A by reflexivity. discriminate.
      * destruct (IH fuel (overlay_next current target step) target step)
          as (tr & R & Len & Fa & La).
        -- lia.
        -- rewrite C.
           rewrite (Nat2Z.inj_succ (S n)) in E. unfold Z.succ in E.
           rewrite inject_Z_plus in E.
           setoid_replace (inject_Z 1) with 1%Q in E by reflexivity.
           lra.
        -- rewrite R. eexists. split; [reflexivity|].
           cbn [length]. split; [lia|]. split.
           ++ constructor; trivial.
           ++ destruct tr as [|v tr]; [cbn in Len; lia|]. exact La.
    + eexists. split; [reflexivity|]. cbn [length last].
      split; [lia|]. split.
      * constructor; [exact NP|constructor].
      * now apply overlay_again_false.
Qed.

Lemma Qdiv_sign (d k : Q) :
  (0 < k)%Q ->
  ((0 <= d)%Q -> (0 <= d / k)%Q) /\ ((d <= 0)%Q -> (d / k <= 0)%Q).
Proof.
  intros K. split; intros D.
  - apply Qle_shift_div_l; trivial. lra.
  - apply Qle_shift_div_r; trivial. lra.
Qed.

Lemma inject_Z_pos (z : Z) : 0 < z -> (0 < inject_Z z)%Q.
Proof. intros H. unfold Qlt. cbn. lia. Qed.

(** The chain of closures on the event loop is the recursion of
    [run_overlay]. *)
Lemma overlay_stepped_opacity (current target step_opacity : Q)
    (o : OverlayWindow) :
  opacity (overlay_stepped current target step_opacity o)
  = overlay_next current target step_opacity.
Proof.
  unfold overlay_stepped.
  destruct (overlay_again _ target); [reflexivity|].
  destruct (Py.Qltb _ _); reflexivity.
Qed.

Lemma drain_run_overlay (fuel : nat) :
  forall (s : State) (o : OverlayWindow) (cb : Callback),
    overlay (ctl s) = Some o ->
    singleshots (world s) = [cb] ->
    option_map fst (drain fuel s)
    = run_overlay fuel (cb_current cb) (cb_target cb) (cb_step cb).
Proof.
  induction fuel as [|n IH]; intros s o cb Ho Hq.
  - cbn [drain run_overlay]. now rewrite Hq.
  - cbn [drain run_overlay]. rewrite Hq.
    unfold fire_singleshot. unfold bind at 1. unfold env at 1.
    rewrite Hq. unfold bind at 1. unfold update_world at 1.
    erewrite _fade_overlay_step_spec by exact Ho.
    set (s1 := mkState _ _).
    assert (O1 : overlay_opacity s1
                 = Some (overlay_next (cb_current cb) (cb_target cb)
                                      (cb_step cb))).
    { unfold overlay_opacity, s1. cbn [ctl overlay set_overlay option_map].
      now rewrite overlay_stepped_opacity. }
    rewrite O1.
    destruct (overlay_again
                (overlay_next (cb_current cb) (cb_target cb) (cb_step cb))
                (cb_target cb)) eqn:A.
    + specialize (IH s1 _ (mkCallback
                             (overlay_next (cb_current cb) (cb_target cb)
                                           (cb_step cb))
                             (cb_target cb) (cb_step cb) (cb_delay cb))
                     eq_refl).
      cbn [cb_current cb_target cb_step] in IH. rewrite <- IH.
      * destruct (drain n s1) as [[tr sf]|]; reflexivity.
      * unfold s1, overlay_scheduled. rewrite A.
        destruct (world s). reflexivity.
    + assert (Q1 : singleshots (world s1) = []).
      { unfold s1, overlay_scheduled. rewrite A.
        destruct (world s). reflexivity. }
      destruct n; cbn [drain]; rewrite Q1; reflexivity.
Qed.

Lemma run_fade_overlay_spec (fuel : nat) (target_opacity : Q) (s : State)
    (o : OverlayWindow) :
  overlay (ctl s) = Some o ->
  singleshots (world s) = [] ->
  run_fade_overlay fuel target_opacity s
  = (let '(_, _, step_opacity, _) :=
       overlay_profile (global_cfg (world s)) (opacity o) target_opacity in
     run_overlay (S fuel) (opacity o) target_opacity step_opacity).
Proof.
  intros Ho Hq. unfold run_fade_overlay, fade_overlay.
  unfold bind at 1. unfold windowOpacity. unfold bind at 1. unfold self at 1.
  rewrite Ho. unfold ret at 1. unfold bind at 1. unfold env at 1.
  destruct (overlay_profile (global_cfg (world s)) (opacity o) target_opacity)
    as [[[steps total] step] delay].
  erewrite _fade_overlay_step_spec by exact Ho.
  set (s1 := mkState _ _).
  assert (O1 : overlay_opacity s1
               = Some (overlay_next (opacity o) target_opacity step)).
  { unfold overlay_opacity, s1. cbn [ctl overlay set_overlay option_map].
    now rewrite overlay_stepped_opacity. }
  rewrite O1. cbn [run_overlay].
  destruct (overlay_again (overlay_next (opacity o) target_opacity step)
                          target_opacity) eqn:A.
  - pose proof (drain_run_overlay fuel s1 _
                  (mkCallback (overlay_next (opacity o) target_opacity step)
                              target_opacity step delay) eq_refl) as D.
    cbn [cb_current cb_target cb_step] in D. rewrite <- D.
    + destruct (drain fuel s1) as [[tr sf]|]; reflexivity.
    + unfold s1, overlay_scheduled. rewrite A, Hq.
      destruct (world s). reflexivity.
  - assert (Q1 : singleshots (world s1) = []).
    { unfold s1, overlay_scheduled. rewrite A, Hq.
      destruct (world s). reflexivity. }
    destruct fuel; cbn [drain]; rewrite Q1; reflexivity.
Qed.

(** C3, as the code has it.  Hardware fade ([_do_fade]): for every
    start, target, step size and step count [steps >= 1], the fade run
    to completion applies the target on its last tick, applies no value
    past the target, and stops within [steps] ticks (so within
    [steps + 1]).  Overlay fade ([_fade_overlay_step] with the step
    [fade_overlay] computes): it applies no value past the target and
    stops within [steps] steps, and the last opacity it applies is
    within 0.01 of the target. *)
Theorem fades_run_to_completion :
  (forall (s : State) (steps : Z) (fuel : nat),
      timer_active (ctl s) = true ->
      current_fade_step (ctl s) = 0 ->
      fade_steps (ctl s) = steps ->
      1 <= steps ->
      (Z.to_nat steps <= fuel)%nat ->
      exists tr sf,
        run_fade fuel s = Some (tr, sf)
        /\ tr <> []
        /\ last tr 0 = fade_target (ctl s)
        /\ Forall (fun v => ~ overshoots (fade_start (ctl s))
                                         (fade_target (ctl s)) v) tr
        /\ Z.of_nat (length tr) <= steps
        /\ timer_active (ctl sf) = false)
  /\ (forall (current target : Q) (steps : Z) (fuel : nat),
      1 <= steps ->
      (Z.to_nat steps <= fuel)%nat ->
      exists tr,
        run_overlay fuel current target
                    ((target - current) / inject_Z steps)%Q = Some tr
        /\ tr <> []
        /\ Forall (fun v => ~ Qovershoots current target v) tr
        /\ Z.of_nat (length tr) <= steps
        /\ (Qabs (last tr 0%Q - target) <= 1 # 100)%Q).
Proof.
  split.
  - intros s steps fuel T K0 St S1 F.
    destruct (Z.to_nat steps) as [|n] eqn:N; [lia|].
    destruct (run_fade_lands n fuel s F T) as (tr & sf & E & Len & La & Fa & Tf & _).
    + lia.
    + lia.
    + exists tr, sf. split; [exact E|].
      split; [destruct tr; [cbn in Len; lia|discriminate]|].
      split; [exact La|].
      split; [|split; [lia|exact Tf]].
      eapply Forall_impl; [|exact Fa].
      intros v B. cbv beta in B. unfold overshoots. lia.
  - intros current target steps fuel S1 F.
    destruct (Z.to_nat steps) as [|n] eqn:N; [lia|].
    assert (Kp : (0 < inject_Z steps)%Q) by (apply inject_Z_pos; lia).
    destruct (run_overlay_converges n fuel current target
                ((target - current) / inject_Z steps)%Q F)
      as (tr & E & Len & Fa & La).
    + replace (Z.of_nat (S n)) with steps by lia.
      field. intros Z0. rewrite Z0 in Kp. discriminate.
    + exists tr. split; [exact E|].
      split; [destruct tr; [cbn in Len; lia|discriminate]|].
      split; [|split; [lia|exact La]].
      eapply Forall_impl; [|exact Fa].
      intros v [Up Down] [[O1 O2]|[O1 O2]].
      * apply (Qlt_not_le _ _ O2). apply Up.
        apply (Qdiv_sign _ _ Kp). lra.
      * apply (Qlt_not_le _ _ O2). apply Down.
        apply (Qdiv_sign _ _ Kp). lra.
Qed.

(** C3, counterexample: with the default 10 steps, an overlay fade from
    opacity 0 to the target 0.05 stops at 0.04, which the 0.01
    tolerance of [_fade_overlay_step] accepts. *)
Lemma overlay_fade_stops_short :
  ~ overlay_lands_on_target 0 (1 # 20) 10.
Proof.
  intros H.
  set (r := run_overlay 10 0 (1 # 20) (((1 # 20) - 0) / inject_Z 10)%Q).
  assert (E : r = Some (match r with Some tr => tr | None => [] end))
    by (vm_compute; reflexivity).
  pose proof (H 10%nat (match r with Some tr => tr | None => [] end) E) as H'.
  clear H E. vm_compute in H'. discriminate H'.
Qed.

(* ------------------------------------------------------------------ *)
(** ** The fast profile of restore fades *)

(** [max(0.01, duration * 0.05)]. *)
Lemma fast_duration_pos (t : Q) :
  (1 # 100 <= Qmax (1 # 100) (t * (5 # 100)))%Q.
Proof. apply Q.le_max_l. Qed.

(** A delay of [int((total / steps) * 1000)] ms per step adds up to at
    most [total] seconds over [steps] steps. *)
Lemma steps_times_interval (total : Q) (steps : Z) :
  (0 <= total)%Q -> 1 <= steps ->
  0 <= Py.int ((total / Py.float steps) * 1000)%Q
  /\ (inject_Z (steps * Py.int ((total / Py.float steps) * 1000)%Q)
      <= 1000 * total)%Q.
Proof.
  intros T S. unfold Py.float.
  assert (Kp : (0 < inject_Z steps)%Q) by (apply inject_Z_pos; lia).
  assert (Kn : ~ (inject_Z steps == 0)%Q).
  { intros Z0. rewrite Z0 in Kp. discriminate. }
  set (q := (total / inject_Z steps * 1000)%Q).
  assert (Q0 : (0 <= q)%Q).
  { unfold q. apply Qmult_le_0_compat; [|discriminate].
    apply Qle_shift_div_l; trivial; lra. }
  split.
  - apply int_ge. exact Q0.
  - rewrite inject_Z_mult.
    apply Qle_trans with (inject_Z steps * q)%Q.
    + apply Qmult_le_l; trivial. now apply int_nonneg_le.
    + unfold q. apply Qle_lteq. right. field. exact Kn.
Qed.

Lemma hardware_profile_restore (g : GlobalCfg) :
  let '(steps, duration, interval_ms) := hardware_profile g false in
  1 <= steps <= 3
  /\ duration = Qmax (1 # 100) (overlay_fade_time g * (5 # 100))
  /\ 0 <= interval_ms
  /\ (inject_Z (steps * interval_ms) <= 1000 * duration)%Q.
Proof.
  unfold hardware_profile.
  set (d := Qmax (1 # 100) (overlay_fade_time g * (5 # 100))).
  set (st := if Z.min (overlay_fade_steps g) 3 <=? 0 then 1
             else Z.min (overlay_fade_steps g) 3).
  assert (S : 1 <= st <= 3).
  { unfold st. destruct (Z.leb_spec (Z.min (overlay_fade_steps g) 3) 0); lia. }
  assert (D : (0 <= d)%Q).
  { apply Qle_trans with (1 # 100)%Q; [discriminate|apply fast_duration_pos]. }
  destruct (steps_times_interval d st D (proj1 S)) as [I0 I1].
  repeat split; trivial; lia.
Qed.

Lemma overlay_profile_restore (g : GlobalCfg) (current target : Q) :
  (target < current)%Q ->
  let '(steps, total_time, step_opacity, step_delay_ms) :=
    overlay_profile g current target in
  1 <= steps <= 3
  /\ total_time = Qmax (1 # 100) (overlay_fade_time g * (5 # 100))
  /\ step_opacity = ((target - current) / inject_Z steps)%Q
  /\ 0 <= step_delay_ms
  /\ (inject_Z (steps * step_delay_ms) <= 1000 * total_time)%Q.
Proof.
  intros L. unfold overlay_profile.
  rewrite (proj2 (Qltb_lt _ _) L).
  set (d := Qmax (1 # 100) (overlay_fade_time g * (5 # 100))).
  set (st := Z.min (if overlay_fade_steps g <=? 0 then 1
                    else overlay_fade_steps g) 3).
  assert (S : 1 <= st <= 3).
  { unfold st. destruct (Z.leb_spec (overlay_fade_steps g) 0); lia. }
  assert (D1 : (1 # 100 <= d)%Q) by apply fast_duration_pos.
  assert (D : (0 <= d)%Q) by lra.
  destruct (steps_times_interval d st D (proj1 S)) as [I0 I1].
  assert (M : 1 <= Py.int (d / Py.float st * 1000)%Q).
  { apply int_ge. unfold Py.float.
    assert (Kp : (0 < inject_Z st)%Q) by (apply inject_Z_pos; lia).
    assert (K3 : (inject_Z st <= 3)%Q).
    { unfold Qle. cbn. lia. }
    setoid_replace (d / inject_Z st * 1000)%Q
      with ((d * 1000) / inject_Z st)%Q
      by (field; intros Z0; rewrite Z0 in Kp; discriminate).
    apply Qle_shift_div_l; trivial.
    change (inject_Z 1) with 1%Q. lra. }
  rewrite (Z.max_r _ _ M).
  repeat split; trivial; lia.
Qed.

(** C5: whatever [overlay_fade_steps] and [overlay_fade_time] are, a
    restore-direction fade uses at most 3 steps and, at one timer
    interval per tick, lasts at most [max(0.01, fade_time * 0.05)]
    seconds (stated in milliseconds): the hardware fade with
    [down=False], run to completion, and the overlay fade toward a
    lower opacity, run to completion. *)
Theorem restore_fades_fast (s : State) :
  let g := global_cfg (world s) in
  let budget_ms :=
    (1000 * Qmax (1 # 100) (overlay_fade_time g * (5 # 100)))%Q in
  (restore_in_progress (ctl s) = false ->
   exists s1 interval_ms tr sf,
     fade_hardware false s = (Ok tt, s1)
     /\ fade_steps (ctl s1) <= 3
     /\ fade_timer (ctl s1) = Some (mkTimer interval_ms true)
     /\ run_fade 3 s1 = Some (tr, sf)
     /\ (length tr <= 3)%nat
     /\ (inject_Z (Z.of_nat (length tr) * interval_ms) <= budget_ms)%Q)
  /\ (forall current target : Q,
      (target < current)%Q ->
      let '(steps, total_time, step_opacity, step_delay_ms) :=
        overlay_profile g current target in
      steps <= 3
      /\ (1000 * total_time <= budget_ms)%Q
      /\ exists tr,
           run_overlay 3 current target step_opacity = Some tr
           /\ (length tr <= 3)%nat
           /\ (inject_Z (Z.of_nat (length tr) * step_delay_ms)
               <= budget_ms)%Q).
Proof.
  intros g budget_ms. split.
  - intros G. rewrite fade_hardware_spec, G.
    destruct (planned_fields false s) as (_ & _ & Fn & Ft & Fk & _).
    fold g in Fn, Ft.
    pose proof (hardware_profile_restore g) as P.
    destruct (hardware_profile g false) as [[steps duration] iv].
    cbn [fst snd] in Fn, Ft. destruct P as (Hs & D & I0 & I1).
    set (s1 := mkState (planned false s) (world s)).
    destruct (Z.to_nat steps) as [|n] eqn:N; [lia|].
    destruct (run_fade_lands n 3 s1) as (tr & sf & E & Len & _).
    + lia.
    + subst s1. cbn [ctl]. unfold timer_active. now rewrite Ft.
    + subst s1. cbn [ctl]. lia.
    + subst s1. cbn [ctl]. lia.
    + exists s1, iv, tr, sf. split; [reflexivity|].
      subst s1. cbn [ctl]. rewrite Fn.
      split; [lia|]. split; [exact Ft|]. split; [exact E|].
      split; [lia|].
      unfold budget_ms. rewrite <- D.
      apply Qle_trans with (inject_Z (steps * iv)); [|exact I1].
      rewrite <- Zle_Qle. apply Z.mul_le_mono_nonneg_r; lia.
  - intros current target L.
    pose proof (overlay_profile_restore g current target L) as P.
    destruct (overlay_profile g current target)
      as [[[steps total_time] step_opacity] delay].
    destruct P as (Hs & D & St & I0 & I1).
    split; [lia|]. split; [rewrite D; apply Qle_refl|].
    destruct (Z.to_nat steps) as [|n] eqn:N; [lia|].
    assert (Kp : (0 < inject_Z steps)%Q) by (apply inject_Z_pos; lia).
    destruct (run_overlay_converges n 3 current target step_opacity)
      as (tr & E & Len & _).
    + lia.
    + subst step_opacity. replace (Z.of_nat (S n)) with steps by lia.
      field. intros Z0. rewrite Z0 in Kp. discriminate.
    + exists tr. split; [exact E|]. split; [lia|].
      unfold budget_ms. rewrite <- D.
      apply Qle_trans with (inject_Z (steps * delay)); [|exact I1].
      rewrite <- Zle_Qle. apply Z.mul_le_mono_nonneg_r; lia.
Qed.

Lemma restore_fades_fast_witness :
  exists s1 interval_ms tr sf,
    fade_hardware false (sample_state true false 70 (Some 100)) = (Ok tt, s1)
    /\ fade_steps (ctl s1) <= 3
    /\ fade_timer (ctl s1) = Some (mkTimer interval_ms true)
    /\ run_fade 3 s1 = Some (tr, sf)
    /\ (length tr <= 3)%nat
    /\ (inject_Z (Z.of_nat (length tr) * interval_ms)
        <= 1000 * Qmax (1 # 100) ((1 # 2) * (5 # 100)))%Q.
Proof.
  apply (proj1 (restore_fades_fast (sample_state true false 70 (Some 100)))).
  reflexivity.
Defined.

(* ------------------------------------------------------------------ *)
(** ** The statements at sample states *)

Example sample_fade_trace :
  option_map fst (run_fade 10 sample_fading)
  = Some [97; 94; 91; 88; 85; 82; 79; 76; 73; 70].
Proof. vm_compute. reflexivity. Qed.

Lemma fades_run_to_completion_witness :
  exists tr sf,
    run_fade 10 sample_fading = Some (tr, sf)
    /\ tr <> []
    /\ last tr 0 = fade_target (ctl sample_fading)
    /\ Forall (fun v => ~ overshoots (fade_start (ctl sample_fading))
                                     (fade_target (ctl sample_fading)) v) tr
    /\ Z.of_nat (length tr) <= 10
    /\ timer_active (ctl sample_fading) = true.
Proof.
  destruct (proj1 fades_run_to_completion sample_fading 10 10%nat)
    as (tr & sf & E & Ne & La & Fa & Len & _).
  - vm_compute. reflexivity.
  - vm_compute. reflexivity.
  - vm_compute. reflexivity.
  - lia.
  - vm_compute. lia.
  - exists tr, sf. repeat split; trivial.
Defined.


Lemma dim_then_restore_witness :
  exists s',
    (dim ;; restore_dim) (sample_state false false 100 (Some 100)) = (Ok tt, s')
    /\ hardware_luminance s'
       = hardware_luminance (sample_state false false 100 (Some 100))
    /\ overlay_opacity s'
       = overlay_opacity (sample_state false false 100 (Some 100)).
Proof.
  destruct (dim_then_restore (sample_state false false 100 (Some 100)))
    as (s' & E & _ & _ & _ & H & O).
  exists s'. split; [exact E|].
  split; [apply H; reflexivity|apply O; reflexivity].
Defined.

Lemma restore_dim_instant_witness :
  exists s',
    restore_dim (sample_state true false 70 (Some 100)) = (Ok tt, s')
    /\ is_dimmed (ctl s') = false
    /\ hardware_luminance s' = Some 100.
Proof.
  destruct (restore_dim_instant (sample_state true false 70 (Some 100)))
    as (s' & E & D & _ & _ & _ & H & _).
  exists s'. split; [exact E|]. split; [exact D|].
  apply (H (mkMonitor 70 true true) 100); reflexivity.
Defined.

Lemma set_indices_never_raises_witness :
  exists s',
    set_indices (-1) (-2) (sample_state false false 100 (Some 100))
    = (Ok tt, s')
    /\ display_index (ctl s') = 0
    /\ ddc_index (ctl s') = 0.
Proof.
  destruct (set_indices_never_raises
              (sample_state false false 100 (Some 100)) (-1) (-2))
    as (s' & E & _ & _ & D & H & _).
  exists s'. split; [exact E|]. split; [apply D; lia|apply H; lia].
Defined.

(* ------------------------------------------------------------------ *)
(** ** Presence detection *)

(** The coverage test [inter_area / mon_area >= 0.95] in integers. *)
Lemma coverage_test (inter_area mon_area : Z) :
  0 < mon_area ->
  Qle_bool (95 # 100) (Py.float inter_area / Py.float mon_area)%Q
  = (95 * mon_area <=? 100 * inter_area).
Proof.
  intros P. unfold Py.float.
  assert (Kp : (0 < inject_Z mon_area)%Q) by now apply inject_Z_pos.
  destruct (Z.leb_spec (95 * mon_area) (100 * inter_area)) as [L|L].
  - apply Qle_bool_iff. apply Qle_shift_div_l; trivial.
    unfold Qle, Qmult, inject_Z. cbn [Qnum Qden]. lia.
  - apply Qle_bool_false. apply Qlt_shift_div_r; trivial.
    unfold Qlt, Qmult, inject_Z. cbn [Qnum Qden]. lia.
Qed.

(** What [is_monitor_active] answers, from every state. *)
Lemma is_monitor_active_spec (s : State) :
  is_monitor_active s
  = (Ok (cursor_in_rect (ctl s) (world s)
         || (os_nt (world s)
             && match foreground (world s) with
                | Some fg =>
                    win_visible fg
                    && match win_rect fg with
                       | Some r =>
                           95 * Z.max 1 (width (ctl s) * height (ctl s))
                           <=? 100 * inter_area_of (ctl s) r
                       | None => false
                       end
                | None => false
                end)),
     s).
Proof.
  destruct s as [c w]. destruct c, w.
  unfold is_monitor_active, cursor_in_rect, inter_area_of, GetWindowRect.
  monad. destruct cursor0 as [x y].
  destruct ((left0 <=? x) && (x <? left0 + width0)
            && (top0 <=? y) && (y <? top0 + height0)); [reflexivity|].
  cbn [orb]. destruct os_nt0; [|reflexivity]. cbn [andb].
  destruct foreground0 as [fg|]; [|reflexivity].
  destruct (win_visible fg); [|reflexivity]. cbn [andb].
  destruct (win_rect fg) as [[[[wl wt] wr] wb]|]; monad; [|reflexivity].
  rewrite coverage_test by lia. reflexivity.
Qed.

(** X1: [is_monitor_active] never raises and never changes the state;
    it answers [True] whenever the cursor is inside the monitor
    rectangle, and off Windows it answers exactly the cursor test. *)
Theorem presence_cursor (s : State) :
  exists b,
    is_monitor_active s = (Ok b, s)
    /\ (cursor_in_rect (ctl s) (world s) = true -> b = true)
    /\ (os_nt (world s) = false -> b = cursor_in_rect (ctl s) (world s)).
Proof.
  rewrite is_monitor_active_spec. eexists. split; [reflexivity|]. split.
  - now intros ->.
  - intros ->. cbn [andb]. now rewrite orb_false_r.
Qed.

(** X2: on Windows a visible foreground window whose rectangle
    contains the whole monitor (of positive size) makes the monitor
    active, wherever the cursor is. *)
Theorem presence_fullscreen (s : State) (fg : Window)
    (win_left win_top win_right win_bottom : Z) :
  os_nt (world s) = true ->
  foreground (world s) = Some fg ->
  win_visible fg = true ->
  win_rect fg = Some (win_left, win_top, win_right, win_bottom) ->
  0 < width (ctl s) -> 0 < height (ctl s) ->
  win_left <= left (ctl s) ->
  win_top <= top (ctl s) ->
  left (ctl s) + width (ctl s) <= win_right ->
  top (ctl s) + height (ctl s) <= win_bottom ->
  is_monitor_active s = (Ok true, s).
Proof.
  intros Nt Fg Vis R W H L T Rt B.
  rewrite is_monitor_active_spec, Nt, Fg, Vis, R. cbn [andb].
  replace (95 * Z.max 1 (width (ctl s) * height (ctl s))
           <=? 100 * inter_area_of (ctl s)
                       (win_left, win_top, win_right, win_bottom))
    with true; [now rewrite orb_true_r|].
  symmetry. apply Z.leb_le. unfold inter_area_of.
  replace (Z.min (left (ctl s) + width (ctl s)) win_right)
    with (left (ctl s) + width (ctl s)) by lia.
  replace (Z.max (left (ctl s)) win_left) with (left (ctl s)) by lia.
  replace (Z.min (top (ctl s) + height (ctl s)) win_bottom)
    with (top (ctl s) + height (ctl s)) by lia.
  replace (Z.max (top (ctl s)) win_top) with (top (ctl s)) by lia.
  replace (left (ctl s) + width (ctl s) - left (ctl s))
    with (width (ctl s)) by lia.
  replace (top (ctl s) + height (ctl s) - top (ctl s))
    with (height (ctl s)) by lia.
  rewrite (Z.max_r 0 (width (ctl s))), (Z.max_r 0 (height (ctl s))) by lia.
  assert (0 < width (ctl s) * height (ctl s)) by lia.
  rewrite Z.max_r by lia. lia.
Qed.

(** X3: with the cursor elsewhere, a failing [GetWindowRect], a hidden
    foreground window, or a foreground window that does not intersect
    the monitor all give "not active", without an exception. *)
Theorem presence_absent (s : State) :
  cursor_in_rect (ctl s) (world s) = false ->
  (forall fg, foreground (world s) = Some fg ->
     win_visible fg = false
     \/ win_rect fg = None
     \/ exists r, win_rect fg = Some r /\ inter_area_of (ctl s) r = 0) ->
  is_monitor_active s = (Ok false, s).
Proof.
  intros C F. rewrite is_monitor_active_spec, C. cbn [orb].
  destruct (os_nt (world s)); [|reflexivity]. cbn [andb].
  destruct (foreground (world s)) as [fg|]; [|reflexivity].
  destruct (F fg eq_refl) as [V|[R|(r & R & I)]].
  - now rewrite V.
  - rewrite R. now destruct (win_visible fg).
  - rewrite R, I. destruct (win_visible fg); [|reflexivity]. cbn [andb].
    replace (95 * Z.max 1 (width (ctl s) * height (ctl s)) <=? 100 * 0)
      with false; [reflexivity|].
    symmetry. apply Z.leb_gt. lia.
Qed.

Lemma presence_fullscreen_witness :
  is_monitor_active (sample_fullscreen false)
  = (Ok true, sample_fullscreen false).
Proof.
  apply (presence_fullscreen (sample_fullscreen false)
           (mkWindow true (Some (0, 0, 1920, 1080))) 0 0 1920 1080);
    try reflexivity; cbn; lia.
Defined.

(** On Windows, with the cursor on another display: a full-screen
    window that is hidden, a window whose [GetWindowRect] raises, and a
    visible window on the neighbouring display. *)
Lemma presence_absent_witness :
  is_monitor_active
    (sample_foreground (mkWindow false (Some (0, 0, 1920, 1080))))
  = (Ok false, sample_foreground (mkWindow false (Some (0, 0, 1920, 1080))))
  /\ is_monitor_active (sample_foreground (mkWindow true None))
     = (Ok false, sample_foreground (mkWindow true None))
  /\ is_monitor_active
       (sample_foreground (mkWindow true (Some (1920, 0, 3840, 1080))))
     = (Ok false,
        sample_foreground (mkWindow true (Some (1920, 0, 3840, 1080)))).
Proof.
  split; [|split].
  - apply (presence_absent
             (sample_foreground (mkWindow false (Some (0, 0, 1920, 1080)))));
      [reflexivity|].
    intros fg H. injection H as <-. left. reflexivity.
  - apply (presence_absent (sample_foreground (mkWindow true None)));
      [reflexivity|].
    intros fg H. injection H as <-. right. left. reflexivity.
  - apply (presence_absent
             (sample_foreground (mkWindow true (Some (1920, 0, 3840, 1080)))));
      [reflexivity|].
    intros fg H. injection H as <-. right. right.
    exists (1920, 0, 3840, 1080). split; reflexivity.
Defined.

(* ------------------------------------------------------------------ *)
(** ** The activity tick outside awake mode *)

Lemma dimmed_is_dimmed (s : State) : is_dimmed (ctl (dimmed s)) = true.
Proof.
  destruct s as [c w]. destruct c, w.
  unfold dimmed, software_dimmed, planned. monad.
  destruct is_dimmed0 eqn:D; [reflexivity|].
  destruct overlay0 as [o|]; [destruct (enable_software_dimming cfg0)|];
    try destruct (overlay_profile _ _ _) as [[[st tt'] so] dl];
    destruct original_brightness0 as [b|];
    try destruct (enable_hardware_dimming cfg0);
    monad; try destruct restore_in_progress0;
    try destruct (hardware_profile _ _) as [[hs hd] hi];
    reflexivity.
Qed.


(** X5: outside awake mode, a tick that finds the user absent changes
    nothing while the idle time is below [inactivity_limit], and
    nothing either once the controller is already Dimmed. *)
Theorem tick_idle_below_limit (s : State) :
  awake_mode (global_cfg (world s)) = false ->
  is_monitor_active s = (Ok false, s) ->
  (clock (world s) - last_active (ctl s)
   < inactivity_limit (global_cfg (world s)))%Q
  \/ is_dimmed (ctl s) = true ->
  check_inactivity s = (Ok tt, s).
Proof.
  intros A P H. unfold check_inactivity.
  unfold bind at 1. unfold env at 1. rewrite A.
  unfold bind at 1. rewrite P.
  unfold bind at 1. unfold self at 1.
  destruct H as [H|H].
  - apply Qle_bool_false in H. now rewrite H.
  - rewrite H. now rewrite andb_false_r.
Qed.

(** X6: outside awake mode, a tick that finds the user absent for at
    least [inactivity_limit] seconds dims an Active controller: the
    tick is then exactly a call of [dim]. *)
Theorem tick_idle_past_limit (s : State) :
  awake_mode (global_cfg (world s)) = false ->
  is_monitor_active s = (Ok false, s) ->
  (inactivity_limit (global_cfg (world s))
   <= clock (world s) - last_active (ctl s))%Q ->
  is_dimmed (ctl s) = false ->
  check_inactivity s = dim s
  /\ exists s', check_inactivity s = (Ok tt, s')
                /\ is_dimmed (ctl s') = true.
Proof.
  intros A P H D.
  assert (E : check_inactivity s = dim s).
  { unfold check_inactivity.
    unfold bind at 1. unfold env at 1. rewrite A.
    unfold bind at 1. rewrite P.
    unfold bind at 1. unfold self at 1.
    apply Qle_bool_iff in H. now rewrite H, D. }
  split; [exact E|]. rewrite E, dim_spec.
  eexists. split; [reflexivity|]. apply dimmed_is_dimmed.
Qed.

Lemma dimmed_global_cfg (s : State) :
  global_cfg (world (dimmed s)) = global_cfg (world s).
Proof.
  destruct s as [c w]. destruct c, w.
  unfold dimmed, software_dimmed, planned. monad.
  destruct is_dimmed0 eqn:D; [reflexivity|].
  destruct overlay0 as [o|]; [destruct (enable_software_dimming cfg0)|];
    try destruct (overlay_profile _ _ _) as [[[st tt'] so] dl];
    destruct original_brightness0 as [b|];
    try destruct (enable_hardware_dimming cfg0);
    monad; try destruct restore_in_progress0;
    try destruct (hardware_profile _ _) as [[hs hd] hi];
    reflexivity.
Qed.

Lemma restore_dim_global_cfg (s s' : State) :
  restore_dim s = (Ok tt, s') ->
  global_cfg (world s') = global_cfg (world s).
Proof.
  intros E.
  destruct (restore_dim_effect s) as (s'' & E' & _ & _ & _ & _ & _ & _ & W).
  rewrite E in E'. injection E' as <-. rewrite W.
  destruct (original_brightness (ctl s)); trivial.
  apply brightness_world_global_cfg.
Qed.

Lemma awake_tick_spec (s : State) :
  awake_mode (global_cfg (world s)) = true ->
  check_inactivity s
  = (if is_dimmed (ctl s) then restore_dim s else (Ok tt, s)).
Proof.
  intros A. unfold check_inactivity.
  unfold bind at 1. unfold env at 1. rewrite A.
  unfold bind at 1. unfold self at 1.
  now destruct (is_dimmed (ctl s)).
Qed.

(** X7: a tick of [check_inactivity] never raises, whatever the
    platform answers (a failing [GetWindowRect], a failing DDC read or
    write), and it never changes the global configuration. *)
Theorem tick_never_raises (s : State) :
  exists s',
    check_inactivity s = (Ok tt, s')
    /\ global_cfg (world s') = global_cfg (world s).
Proof.
  destruct (awake_mode (global_cfg (world s))) eqn:A.
  - rewrite (awake_tick_spec s A).
    destruct (is_dimmed (ctl s)); [|now exists s].
    destruct (restore_dim_effect s) as (s' & E & _).
    exists s'. split; [exact E|]. now apply restore_dim_global_cfg.
  - unfold check_inactivity.
    unfold bind at 1. unfold env at 1. rewrite A.
    unfold bind at 1. rewrite is_monitor_active_spec.
    destruct (cursor_in_rect (ctl s) (world s) || _).
    + unfold bind at 1. unfold update at 1.
      unfold bind at 1. unfold self at 1.
      set (s1 := with_ctl (set_last_active (clock (world s))) s).
      assert (W1 : world s1 = world s) by reflexivity.
      destruct (is_dimmed (ctl s1)).
      * destruct (restore_dim_effect s1) as (s' & E & _).
        exists s'. split; [exact E|].
        now rewrite (restore_dim_global_cfg _ _ E), W1.
      * exists s1. now split.
    + unfold bind at 1. unfold self at 1.
      destruct (Qle_bool _ _ && negb _).
      * rewrite dim_spec. eexists. split; [reflexivity|].
        apply dimmed_global_cfg.
      * exists s. now split.
Qed.


Lemma tick_idle_below_limit_witness :
  check_inactivity sample_idle_5s = (Ok tt, sample_idle_5s).
Proof.
  apply tick_idle_below_limit; try reflexivity.
  left. reflexivity.
Defined.

Lemma tick_idle_past_limit_witness :
  check_inactivity (sample_state false false 100 (Some 100))
  = dim (sample_state false false 100 (Some 100))
  /\ exists s',
       check_inactivity (sample_state false false 100 (Some 100))
       = (Ok tt, s')
       /\ is_dimmed (ctl s') = true.
Proof.
  apply tick_idle_past_limit; try reflexivity.
  vm_compute. discriminate.
Defined.

(* ------------------------------------------------------------------ *)
(** ** Dimming *)

(** X8: [dim] on a Dimmed controller changes nothing, and two calls of
    [dim] in a row do what one does. *)
Theorem dim_idempotent (s : State) :
  (is_dimmed (ctl s) = true -> dim s = (Ok tt, s))
  /\ (dim ;; dim) s = dim s.
Proof.
  split.
  - intros D. rewrite dim_spec. unfold dimmed. now rewrite D.
  - unfold bind. rewrite dim_spec, dim_spec.
    unfold dimmed at 1. now rewrite dimmed_is_dimmed.
Qed.

(** X9: [dim] never raises and always leaves the controller Dimmed;
    at its return no luminance has been written yet (the hardware
    changes only on the ticks of the fade timer), and the cached
    original brightness is left as it was. *)
Theorem dim_defers_hardware (s : State) :
  exists s',
    dim s = (Ok tt, s')
    /\ is_dimmed (ctl s') = true
    /\ ddc_monitors (world s') = ddc_monitors (world s)
    /\ original_brightness (ctl s') = original_brightness (ctl s).
Proof.
  rewrite dim_spec. eexists. split; [reflexivity|].
  destruct (dimmed_frame s) as (_ & Fo & _ & Fd & _).
  split; [apply dimmed_is_dimmed|]. now split.
Qed.

Lemma restore_dim_spec (s : State) : restore_dim s = (Ok tt, restored s).
Proof.
  unfold restore_dim. unfold bind at 1. unfold update at 1.
  rewrite immediate_restore_spec.
  destruct s as [c w]. destruct c. unfold restored, brightness_world. monad.
  destruct fade_timer0 as [[i [|]]|]; reflexivity.
Qed.

Lemma restored_fields (s : State) :
  is_dimmed (ctl (restored s)) = false
  /\ timer_active (ctl (restored s)) = false
  /\ restore_in_progress (ctl (restored s)) = restore_in_progress (ctl s)
  /\ cfg (ctl (restored s)) = cfg (ctl s)
  /\ original_brightness (ctl (restored s)) = original_brightness (ctl s)
  /\ monitorcontrol_monitor (ctl (restored s))
     = monitorcontrol_monitor (ctl s)
  /\ last_active (ctl (restored s)) = last_active (ctl s)
  /\ singleshots (world (restored s)) = singleshots (world s)
  /\ global_cfg (world (restored s)) = global_cfg (world s).
Proof.
  destruct s as [c w]. destruct c, w.
  unfold restored, timer_active, brightness_world. monad.
  destruct fade_timer0 as [[i [|]]|];
    destruct original_brightness0 as [b|];
    try destruct monitorcontrol_monitor0 as [h|];
    try destruct (nth_error ddc_monitors0 h) as [m|];
    try destruct (writable m);
    repeat split.
Qed.

(** With a hardware fade already marked in progress, [dim] starts no
    new one. *)
Lemma dimmed_while_in_progress (s : State) :
  restore_in_progress (ctl s) = true ->
  restore_in_progress (ctl (dimmed s)) = true
  /\ fade_timer (ctl (dimmed s)) = fade_timer (ctl s).
Proof.
  destruct s as [c w]. destruct c, w.
  unfold dimmed, software_dimmed. monad. intros ->.
  destruct is_dimmed0; [now split|].
  destruct overlay0 as [o|]; [destruct (enable_software_dimming cfg0)|];
    try destruct (overlay_profile _ _ _) as [[[st tt'] so] dl];
    destruct original_brightness0 as [b|];
    try destruct (enable_hardware_dimming cfg0);
    monad; now split.
Qed.

(** When [dim] starts the hardware fade. *)
Lemma dimmed_starts_fade (s : State) (b : Z) :
  is_dimmed (ctl s) = false ->
  enable_hardware_dimming (cfg (ctl s)) = true ->
  restore_in_progress (ctl s) = false ->
  original_brightness (ctl s) = Some b ->
  restore_in_progress (ctl (dimmed s)) = true
  /\ timer_active (ctl (dimmed s)) = true
  /\ current_fade_step (ctl (dimmed s)) = 0
  /\ fade_steps (ctl (dimmed s))
     = fst (fst (hardware_profile (global_cfg (world s)) true))
  /\ fade_target (ctl (dimmed s))
     = dim_target (hardware_dimming_level (cfg (ctl s)))
                  (fade_start_value (fresh_read s) (Some b))
  /\ cfg (ctl (dimmed s)) = cfg (ctl s).
Proof.
  destruct s as [c w]. destruct c, w.
  unfold dimmed, software_dimmed, planned, timer_active, fresh_read, attached.
  monad. intros -> H -> ->. rewrite H.
  destruct overlay0 as [o|]; [destruct (enable_software_dimming cfg0)|];
    try destruct (overlay_profile _ _ _) as [[[st tt'] so] dl];
    monad;
    destruct (hardware_profile global_cfg0 true) as [[hs hd] hi];
    repeat split.
Qed.

(** X10: a hardware fade that [restore_dim] interrupts leaves
    [restore_in_progress] set (only the last tick of a fade clears
    it), so the next [dim] marks the controller Dimmed but starts no
    hardware fade. *)
Theorem interrupted_fade_blocks_next_dim (s : State) (b : Z) :
  is_dimmed (ctl s) = false ->
  enable_hardware_dimming (cfg (ctl s)) = true ->
  restore_in_progress (ctl s) = false ->
  original_brightness (ctl s) = Some b ->
  exists s3,
    (dim ;; restore_dim ;; dim) s = (Ok tt, s3)
    /\ is_dimmed (ctl s3) = true
    /\ restore_in_progress (ctl s3) = true
    /\ timer_active (ctl s3) = false.
Proof.
  intros D H G B.
  unfold bind. rewrite dim_spec, restore_dim_spec, dim_spec.
  eexists. split; [reflexivity|].
  destruct (dimmed_starts_fade s b D H G B) as (R1 & _).
  destruct (restored_fields (dimmed s)) as (_ & T2 & R2 & _).
  rewrite R1 in R2.
  destruct (dimmed_while_in_progress (restored (dimmed s)) R2) as (R3 & T3).
  split; [apply dimmed_is_dimmed|]. split; [exact R3|].
  unfold timer_active in *. now rewrite T3.
Qed.

Lemma interrupted_fade_blocks_next_dim_witness :
  exists s3,
    (dim ;; restore_dim ;; dim) (sample_state false false 100 (Some 100))
    = (Ok tt, s3)
    /\ is_dimmed (ctl s3) = true
    /\ restore_in_progress (ctl s3) = true
    /\ timer_active (ctl s3) = false.
Proof.
  apply (interrupted_fade_blocks_next_dim _ 100); reflexivity.
Defined.

(* ------------------------------------------------------------------ *)
(** ** The hardware fade on a monitor that accepts writes *)

Lemma after_tick_monitor (c : Controller) :
  monitorcontrol_monitor (after_tick c) = monitorcontrol_monitor c.
Proof.
  unfold after_tick, bump. destruct (fade_done _); destruct c; reflexivity.
Qed.

(** One tick on an attached, writable monitor shows the applied value. *)
Lemma tick_writes (s : State) (m : Monitor) :
  attached s = Some m ->
  writable m = true ->
  attached (mkState (after_tick (ctl s))
                    (brightness_world (fade_applied (bump (ctl s))) (ctl s)
                                      (world s)))
  = Some (set_luminance_field (fade_applied (bump (ctl s))) m).
Proof.
  intros A W. unfold attached in *. cbn [ctl world].
  rewrite after_tick_monitor. unfold brightness_world.
  destruct (monitorcontrol_monitor (ctl s)) as [h|]; [|discriminate].
  rewrite A, W. destruct (world s). cbn [ddc_monitors set_ddc_monitors] in *.
  now apply nth_error_list_update with (y := m).
Qed.

Lemma run_fade_writes (n : nat) :
  forall (fuel : nat) (s : State) (m : Monitor),
    (S n <= fuel)%nat ->
    timer_active (ctl s) = true ->
    0 <= current_fade_step (ctl s) ->
    fade_steps (ctl s) - current_fade_step (ctl s) <= Z.of_nat (S n) ->
    attached s = Some m ->
    writable m = true ->
    exists tr sf,
      run_fade fuel s = Some (tr, sf)
      /\ hardware_luminance sf = Some (fade_target (ctl s))
      /\ timer_active (ctl sf) = false
      /\ restore_in_progress (ctl sf) = false.
Proof.
  induction n as [|n IH]; intros fuel s m F T K R A W;
    (destruct fuel as [|fuel]; [lia|]);
    cbn [run_fade]; rewrite T, _do_fade_spec;
    pose proof (tick_writes s m A W) as A1;
    set (s1 := mkState (after_tick (ctl s)) _) in *;
    destruct (bump_fields (ctl s)) as (_ & Bt & Bn & _ & Bk);
    destruct (after_tick_fields (ctl s)) as (_ & At & An & _ & Ak).
  - assert (D : fade_done (bump (ctl s)) = true).
    { unfold fade_done. rewrite Bn, Bk.
      replace (fade_steps (ctl s) <=? current_fade_step (ctl s) + 1)
        with true by (symmetry; apply Z.leb_le; lia).
      now rewrite orb_true_r. }
    destruct (after_tick_done _ D) as [Tf Rf].
    assert (L : hardware_luminance s1 = Some (fade_target (ctl s))).
    { unfold hardware_luminance. rewrite A1. unfold fade_applied.
      now rewrite D, Bt. }
    destruct fuel; cbn [run_fade]; replace (timer_active (ctl s1)) with false;
      eexists; eexists; (split; [reflexivity|]); repeat split; assumption.
  - destruct (fade_done (bump (ctl s))) eqn:D.
    + destruct (after_tick_done _ D) as [Tf Rf].
      assert (L : hardware_luminance s1 = Some (fade_target (ctl s))).
      { unfold hardware_luminance. rewrite A1. unfold fade_applied.
        now rewrite D, Bt. }
      destruct fuel; cbn [run_fade];
        replace (timer_active (ctl s1)) with false;
        eexists; eexists; (split; [reflexivity|]); repeat split; assumption.
    + destruct (after_tick_going _ D) as [Tg Kg].
      destruct (IH fuel s1
                  (set_luminance_field (fade_applied (bump (ctl s))) m)
                  ltac:(lia)) as (tr & sf & E & L & Tf & Rf).
      * subst s1. cbn [ctl]. now rewrite Tg.
      * subst s1. cbn [ctl]. lia.
      * subst s1. cbn [ctl]. rewrite An, Ak. lia.
      * exact A1.
      * destruct m. exact W.
      * rewrite E. eexists; eexists. split; [reflexivity|].
        subst s1. cbn [ctl] in L. rewrite At in L. repeat split; assumption.
Qed.

(** X11: on an attached monitor that answers reads and accepts
    writes, [dim] followed by the ticks of the fade timer leaves the
    hardware at [max(0, min(100, round(lum * (1 - level / 100.0))))],
    computed in double precision as [fade_hardware] does, for the
    luminance [lum] read at the dim, with the fade timer stopped and
    [restore_in_progress] cleared. *)
Theorem dim_fade_reaches_target (s : State) (m : Monitor) (b : Z)
    (fuel : nat) :
  is_dimmed (ctl s) = false ->
  enable_hardware_dimming (cfg (ctl s)) = true ->
  restore_in_progress (ctl s) = false ->
  original_brightness (ctl s) = Some b ->
  attached s = Some m ->
  readable m = true ->
  writable m = true ->
  (Z.to_nat (fst (fst (hardware_profile (global_cfg (world s)) true)))
   <= fuel)%nat ->
  exists s1 tr sf,
    dim s = (Ok tt, s1)
    /\ run_fade fuel s1 = Some (tr, sf)
    /\ hardware_luminance sf
       = Some (dim_target (hardware_dimming_level (cfg (ctl s)))
                          (luminance m))
    /\ timer_active (ctl sf) = false
    /\ restore_in_progress (ctl sf) = false.
Proof.
  intros D H G B A Rd Wr F.
  rewrite dim_spec.
  destruct (dimmed_starts_fade s b D H G B) as (_ & T1 & K1 & S1 & Tg & _).
  destruct (dimmed_frame s) as (Fm & _ & _ & Fd & _).
  assert (A1 : attached (dimmed s) = Some m).
  { unfold attached in *. now rewrite Fm, Fd. }
  assert (P : 1 <= fst (fst (hardware_profile (global_cfg (world s)) true))).
  { unfold hardware_profile. cbn [fst].
    destruct (Z.leb_spec (overlay_fade_steps (global_cfg (world s))) 0); lia. }
  destruct (Z.to_nat (fst (fst (hardware_profile (global_cfg (world s)) true))))
    as [|n] eqn:N; [lia|].
  destruct (run_fade_writes n fuel (dimmed s) m F T1)
    as (tr & sf & E & L & Tf & Rf); trivial; try lia.
  exists (dimmed s), tr, sf. split; [reflexivity|]. split; [exact E|].
  rewrite L, Tg. unfold fresh_read. rewrite A, Rd. cbn [fade_start_value].
  repeat split; assumption.
Qed.

Lemma dim_fade_reaches_target_witness :
  exists s1 tr sf,
    dim (sample_state false false 85 (Some 100)) = (Ok tt, s1)
    /\ run_fade 10 s1 = Some (tr, sf)
    /\ hardware_luminance sf = Some (dim_target 30 85)
    /\ timer_active (ctl sf) = false
    /\ restore_in_progress (ctl sf) = false.
Proof.
  apply (dim_fade_reaches_target (sample_state false false 85 (Some 100))
           (mkMonitor 85 true true) 100 10); reflexivity.
Defined.

(* ------------------------------------------------------------------ *)
(** ** The overlay fade on the event loop *)

Lemma overlay_stepped_visible (current target step_opacity : Q)
    (o : OverlayWindow) :
  visible (overlay_stepped current target step_opacity o)
  = (if overlay_again (overlay_next current target step_opacity) target
     then visible o
     else if Py.Qltb (Qabs target) (1 # 100) then false else visible o).
Proof.
  unfold overlay_stepped.
  destruct (overlay_again _ target); [reflexivity|].
  destruct (Py.Qltb _ _); reflexivity.
Qed.

Lemma fire_singleshot_spec (s : State) (o : OverlayWindow) (cb : Callback)
    (rest : list Callback) :
  overlay (ctl s) = Some o ->
  singleshots (world s) = cb :: rest ->
  fire_singleshot s
  = (Ok tt,
     mkState
       (set_overlay
          (Some (overlay_stepped (cb_current cb) (cb_target cb) (cb_step cb) o))
          (ctl s))
       (set_singleshots
          (overlay_scheduled (cb_current cb) (cb_target cb) (cb_step cb)
                             (cb_delay cb) rest)
          (world s))).
Proof.
  intros Ho Hq. unfold fire_singleshot.
  unfold bind at 1. unfold env at 1. rewrite Hq.
  unfold bind at 1. unfold update_world at 1.
  erewrite _fade_overlay_step_spec by exact Ho.
  destruct s as [c w]. destruct w. reflexivity.
Qed.

(** The closures of one overlay fade run to completion: with [n + 1]
    steps left, [n + 1] units of fuel suffice; at the end no closure is
    pending, the opacity is within 0.01 of the target, the overlay has
    been hidden when the target is below 0.01 and its visibility is
    untouched otherwise, and nothing but the overlay has changed in the
    controller. *)
Lemma drain_converges (n : nat) :
  forall (fuel : nat) (s : State) (o : OverlayWindow) (cb : Callback),
    (S n <= fuel)%nat ->
    overlay (ctl s) = Some o ->
    singleshots (world s) = [cb] ->
    (cb_target cb - cb_current cb
     == inject_Z (Z.of_nat (S n)) * cb_step cb)%Q ->
    exists tr sf o',
      drain fuel s = Some (tr, sf)
      /\ (length tr <= S n)%nat
      /\ singleshots (world sf) = []
      /\ ctl sf = set_overlay (Some o') (ctl s)
      /\ visible o' = (if Py.Qltb (Qabs (cb_target cb)) (1 # 100)
                       then false else visible o)
      /\ (Qabs (opacity o' - cb_target cb) <= 1 # 100)%Q
      /\ ddc_monitors (world sf) = ddc_monitors (world s).
Proof.
  induction n as [|n IH]; intros fuel s o cb F Ho Hq E;
    (destruct fuel as [|fuel]; [lia|]);
    cbn [drain]; rewrite Hq, (fire_singleshot_spec s o cb [] Ho Hq);
    set (s1 := mkState _ _);
    assert (O1 : overlay (ctl s1)
                 = Some (overlay_stepped (cb_current cb) (cb_target cb)
                                         (cb_step cb) o))
      by (destruct s as [c w]; destruct c; reflexivity);
    assert (C1 : forall o', set_overlay (Some o') (ctl s1)
                            = set_overlay (Some o') (ctl s))
      by (intros o'; destruct s as [c w]; destruct c; reflexivity);
    assert (D1 : ddc_monitors (world s1) = ddc_monitors (world s))
      by (destruct s as [c w]; destruct w; reflexivity);
    unfold overlay_opacity; rewrite O1; cbn [option_map];
    pose proof (overlay_stepped_visible (cb_current cb) (cb_target cb)
                                        (cb_step cb) o) as V;
    pose proof (overlay_stepped_opacity (cb_current cb) (cb_target cb)
                                        (cb_step cb) o) as P.
  - assert (E1 : (cb_target cb - cb_current cb == cb_step cb)%Q).
    { rewrite E. cbn. ring. }
    pose proof (overlay_next_last _ _ _ E1) as L.
    pose proof (overlay_again_eq _ _ L) as A.
    assert (Q1 : singleshots (world s1) = []).
    { unfold s1, overlay_scheduled. rewrite A.
      destruct s as [c w]; destruct w; reflexivity. }
    assert (Dr : drain fuel s1 = Some ([], s1))
      by (destruct fuel; cbn [drain]; rewrite Q1; reflexivity).
    rewrite Dr. eexists; eexists; eexists. split; [reflexivity|].
    cbn [length]. split; [lia|]. split; [exact Q1|].
    split; [destruct s as [c w]; destruct c; reflexivity|].
    split; [now rewrite V, A|].
    split; [rewrite P; now apply overlay_again_false|exact D1].
  - destruct (overlay_again
                (overlay_next (cb_current cb) (cb_target cb) (cb_step cb))
                (cb_target cb)) eqn:A.
    + destruct (overlay_next_cases (cb_current cb) (cb_target cb) (cb_step cb))
        as [C|C].
      * rewrite C in A. rewrite overlay_again_eq in A by reflexivity.
        discriminate.
      * destruct (IH fuel s1 _
                    (mkCallback
                       (overlay_next (cb_current cb) (cb_target cb)
                                     (cb_step cb))
                       (cb_target cb) (cb_step cb) (cb_delay cb))
                    ltac:(lia) O1)
          as (tr & sf & o' & Dr & Len & Qf & Cf & Vf & Pf & Df).
        -- unfold s1, overlay_scheduled. rewrite A.
           destruct s as [c w]; destruct w; reflexivity.
        -- cbn [cb_current cb_target cb_step]. rewrite C.
           rewrite (Nat2Z.inj_succ (S n)) in E. unfold Z.succ in E.
           rewrite inject_Z_plus in E.
           setoid_replace (inject_Z 1) with 1%Q in E by reflexivity.
           lra.
        -- rewrite Dr. cbn [cb_target] in *.
           exists (overlay_next (cb_current cb) (cb_target cb) (cb_step cb)
                   :: tr), sf, o'.
           rewrite P. split; [reflexivity|].
           cbn [length]. split; [lia|]. split; [exact Qf|].
           split; [now rewrite Cf, C1|].
           split; [now rewrite Vf, V|].
           split; [exact Pf|now rewrite Df].
    + assert (Q1 : singleshots (world s1) = []).
      { unfold s1, overlay_scheduled. rewrite A.
        destruct s as [c w]; destruct w; reflexivity. }
      assert (Dr : drain fuel s1 = Some ([], s1))
        by (destruct fuel; cbn [drain]; rewrite Q1; reflexivity).
      rewrite Dr. eexists; eexists; eexists. split; [reflexivity|].
      cbn [length]. split; [lia|]. split; [exact Q1|].
      split; [destruct s as [c w]; destruct c; reflexivity|].
      split; [now rewrite V|].
      split; [rewrite P; now apply overlay_again_false|exact D1].
Qed.

Lemma overlay_profile_step (g : GlobalCfg) (current target : Q) :
  let '(steps, _, step_opacity, _) := overlay_profile g current target in
  1 <= steps /\ (target - current == inject_Z steps * step_opacity)%Q.
Proof.
  unfold overlay_profile, Py.float.
  set (st0 := if overlay_fade_steps g <=? 0 then 1 else overlay_fade_steps g).
  assert (S0 : 1 <= st0).
  { unfold st0. destruct (Z.leb_spec (overlay_fade_steps g) 0); lia. }
  set (st := if Py.Qltb target current then Z.min st0 3 else st0).
  assert (S1 : 1 <= st).
  { unfold st. destruct (Py.Qltb target current); lia. }
  split; [exact S1|].
  assert (Kp : (0 < inject_Z st)%Q) by (apply inject_Z_pos; lia).
  field. intros Z0. rewrite Z0 in Kp. discriminate.
Qed.

(** After the first step of an overlay fade of [steps] steps, the
    closures it left run to completion within [steps - 1] further
    firings. *)
Lemma chain_completes (s1 : State) (o0 : OverlayWindow)
    (current target step_opacity : Q) (delay steps : Z) (fuel : nat) :
  1 <= steps ->
  (Z.to_nat steps <= S fuel)%nat ->
  (target - current == inject_Z steps * step_opacity)%Q ->
  overlay (ctl s1) = Some (overlay_stepped current target step_opacity o0) ->
  singleshots (world s1)
  = overlay_scheduled current target step_opacity delay [] ->
  exists tr sf o',
    drain fuel s1 = Some (tr, sf)
    /\ singleshots (world sf) = []
    /\ ctl sf = set_overlay (Some o') (ctl s1)
    /\ visible o' = (if Py.Qltb (Qabs target) (1 # 100)
                     then false else visible o0)
    /\ (Qabs (opacity o' - target) <= 1 # 100)%Q
    /\ ddc_monitors (world sf) = ddc_monitors (world s1).
Proof.
  intros S1 F E Ho Hq.
  pose proof (overlay_stepped_visible current target step_opacity o0) as V.
  pose proof (overlay_stepped_opacity current target step_opacity o0) as P.
  unfold overlay_scheduled in Hq.
  destruct (overlay_again (overlay_next current target step_opacity) target)
    eqn:A.
  - destruct (overlay_next_cases current target step_opacity) as [C|C].
    { rewrite C in A. rewrite overlay_again_eq in A by reflexivity.
      discriminate. }
    assert (S2 : 2 <= steps).
    { destruct (Z.eq_dec steps 1) as [->|]; [|lia].
      assert (E1 : (target - current == step_opacity)%Q)
        by (rewrite E; cbn; ring).
      rewrite (overlay_again_eq _ _ (overlay_next_last _ _ _ E1)) in A.
      discriminate. }
    destruct (drain_converges (Z.to_nat (steps - 2)) fuel s1 _
                (mkCallback (overlay_next current target step_opacity)
                            target step_opacity delay)
                ltac:(lia) Ho Hq)
      as (tr & sf & o' & Dr & _ & Qf & Cf & Vf & Pf & Df).
    + cbn [cb_current cb_target cb_step]. rewrite C.
      replace (Z.of_nat (S (Z.to_nat (steps - 2)))) with (steps - 1) by lia.
      unfold Z.sub. rewrite inject_Z_plus.
      setoid_replace (inject_Z (- (1))) with (- (1))%Q by reflexivity.
      lra.
    + cbn [cb_target] in *. exists tr, sf, o'.
      repeat split; trivial. now rewrite Vf, V.
  - cbn [app] in Hq.
    assert (Dr : drain fuel s1 = Some ([], s1))
      by (destruct fuel; cbn [drain]; rewrite Hq; reflexivity).
    exists [], s1, (overlay_stepped current target step_opacity o0).
    split; [exact Dr|]. split; [exact Hq|].
    split; [destruct s1 as [c w]; destruct c; cbn in *; now subst|].
    split; [now rewrite V|].
    split; [rewrite P; now apply overlay_again_false|reflexivity].
Qed.

(** X12: an overlay fade started by [fade_overlay] on an idle event
    loop runs to completion: no closure is left pending, the opacity
    ends within 0.01 of the target, and the overlay is hidden at the
    end exactly when the target is below 0.01 or it was hidden before;
    the fade touches nothing but the overlay. *)
Theorem fade_overlay_completes (s : State) (o : OverlayWindow)
    (target_opacity : Q) (fuel : nat) :
  overlay (ctl s) = Some o ->
  singleshots (world s) = [] ->
  (Z.to_nat (fst (fst (fst (overlay_profile (global_cfg (world s))
                              (opacity o) target_opacity))))
   <= S fuel)%nat ->
  exists s1 tr sf o',
    fade_overlay target_opacity s = (Ok tt, s1)
    /\ drain fuel s1 = Some (tr, sf)
    /\ singleshots (world sf) = []
    /\ ctl sf = set_overlay (Some o') (ctl s)
    /\ visible o' = (if Py.Qltb (Qabs target_opacity) (1 # 100)
                     then false else visible o)
    /\ (Qabs (opacity o' - target_opacity) <= 1 # 100)%Q.
Proof.
  intros Ho Hq F.
  pose proof (overlay_profile_step (global_cfg (world s)) (opacity o)
                target_opacity) as PS.
  unfold fade_overlay.
  unfold bind at 1. unfold windowOpacity. unfold bind at 1. unfold self at 1.
  rewrite Ho. unfold ret at 1. unfold bind at 1. unfold env at 1.
  destruct (overlay_profile (global_cfg (world s)) (opacity o) target_opacity)
    as [[[steps total] step] delay].
  cbn [fst] in F. destruct PS as [S1 E].
  erewrite _fade_overlay_step_spec by exact Ho.
  set (s1 := mkState _ _).
  destruct (chain_completes s1 o (opacity o) target_opacity step delay steps
              fuel S1 F E)
    as (tr & sf & o' & Dr & Qf & Cf & Vf & Pf & _).
  - destruct s as [c w]; destruct c; reflexivity.
  - unfold s1. rewrite Hq. destruct s as [c w]; destruct w; reflexivity.
  - exists s1, tr, sf, o'. split; [reflexivity|].
    repeat split; trivial.
Qed.

Lemma fade_overlay_completes_witness :
  exists s1 tr sf o',
    fade_overlay (1 # 2) (sample_state false false 100 (Some 100))
    = (Ok tt, s1)
    /\ drain 9 s1 = Some (tr, sf)
    /\ singleshots (world sf) = []
    /\ ctl sf = set_overlay (Some o')
                  (ctl (sample_state false false 100 (Some 100)))
    /\ visible o' = false
    /\ (Qabs (opacity o' - (1 # 2)) <= 1 # 100)%Q.
Proof.
  apply (fade_overlay_completes (sample_state false false 100 (Some 100))
           (sample_overlay false 0) (1 # 2) 9); reflexivity.
Defined.

Lemma dimmed_overlay (s : State) (o : OverlayWindow)
    (steps : Z) (total step_opacity : Q) (delay : Z) :
  is_dimmed (ctl s) = false ->
  enable_software_dimming (cfg (ctl s)) = true ->
  overlay (ctl s) = Some o ->
  overlay_profile (global_cfg (world s)) (opacity o)
    (Qmax 0 (Qmin 1 (software_dimming_level (cfg (ctl s)))))
  = (steps, total, step_opacity, delay) ->
  overlay (ctl (dimmed s))
  = Some (overlay_stepped (opacity o)
            (Qmax 0 (Qmin 1 (software_dimming_level (cfg (ctl s)))))
            step_opacity (set_visible true o))
  /\ singleshots (world (dimmed s))
     = overlay_scheduled (opacity o)
         (Qmax 0 (Qmin 1 (software_dimming_level (cfg (ctl s)))))
         step_opacity delay (singleshots (world s)).
Proof.
  destruct s as [c w]. destruct c, w.
  unfold dimmed, software_dimmed, planned. cbn [ctl world].
  cbn [is_dimmed cfg overlay global_cfg singleshots original_brightness
       restore_in_progress].
  intros -> -> -> ->.
  destruct original_brightness0 as [b|];
    [destruct (enable_hardware_dimming cfg0);
     [destruct restore_in_progress0|]|];
    try destruct (hardware_profile _ _) as [[hs hd] hi];
    split; reflexivity.
Qed.

Lemma clamp_unit (x : Q) : (0 <= Qmax 0 (Qmin 1 x) <= 1)%Q.
Proof.
  split.
  - apply Q.le_max_l.
  - apply Q.max_lub; [discriminate|apply Q.le_min_l].
Qed.

(** X13: software dimming end to end.  On an Active controller with
    software dimming enabled and an idle event loop, [dim] followed by
    the closures of the overlay fade leaves the controller Dimmed with
    the overlay opacity within 0.01 of the configured level clamped to
    [0,1]; the overlay is shown, except that a level below 0.01 ends
    with the overlay hidden. *)
Theorem dim_overlay_completes (s : State) (o : OverlayWindow) (fuel : nat) :
  is_dimmed (ctl s) = false ->
  enable_software_dimming (cfg (ctl s)) = true ->
  overlay (ctl s) = Some o ->
  singleshots (world s) = [] ->
  let target := Qmax 0 (Qmin 1 (software_dimming_level (cfg (ctl s)))) in
  (Z.to_nat (fst (fst (fst (overlay_profile (global_cfg (world s))
                              (opacity o) target))))
   <= S fuel)%nat ->
  exists s1 tr sf o',
    dim s = (Ok tt, s1)
    /\ drain fuel s1 = Some (tr, sf)
    /\ is_dimmed (ctl sf) = true
    /\ overlay (ctl sf) = Some o'
    /\ visible o' = negb (Py.Qltb (Qabs target) (1 # 100))
    /\ (Qabs (opacity o' - target) <= 1 # 100)%Q
    /\ (0 <= target <= 1)%Q.
Proof.
  intros D Sw Ho Hq target F.
  pose proof (overlay_profile_step (global_cfg (world s)) (opacity o) target)
    as PS.
  destruct (overlay_profile (global_cfg (world s)) (opacity o) target)
    as [[[steps total] step] delay] eqn:P.
  cbn [fst] in F. destruct PS as [S1 E].
  destruct (dimmed_overlay s o steps total step delay D Sw Ho P) as [O1 Q1].
  fold target in O1, Q1.
  rewrite Hq in Q1.
  destruct (chain_completes (dimmed s) (set_visible true o) (opacity o)
              target step delay steps fuel S1 F E O1 Q1)
    as (tr & sf & o' & Dr & Qf & Cf & Vf & Pf & _).
  rewrite dim_spec. exists (dimmed s), tr, sf, o'.
  split; [reflexivity|]. split; [exact Dr|].
  split.
  { rewrite Cf. pose proof (dimmed_is_dimmed s) as Dd.
    destruct (ctl (dimmed s)). exact Dd. }
  split; [rewrite Cf; destruct (ctl (dimmed s)); reflexivity|].
  split; [rewrite Vf; now destruct (Py.Qltb _ _)|].
  split; [exact Pf|apply clamp_unit].
Qed.

Lemma dim_overlay_completes_witness :
  exists s1 tr sf o',
    dim (sample_state false false 100 (Some 100)) = (Ok tt, s1)
    /\ drain 9 s1 = Some (tr, sf)
    /\ is_dimmed (ctl sf) = true
    /\ overlay (ctl sf) = Some o'
    /\ visible o' = true
    /\ (Qabs (opacity o' - (1 # 2)) <= 1 # 100)%Q
    /\ (0 <= 1 # 2 <= 1)%Q.
Proof.
  apply (dim_overlay_completes (sample_state false false 100 (Some 100))
           (sample_overlay false 0) 9); reflexivity.
Defined.

(** X14: [restore_dim] does not cancel the closures of an overlay fade
    that are still pending.  When they run afterwards the controller
    stays Active and the overlay stays hidden, but the opacity that
    [restore_dim] had reset to 0.0 ends within 0.01 of the target of
    the interrupted fade. *)
Theorem stale_overlay_closures (s : State) (o : OverlayWindow)
    (cb : Callback) (n fuel : nat) :
  overlay (ctl s) = Some o ->
  singleshots (world s) = [cb] ->
  (cb_target cb - cb_current cb
   == inject_Z (Z.of_nat (S n)) * cb_step cb)%Q ->
  (S n <= fuel)%nat ->
  exists s' tr sf o',
    restore_dim s = (Ok tt, s')
    /\ overlay_opacity s' = Some 0%Q
    /\ singleshots (world s') = [cb]
    /\ drain fuel s' = Some (tr, sf)
    /\ is_dimmed (ctl sf) = false
    /\ overlay (ctl sf) = Some o'
    /\ visible o' = false
    /\ (Qabs (opacity o' - cb_target cb) <= 1 # 100)%Q.
Proof.
  intros Ho Hq E F. rewrite restore_dim_spec.
  destruct (restored_fields s) as (D & _ & _ & _ & _ & _ & _ & Q1 & _).
  rewrite Hq in Q1.
  assert (O1 : overlay (ctl (restored s))
               = Some (set_opacity_field 0 (set_visible false o))).
  { destruct s as [c w]. destruct c. cbn [ctl overlay] in Ho. subst.
    unfold restored. monad. destruct fade_timer0 as [[i [|]]|]; reflexivity. }
  destruct (drain_converges n fuel (restored s) _ cb F O1 Q1 E)
    as (tr & sf & o' & Dr & _ & _ & Cf & Vf & Pf & _).
  exists (restored s), tr, sf, o'. split; [reflexivity|].
  split; [unfold overlay_opacity; now rewrite O1|].
  split; [exact Q1|]. split; [exact Dr|].
  split; [rewrite Cf; destruct (ctl (restored s)); exact D|].
  split; [rewrite Cf; destruct (ctl (restored s)); reflexivity|].
  split; [rewrite Vf; now destruct (Py.Qltb _ _)|exact Pf].
Qed.

Lemma stale_overlay_closures_witness :
  exists s' tr sf o',
    restore_dim sample_dimming = (Ok tt, s')
    /\ overlay_opacity s' = Some 0%Q
    /\ singleshots (world s')
       = [mkCallback (0 + ((1 # 2) - 0) / 10) (1 # 2) (((1 # 2) - 0) / 10) 50]
    /\ drain 9 s' = Some (tr, sf)
    /\ is_dimmed (ctl sf) = false
    /\ overlay (ctl sf) = Some o'
    /\ visible o' = false
    /\ (Qabs (opacity o' - (1 # 2)) <= 1 # 100)%Q.
Proof.
  apply (stale_overlay_closures sample_dimming
           (mkOverlay true (0 + ((1 # 2) - 0) / 10) (0, 0, 1920, 1080))
           (mkCallback (0 + ((1 # 2) - 0) / 10) (1 # 2) (((1 # 2) - 0) / 10) 50)
           8 9).
  - vm_compute. reflexivity.
  - vm_compute. reflexivity.
  - vm_compute. reflexivity.
  - lia.
Defined.

(* ------------------------------------------------------------------ *)
(** ** Switching a channel off *)

(** X15: [dim] honours the two channel switches: with hardware dimming
    disabled it starts no hardware fade (timer, fade plan and
    [restore_in_progress] stay as they were), and with software
    dimming disabled it leaves the overlay and the pending closures
    untouched. *)
Theorem dim_respects_switches (s : State) :
  exists s',
    dim s = (Ok tt, s')
    /\ (enable_hardware_dimming (cfg (ctl s)) = false ->
        fade_timer (ctl s') = fade_timer (ctl s)
        /\ restore_in_progress (ctl s') = restore_in_progress (ctl s)
        /\ fade_target (ctl s') = fade_target (ctl s))
    /\ (enable_software_dimming (cfg (ctl s)) = false ->
        overlay (ctl s') = overlay (ctl s)
        /\ singleshots (world s') = singleshots (world s)).
Proof.
  rewrite dim_spec. eexists. split; [reflexivity|].
  destruct s as [c w]. destruct c, w.
  unfold dimmed, software_dimmed, planned. monad.
  split; intros ->;
    (destruct is_dimmed0; [repeat split|]);
    (destruct overlay0 as [o|];
     [try destruct (enable_software_dimming cfg0)|]);
    try destruct (overlay_profile _ _ _) as [[[st tt'] so] dl];
    destruct original_brightness0 as [b|];
    try destruct (enable_hardware_dimming cfg0);
    monad; try destruct restore_in_progress0;
    try destruct (hardware_profile _ _) as [[hs hd] hi];
    repeat split.
Qed.

Lemma dim_respects_switches_witness :
  exists s',
    dim (with_ctl (fun c => set_cfg (mkMonitorCfg false false 30 (1 # 2)) c)
           (sample_state false false 100 (Some 100)))
    = (Ok tt, s')
    /\ fade_timer (ctl s') = None
    /\ overlay (ctl s') = Some (sample_overlay false 0).
Proof.
  destruct (dim_respects_switches
              (with_ctl (fun c => set_cfg (mkMonitorCfg false false 30 (1 # 2)) c)
                 (sample_state false false 100 (Some 100))))
    as (s' & E & H & S).
  exists s'. split; [exact E|].
  split; [exact (proj1 (H eq_refl))|exact (proj1 (S eq_refl))].
Defined.

Lemma disable_hw_dimming_spec (s : State) :
  disable_hw_dimming s
  = (Ok tt,
     mkState
       (set_cfg (set_enable_hardware_dimming false (cfg (ctl s))) (ctl s))
       (match original_brightness (ctl s) with
        | Some b => if is_dimmed (ctl s)
                    then brightness_world b (ctl s) (world s)
                    else world s
        | None => world s
        end)).
Proof.
  destruct s as [c w]. destruct c.
  unfold disable_hw_dimming. monad.
  destruct original_brightness0 as [b|]; [|reflexivity].
  destruct is_dimmed0; [|reflexivity].
  rewrite set_brightness_spec. reflexivity.
Qed.

(** X16: [disable_hw_dimming] never raises and clears the hardware
    switch.  On a Dimmed controller whose monitor is attached and
    accepts the write it puts the original brightness back at once; on
    an Active controller it writes nothing.  It leaves the dim state
    and a running fade timer as they are. *)
Theorem disable_hw_dimming_effect (s : State) :
  exists s',
    disable_hw_dimming s = (Ok tt, s')
    /\ enable_hardware_dimming (cfg (ctl s')) = false
    /\ is_dimmed (ctl s') = is_dimmed (ctl s)
    /\ fade_timer (ctl s') = fade_timer (ctl s)
    /\ (is_dimmed (ctl s) = false -> world s' = world s)
    /\ (forall m b, is_dimmed (ctl s) = true ->
                    attached s = Some m ->
                    original_brightness (ctl s) = Some b ->
                    writable m = true ->
                    hardware_luminance s' = Some b).
Proof.
  rewrite disable_hw_dimming_spec. eexists. split; [reflexivity|].
  split; [destruct s as [c w]; destruct c; reflexivity|].
  split; [destruct s as [c w]; destruct c; reflexivity|].
  split; [destruct s as [c w]; destruct c; reflexivity|].
  split.
  - intros D. cbn [world]. rewrite D.
    now destruct (original_brightness (ctl s)).
  - intros m b D A B W. rewrite B, D.
    rewrite (brightness_world_luminance b (ctl s) _ (world s) m).
    + now rewrite W.
    + destruct s as [c w]; destruct c; reflexivity.
    + destruct s; exact A.
Qed.

Lemma disable_hw_dimming_effect_witness :
  exists s',
    disable_hw_dimming (sample_state true false 70 (Some 100)) = (Ok tt, s')
    /\ enable_hardware_dimming (cfg (ctl s')) = false
    /\ hardware_luminance s' = Some 100.
Proof.
  destruct (disable_hw_dimming_effect (sample_state true false 70 (Some 100)))
    as (s' & E & F & _ & _ & _ & H).
  exists s'. split; [exact E|]. split; [exact F|].
  apply (H (mkMonitor 70 true true) 100); reflexivity.
Defined.

(** X17: [disable_sw_dimming] never raises and clears the software
    switch.  On a Dimmed controller it hides the overlay and resets its
    opacity to 0.0; on an Active controller it leaves the overlay as it
    is.  The hardware is never touched. *)
Theorem disable_sw_dimming_effect (s : State) :
  exists s',
    disable_sw_dimming s = (Ok tt, s')
    /\ enable_software_dimming (cfg (ctl s')) = false
    /\ is_dimmed (ctl s') = is_dimmed (ctl s)
    /\ world s' = world s
    /\ overlay (ctl s')
       = (if is_dimmed (ctl s)
          then option_map (fun o => set_opacity_field 0 (set_visible false o))
                          (overlay (ctl s))
          else overlay (ctl s)).
Proof.
  destruct s as [c w]. destruct c.
  unfold disable_sw_dimming. monad.
  destruct overlay0 as [o|]; [destruct is_dimmed0|]; monad;
    (eexists; split; [reflexivity|]); monad; repeat split;
    now destruct is_dimmed0.
Qed.

(* ------------------------------------------------------------------ *)
(** ** Geometry refresh *)

Lemma rect_eqb_eq (a b : Z * Z * Z * Z) : rect_eqb a b = true <-> a = b.
Proof.
  destruct a as [[[a1 a2] a3] a4], b as [[[b1 b2] b3] b4]. unfold rect_eqb.
  rewrite !andb_true_iff, !Z.eqb_eq. split.
  - intros [[[-> ->] ->] ->]. reflexivity.
  - intros E. injection E as -> -> -> ->. repeat split.
Qed.

Lemma refreshed_geometry (c : Controller) (w : World) :
  geometry_of (refreshed c w) = system_geometry (display_index c) (screens w)
  /\ display_index (refreshed c w) = display_index c.
Proof.
  unfold refreshed.
  destruct (system_geometry (display_index c) (screens w))
    as [[[l t] wd] hg].
  destruct c. unfold geometry_of. monad.
  destruct overlay0 as [o|]; [destruct (negb _)|]; split; reflexivity.
Qed.

(** X18: [refresh_geometry] never raises and stores the rectangle of
    the display at [display_index] (the 800x600 default when the index
    is out of range); when that is the rectangle the controller already
    has, the call changes nothing, and a second call right after the
    first never changes anything. *)
Theorem refresh_geometry_idempotent (s : State) :
  exists s',
    refresh_geometry s = (Ok tt, s')
    /\ geometry_of (ctl s')
       = system_geometry (display_index (ctl s)) (screens (world s))
    /\ (system_geometry (display_index (ctl s)) (screens (world s))
        = geometry_of (ctl s) -> s' = s)
    /\ refresh_geometry s' = (Ok tt, s').
Proof.
  rewrite refresh_geometry_spec. eexists. split; [reflexivity|].
  cbn [ctl world].
  destruct (refreshed_geometry (ctl s) (world s)) as [G I].
  split; [exact G|].
  assert (N : forall c w,
             system_geometry (display_index c) (screens w) = geometry_of c ->
             refreshed c w = c).
  { intros c w E. unfold refreshed. rewrite E.
    destruct c. unfold geometry_of. monad.
    destruct overlay0 as [o|]; [|reflexivity].
    rewrite (proj2 (rect_eqb_eq _ _) eq_refl). reflexivity. }
  split.
  - intros E. rewrite (N _ _ E). now destruct s.
  - rewrite refresh_geometry_spec. cbn [ctl world].
    rewrite N; [reflexivity|]. now rewrite I, G.
Qed.

(** X19: the overlay follows the monitor: if the overlay covers the
    controller's rectangle before [refresh_geometry], it covers the
    refreshed rectangle afterwards. *)
Theorem refresh_geometry_moves_overlay (s : State) (o : OverlayWindow) :
  overlay (ctl s) = Some o ->
  ov_rect o = geometry_of (ctl s) ->
  exists s' o',
    refresh_geometry s = (Ok tt, s')
    /\ overlay (ctl s') = Some o'
    /\ ov_rect o' = geometry_of (ctl s')
    /\ visible o' = visible o
    /\ opacity o' = opacity o.
Proof.
  intros Ho Hr. rewrite refresh_geometry_spec.
  destruct s as [c w]. destruct c, w. destruct o as [v a r].
  unfold geometry_of in Hr. cbn in Ho, Hr. subst overlay0 r.
  unfold refreshed, geometry_of. monad.
  destruct (system_geometry display_index0 screens0) as [[[l t] wd] hg] eqn:G.
  monad.
  destruct (rect_eqb (l, t, wd, hg) (left0, top0, width0, height0)) eqn:R;
    cbn [negb]; eexists; eexists; (split; [reflexivity|]); monad.
  - apply rect_eqb_eq in R. injection R as -> -> -> ->.
    repeat split; trivial.
  - repeat split.
Qed.

Lemma refresh_geometry_moves_overlay_witness :
  exists s' o',
    refresh_geometry
      (mkState (sample_controller false 0 (Some 100))
               (mkWorld [mkMonitor 100 true true]
                        [mkScreen 1920 0 2560 1440] 100 (0, 0) false None
                        (sample_global false) []))
    = (Ok tt, s')
    /\ overlay (ctl s') = Some o'
    /\ ov_rect o' = geometry_of (ctl s')
    /\ visible o' = false
    /\ opacity o' = 0%Q.
Proof.
  apply (refresh_geometry_moves_overlay _ (sample_overlay false 0));
    reflexivity.
Defined.

(* ------------------------------------------------------------------ *)
(** ** The dim target never brightens *)

Lemma dim_target_clamps_level (level start : Z) :
  dim_target level start = dim_target (Z.max 0 (Z.min 100 level)) start.
Proof.
  unfold dim_target. cbv zeta.
  now replace (Z.max 0 (Z.min 100 (Z.max 0 (Z.min 100 level))))
    with (Z.max 0 (Z.min 100 level)) by lia.
Qed.

(** X20: for a start luminance in [0,100] the dim target never exceeds
    the start and is never negative, whatever level is configured; a
    level of 100 or more gives 0 and a level of 0 or less gives the
    start itself. *)
Theorem dim_target_never_brightens (level start : Z) :
  0 <= start <= 100 ->
  0 <= dim_target level start <= start
  /\ (100 <= level -> dim_target level start = 0)
  /\ (level <= 0 -> dim_target level start = start).
Proof.
  intros S. rewrite (dim_target_clamps_level level start).
  set (l := Z.max 0 (Z.min 100 level)).
  assert (Hl : 0 <= l <= 100) by (unfold l; lia).
  destruct (target_checked l start Hl S)
    as (_ & _ & _ & _ & C1 & C2 & C3 & _).
  destruct (dim_target_range l start) as [R0 _].
  split; [lia|]. split; intros H.
  - apply C2. unfold l. lia.
  - apply C3. unfold l. lia.
Qed.

Lemma dim_target_never_brightens_witness :
  0 <= dim_target 30 100 <= 100
  /\ (100 <= 30 -> dim_target 30 100 = 0)
  /\ (30 <= 0 -> dim_target 30 100 = 100).
Proof.
  apply dim_target_never_brightens. lia.
Defined.

(** X21: a higher dim level never gives a brighter target, and a
    brighter start never gives a darker target. *)
Theorem dim_target_monotone (level level' start start' : Z) :
  0 <= start <= start' ->
  level <= level' ->
  dim_target level' start <= dim_target level start
  /\ dim_target level start <= dim_target level start'.
Proof.
  intros S L. unfold dim_target. cbv zeta.
  set (l := Z.max 0 (Z.min 100 level)).
  set (l' := Z.max 0 (Z.min 100 level')).
  destruct (dim_scale_antitone l l') as [F0 F1]; [unfold l, l'; lia ..|].
  pose proof (of_int_nonneg start ltac:(lia)) as X0.
  split.
  - apply scaled_monotone; trivial. apply Qle_refl.
  - apply scaled_monotone; trivial.
    + now apply of_int_monotone.
    + exact (Qle_trans _ _ _ F0 F1).
    + apply Qle_refl.
Qed.

Lemma dim_target_monotone_witness :
  dim_target 60 80 <= dim_target 30 80
  /\ dim_target 30 80 <= dim_target 30 100.
Proof.
  apply dim_target_monotone; lia.
Defined.

(* ------------------------------------------------------------------ *)
(** ** What every method keeps true *)

Lemma hardware_profile_steps (g : GlobalCfg) (down : bool) :
  1 <= fst (fst (hardware_profile g down)).
Proof.
  unfold hardware_profile. cbn [fst].
  destruct down;
    match goal with |- context [?n <=? 0] => destruct (Z.leb_spec n 0) end;
    lia.
Qed.

Lemma immediate_restore_restored (s : State) :
  immediate_restore s = (Ok tt, restored s).
Proof. rewrite immediate_restore_spec. reflexivity. Qed.

Lemma set_indices_spec (display_idx ddc_idx : Z) (s : State) :
  set_indices display_idx ddc_idx s
  = (Ok tt, mkState (reindexed display_idx ddc_idx s) (world s)).
Proof.
  destruct s as [c w]. destruct c, w.
  unfold set_indices, reindexed, get_luminance. monad.
  destruct (Py.in_range (Z.max 0 ddc_idx) ddc_monitors0) eqn:R; monad.
  - destruct (nth_error_in_range _ _ R) as [m Hm]. rewrite Hm.
    destruct (readable m); monad; rewrite refresh_geometry_spec; reflexivity.
  - rewrite refresh_geometry_spec. reflexivity.
Qed.

Lemma check_inactivity_spec (s : State) :
  exists active,
    is_monitor_active s = (Ok active, s)
    /\ check_inactivity s = (Ok tt, ticked active s).
Proof.
  rewrite is_monitor_active_spec. eexists. split; [reflexivity|].
  unfold check_inactivity, ticked.
  unfold bind at 1. unfold env at 1.
  destruct (awake_mode (global_cfg (world s))).
  - unfold bind at 1. unfold self at 1.
    destruct (is_dimmed (ctl s)); [apply restore_dim_spec|reflexivity].
  - unfold bind at 1. rewrite is_monitor_active_spec.
    destruct (cursor_in_rect (ctl s) (world s) || _).
    + unfold bind at 1. unfold update at 1.
      unfold bind at 1. unfold self at 1.
      destruct (is_dimmed (ctl (with_ctl _ s)));
        [apply restore_dim_spec|reflexivity].
    + unfold bind at 1. unfold self at 1.
      destruct (Qle_bool _ _ && negb _); [apply dim_spec|reflexivity].
Qed.

Lemma fade_timer_timeout_spec (s : State) :
  fade_timer_timeout s
  = (Ok tt,
     if timer_active (ctl s)
     then mkState (after_tick (ctl s))
                  (brightness_world (fade_applied (bump (ctl s))) (ctl s)
                                    (world s))
     else s).
Proof.
  unfold fade_timer_timeout. unfold bind at 1. unfold self at 1.
  destruct (timer_active (ctl s)); [apply _do_fade_spec|reflexivity].
Qed.

Lemma Inv_restored (s : State) : Inv (ctl s) -> Inv (ctl (restored s)).
Proof.
  destruct s as [c w]. destruct c.
  unfold Inv, restored, timer_active, geometry_of. monad.
  intros (M & T & o & Ho & Hr). subst overlay0.
  destruct fade_timer0 as [[i [|]]|]; monad;
    (split; [exact M|]); (split; [discriminate|]);
    eexists; (split; [reflexivity|]); destruct o; exact Hr.
Qed.

Lemma Inv_dimmed (s : State) : Inv (ctl s) -> Inv (ctl (dimmed s)).
Proof.
  intros (M & T & o & Ho & Hr).
  pose proof (hardware_profile_steps (global_cfg (world s)) true) as P.
  destruct s as [c w]. destruct c, w.
  unfold Inv, dimmed, software_dimmed, planned, timer_active, geometry_of
    in *.
  revert M T Ho Hr P. monad. intros M T Ho Hr P. subst overlay0.
  destruct is_dimmed0;
    [split; [exact M|]; split; [exact T|]; now exists o|].
  destruct (enable_software_dimming cfg0);
    try destruct (overlay_profile _ _ _) as [[[st tt'] so] dl];
    destruct original_brightness0 as [b|];
    try destruct (enable_hardware_dimming cfg0);
    monad; try destruct restore_in_progress0;
    try (destruct (hardware_profile global_cfg0 true) as [[hs hd] hi];
         cbn [fst] in P);
    monad;
    (split; [exact M|]);
    (split; [first [exact T | intros _; split; [reflexivity|lia]]|]);
    eexists; (split; [reflexivity|]);
    unfold overlay_stepped;
    repeat match goal with |- context [if ?b then _ else _] => destruct b end;
    destruct o; exact Hr.
Qed.

Lemma Inv_after_tick (c : Controller) :
  Inv c -> timer_active c = true -> Inv (after_tick c).
Proof.
  intros (M & T & o & Ho & Hr) A.
  destruct (T A) as [R K].
  destruct (bump_fields c) as (_ & _ & Bn & _ & Bk).
  unfold after_tick.
  destruct (fade_done (bump c)) eqn:D.
  - destruct c. unfold Inv, timer_active, geometry_of in *. revert M Ho Hr.
    monad. intros M Ho Hr.
    split; [exact M|]. split.
    + destruct fade_timer0 as [[i a]|]; discriminate.
    + now exists o.
  - assert (G : current_fade_step c + 1 < fade_steps c).
    { unfold fade_done in D. apply orb_false_iff in D. destruct D as [_ D].
      apply Z.leb_gt in D. lia. }
    destruct c. unfold Inv, timer_active, geometry_of, bump in *.
    revert M R K G Ho Hr A. monad. intros M R K G Ho Hr A.
    split; [exact M|]. split; [intros _; split; [exact R|lia]|].
    now exists o.
Qed.

Lemma Inv_refreshed (c : Controller) (w : World) :
  (original_brightness c <> None -> monitorcontrol_monitor c <> None) ->
  (timer_active c = true ->
   restore_in_progress c = true /\ 0 <= current_fade_step c < fade_steps c) ->
  (exists o, overlay c = Some o) ->
  (forall o, overlay c = Some o ->
             ov_rect o = geometry_of c
             \/ geometry_of c
                <> system_geometry (display_index c) (screens w)) ->
  Inv (refreshed c w).
Proof.
  intros M T (o & Ho) R.
  specialize (R o Ho).
  destruct c, w. destruct o as [v a r].
  unfold Inv, refreshed, timer_active, geometry_of in *.
  revert M T Ho R. monad. intros M T Ho R. subst overlay0.
  destruct (system_geometry display_index0 screens0) as [[[l t] wd] hg].
  monad.
  destruct (rect_eqb (l, t, wd, hg) (left0, top0, width0, height0)) eqn:E;
    cbn [negb]; monad;
    (split; [exact M|]); (split; [exact T|]);
    eexists; (split; [reflexivity|]); monad.
  - apply rect_eqb_eq in E. injection E as -> -> -> ->.
    destruct R as [R|R]; [exact R|now elim R].
  - reflexivity.
Qed.

Lemma Inv_refresh (s : State) :
  Inv (ctl s) -> Inv (refreshed (ctl s) (world s)).
Proof.
  intros (M & T & o & Ho & Hr).
  apply Inv_refreshed; trivial; [now exists o|].
  intros o' Ho'. left. congruence.
Qed.

Lemma Inv_reindexed (display_idx ddc_idx : Z) (s : State) :
  Inv (ctl s) -> Inv (reindexed display_idx ddc_idx s).
Proof.
  intros (M & T & o & Ho & Hr). unfold reindexed.
  match goal with |- Inv (refreshed ?c _) => set (c2 := c) end.
  assert (F : overlay c2 = overlay (ctl s)
              /\ geometry_of c2 = geometry_of (ctl s)
              /\ timer_active c2 = timer_active (ctl s)
              /\ restore_in_progress c2 = restore_in_progress (ctl s)
              /\ current_fade_step c2 = current_fade_step (ctl s)
              /\ fade_steps c2 = fade_steps (ctl s)
              /\ (original_brightness c2 <> None ->
                  monitorcontrol_monitor c2 <> None)).
  { unfold c2.
    destruct (Py.in_range _ _);
      [destruct (nth_error _ _) as [m|]; [destruct (readable m)|]|];
      destruct (ctl s); repeat split; try discriminate;
      intros H; now elim H. }
  destruct F as (Fo & Fg & Ft & Fr & Fk & Fn & Fm).
  apply Inv_refreshed.
  - exact Fm.
  - now rewrite Ft, Fr, Fk, Fn.
  - exists o. now rewrite Fo.
  - intros o' Ho'. left. rewrite Fo in Ho'. rewrite Fg. congruence.
Qed.

Lemma Inv_fire_singleshot (s : State) :
  Inv (ctl s) ->
  exists s', fire_singleshot s = (Ok tt, s') /\ Inv (ctl s').
Proof.
  intros (M & T & o & Ho & Hr).
  destruct (singleshots (world s)) as [|cb rest] eqn:Q.
  - exists s. split.
    + unfold fire_singleshot. unfold bind, env. now rewrite Q.
    + split; [exact M|]. split; [exact T|]. now exists o.
  - rewrite (fire_singleshot_spec s o cb rest Ho Q).
    eexists. split; [reflexivity|].
    destruct s as [c w]. destruct c.
    unfold Inv, timer_active, geometry_of in *.
    revert M T Ho Hr. monad. intros M T Ho Hr.
    split; [exact M|]. split; [exact T|].
    eexists. split; [reflexivity|].
    unfold overlay_stepped.
    repeat match goal with |- context [if ?b then _ else _] => destruct b end;
      destruct o; exact Hr.
Qed.

Lemma Inv_set_cfg (v : MonitorCfg) (c : Controller) :
  Inv c -> Inv (set_cfg v c).
Proof. destruct c. exact (fun H => H). Qed.

Lemma Inv_set_last_active (v : Q) (c : Controller) :
  Inv c -> Inv (set_last_active v c).
Proof. destruct c. exact (fun H => H). Qed.

Lemma Inv_ticked (active : bool) (s : State) :
  Inv (ctl s) -> Inv (ctl (ticked active s)).
Proof.
  intros I. unfold ticked.
  destruct (awake_mode _).
  - destruct (is_dimmed (ctl s)); [now apply Inv_restored|exact I].
  - destruct active.
    + assert (I1 : Inv (ctl (with_ctl (set_last_active (clock (world s))) s)))
        by (apply Inv_set_last_active; exact I).
      destruct (is_dimmed _); [now apply Inv_restored|exact I1].
    + destruct (Qle_bool _ _ && negb _); [now apply Inv_dimmed|exact I].
Qed.

Lemma Inv_disable_sw (s : State) :
  Inv (ctl s) ->
  exists s', disable_sw_dimming s = (Ok tt, s') /\ Inv (ctl s').
Proof.
  intros (M & T & o & Ho & Hr).
  destruct s as [c w]. destruct c.
  unfold Inv, timer_active, geometry_of, disable_sw_dimming in *.
  revert M T Ho Hr. monad. intros M T Ho Hr. subst overlay0.
  destruct is_dimmed0; monad; (eexists; split; [reflexivity|]); monad;
    (split; [exact M|]); (split; [exact T|]);
    eexists; (split; [reflexivity|]); destruct o; exact Hr.
Qed.

(** Every entry point, called on a controller that satisfies [Inv],
    returns normally and leaves a controller that satisfies [Inv]. *)
Lemma run_op_keeps_Inv (op : Op) (s : State) :
  Inv (ctl s) ->
  exists s', run_op op s = (Ok tt, s') /\ Inv (ctl s').
Proof.
  intros I. destruct op; cbn [run_op].
  - destruct (check_inactivity_spec s) as (b & _ & E).
    rewrite E. eexists. split; [reflexivity|]. now apply Inv_ticked.
  - rewrite fade_timer_timeout_spec. eexists. split; [reflexivity|].
    destruct (timer_active (ctl s)) eqn:A; [|exact I].
    now apply Inv_after_tick.
  - now apply Inv_fire_singleshot.
  - rewrite dim_spec. eexists. split; [reflexivity|]. now apply Inv_dimmed.
  - rewrite restore_dim_spec. eexists. split; [reflexivity|].
    now apply Inv_restored.
  - rewrite immediate_restore_restored. eexists. split; [reflexivity|].
    now apply Inv_restored.
  - rewrite set_indices_spec. eexists. split; [reflexivity|].
    now apply Inv_reindexed.
  - rewrite refresh_geometry_spec. eexists. split; [reflexivity|].
    now apply Inv_refresh.
  - rewrite disable_hw_dimming_spec. eexists. split; [reflexivity|].
    now apply Inv_set_cfg.
  - now apply Inv_disable_sw.
Qed.

Lemma run_events_keep_Inv (es : list Event) :
  forall s, Inv (ctl s) ->
  exists s', run_events es s = (Ok tt, s') /\ Inv (ctl s').
Proof.
  induction es as [|[op|f] es IH]; intros s I; cbn [run_events].
  - now exists s.
  - destruct (run_op_keeps_Inv op s I) as (s1 & E & I1).
    rewrite E. now apply IH.
  - apply IH. exact I.
Qed.

Lemma constructed (monitor_cfg : MonitorCfg) (display_idx ddc_idx : Z)
    (w : World) :
  exists s,
    __init__ monitor_cfg display_idx ddc_idx w = (Ok tt, s)
    /\ world s = w
    /\ is_dimmed (ctl s) = false
    /\ timer_active (ctl s) = false
    /\ last_active (ctl s) = clock w
    /\ geometry_of (ctl s) = system_geometry display_idx (screens w)
    /\ overlay (ctl s) = Some (mkOverlay false 0 (geometry_of (ctl s)))
    /\ original_brightness (ctl s) = fresh_read s
    /\ (0 <= ddc_idx < Z.of_nat (length (ddc_monitors w)) ->
        monitorcontrol_monitor (ctl s) = Some (Z.to_nat ddc_idx)
        /\ exists m,
             nth_error (ddc_monitors w) (Z.to_nat ddc_idx) = Some m
             /\ attached s = Some m
             /\ original_brightness (ctl s)
                = (if readable m then Some (luminance m) else None))
    /\ (~ (0 <= ddc_idx < Z.of_nat (length (ddc_monitors w))) ->
        monitorcontrol_monitor (ctl s) = None
        /\ original_brightness (ctl s) = None)
    /\ Inv (ctl s).
Proof.
  destruct w.
  unfold __init__, init_monitor, new_controller, get_luminance. monad.
  assert (G : forall c : Controller,
             exists l t wd hg,
               system_geometry display_idx screens0 = (l, t, wd, hg)).
  { intros _. destruct (system_geometry display_idx screens0)
      as [[[l t] wd] hg]. now exists l, t, wd, hg. }
  destruct (G (new_controller monitor_cfg 0 0 0)) as (l & t & wd & hg & Eg).
  destruct (Py.in_range ddc_idx ddc_monitors0) eqn:R; monad.
  - destruct (nth_error_in_range _ _ R) as [m Hm]. rewrite Hm.
    assert (Rg : 0 <= ddc_idx < Z.of_nat (length ddc_monitors0)).
    { unfold Py.in_range in R. apply andb_true_iff in R.
      destruct R as [R0 R1]. apply Z.leb_le in R0. apply Z.ltb_lt in R1.
      lia. }
    destruct (readable m) eqn:Hr; monad;
      rewrite _update_geometry_from_system_spec; monad; rewrite Eg; monad;
      (eexists; split; [reflexivity|]);
      unfold timer_active, geometry_of, fresh_read, attached, Inv; monad;
      rewrite Hm, Hr;
      (do 7 (split; [reflexivity|]));
      (split; [intros _; split; [reflexivity|];
               exists m; rewrite Hr; repeat split; reflexivity|]);
      (split; [intros N; now elim N|]);
      repeat split; trivial; try discriminate; try lia;
      try (intros N; now elim N);
      eexists; split; reflexivity.
  - assert (Rg : ~ (0 <= ddc_idx < Z.of_nat (length ddc_monitors0))).
    { unfold Py.in_range in R. apply andb_false_iff in R.
      destruct R as [R|R]; [apply Z.leb_gt in R|apply Z.ltb_ge in R]; lia. }
    rewrite _update_geometry_from_system_spec; monad; rewrite Eg; monad.
    eexists. split; [reflexivity|].
    unfold timer_active, geometry_of, fresh_read, attached, Inv; monad.
    (do 7 (split; [reflexivity|])).
    split; [intros N; now elim Rg|].
    repeat split; trivial; try discriminate;
      try (intros N; now elim N).
    eexists; split; reflexivity.
Qed.

(** X22: constructing a controller never raises, whatever the indices
    and the hardware.  The new controller is Active with no fade
    running, stamped with the current time; its overlay exists, is
    hidden with opacity 0.0 and covers the rectangle of the display at
    [display_index] (800x600 at the origin when the index is out of
    range); [original_brightness] is what the probe of the monitor at
    [ddc_index] returned.  A [ddc_index] inside the enumeration
    attaches the monitor at that index, and [original_brightness] is its
    luminance when it answers the read and [None] when it does not; a
    [ddc_index] outside the enumeration, a negative one included,
    attaches no monitor and leaves [original_brightness] [None]. *)
Theorem construction (monitor_cfg : MonitorCfg) (display_idx ddc_idx : Z)
    (w : World) :
  exists s,
    __init__ monitor_cfg display_idx ddc_idx w = (Ok tt, s)
    /\ world s = w
    /\ is_dimmed (ctl s) = false
    /\ timer_active (ctl s) = false
    /\ last_active (ctl s) = clock w
    /\ geometry_of (ctl s) = system_geometry display_idx (screens w)
    /\ overlay (ctl s) = Some (mkOverlay false 0 (geometry_of (ctl s)))
    /\ original_brightness (ctl s) = fresh_read s
    /\ (0 <= ddc_idx < Z.of_nat (length (ddc_monitors w)) ->
        monitorcontrol_monitor (ctl s) = Some (Z.to_nat ddc_idx)
        /\ exists m,
             nth_error (ddc_monitors w) (Z.to_nat ddc_idx) = Some m
             /\ attached s = Some m
             /\ original_brightness (ctl s)
                = (if readable m then Some (luminance m) else None))
    /\ (~ (0 <= ddc_idx < Z.of_nat (length (ddc_monitors w))) ->
        monitorcontrol_monitor (ctl s) = None
        /\ original_brightness (ctl s) = None)
    /\ Inv (ctl s).
Proof.
  destruct (constructed monitor_cfg display_idx ddc_idx w) as (s & H).
  exists s. exact H.
Qed.

(** X23: after construction, whatever entry points are called in
    whatever order (activity tick, fade timer, overlay closures, [dim],
    [restore_dim], [immediate_restore], [set_indices] with any
    integers, [refresh_geometry], the two disable methods) and however
    the hardware, the displays, the cursor, the clock and the
    configuration change in between, no call raises, and the controller
    keeps [Inv]: a known original brightness comes with an attached
    monitor, a running fade timer comes with [restore_in_progress] and
    a step counter below the step count, and the overlay exists and
    covers the controller's rectangle. *)
Theorem no_call_sequence_raises (monitor_cfg : MonitorCfg)
    (display_idx ddc_idx : Z) (w : World) (es : list Event) :
  exists s0 s',
    __init__ monitor_cfg display_idx ddc_idx w = (Ok tt, s0)
    /\ run_events es s0 = (Ok tt, s')
    /\ Inv (ctl s').
Proof.
  destruct (constructed monitor_cfg display_idx ddc_idx w)
    as (s0 & E & _ & _ & _ & _ & _ & _ & _ & _ & _ & I).
  destruct (run_events_keep_Inv es s0 I) as (s' & R & I').
  now exists s0, s'.
Qed.

(* ------------------------------------------------------------------ *)
(** ** Restoring twice *)

Lemma list_update_twice {A} (n : nat) (x y : A) (l : list A) :
  list_update n x (list_update n y l) = list_update n x l.
Proof.
  revert n; induction l as [|a l IH]; intros [|n]; cbn; trivial.
  now rewrite IH.
Qed.

Lemma brightness_world_twice (b : Z) (c c' : Controller) (w : World) :
  monitorcontrol_monitor c' = monitorcontrol_monitor c ->
  brightness_world b c' (brightness_world b c w) = brightness_world b c w.
Proof.
  intros E. unfold brightness_world. rewrite E.
  destruct (monitorcontrol_monitor c) as [h|]; [|reflexivity].
  destruct (nth_error (ddc_monitors w) h) as [m|] eqn:N;
    [|now rewrite N].
  destruct (writable m) eqn:W; [|now rewrite N, W].
  destruct w. cbn [ddc_monitors set_ddc_monitors] in *.
  rewrite (nth_error_list_update _ _ _ _ N).
  destruct m. cbn [writable set_luminance_field luminance readable] in *.
  rewrite W, list_update_twice. reflexivity.
Qed.

Lemma restored_twice (s : State) : restored (restored s) = restored s.
Proof.
  destruct s as [c w]. destruct c. unfold restored. monad.
  destruct fade_timer0 as [[i [|]]|]; destruct overlay0 as [o|];
    destruct original_brightness0 as [b|]; monad;
    rewrite ?brightness_world_twice by reflexivity; reflexivity.
Qed.

(** X24: [restore_dim] and [immediate_restore] have the same effect
    from every state, and restoring twice in a row leaves exactly the
    state that restoring once leaves. *)
Theorem restore_idempotent (s : State) :
  immediate_restore s = restore_dim s
  /\ (restore_dim ;; restore_dim) s = restore_dim s
  /\ (immediate_restore ;; immediate_restore) s = immediate_restore s.
Proof.
  split; [|split].
  - now rewrite immediate_restore_restored, restore_dim_spec.
  - unfold bind. now rewrite !restore_dim_spec, restored_twice.
  - unfold bind. now rewrite !immediate_restore_restored, restored_twice.
Qed.

(* ------------------------------------------------------------------ *)
(** ** Loops over the controllers *)

Lemma same_env_refl (w : World) : same_env w w.
Proof. now split. Qed.

Lemma same_env_trans (w1 w2 w3 : World) :
  same_env w1 w2 -> same_env w2 w3 -> same_env w1 w3.
Proof. intros [A B] [C D]. split; congruence. Qed.

Lemma brightness_world_env (b : Z) (c : Controller) (w : World) :
  same_env w (brightness_world b c w).
Proof.
  unfold brightness_world.
  destruct (monitorcontrol_monitor c) as [h|]; [|apply same_env_refl].
  destruct (nth_error (ddc_monitors w) h) as [m|]; [|apply same_env_refl].
  destruct (writable m); [|apply same_env_refl].
  destruct w; split; reflexivity.
Qed.

Lemma restored_env (s : State) : same_env (world s) (world (restored s)).
Proof.
  unfold restored. cbn [world].
  destruct (original_brightness (ctl s));
    [apply brightness_world_env|apply same_env_refl].
Qed.

Lemma dimmed_env (s : State) : same_env (world s) (world (dimmed s)).
Proof.
  destruct s as [c w]. destruct c, w.
  unfold same_env, dimmed, software_dimmed, planned. monad.
  destruct is_dimmed0; [now split|].
  destruct overlay0 as [o|]; [destruct (enable_software_dimming cfg0)|];
    try destruct (overlay_profile _ _ _) as [[[st tt'] so] dl];
    destruct original_brightness0 as [b|];
    try destruct (enable_hardware_dimming cfg0);
    monad; try destruct restore_in_progress0;
    try destruct (hardware_profile _ _) as [[hs hd] hi];
    split; reflexivity.
Qed.

Lemma ticked_env (active : bool) (s : State) :
  same_env (world s) (world (ticked active s)).
Proof.
  unfold ticked.
  destruct (awake_mode _).
  - destruct (is_dimmed (ctl s)); [apply restored_env|apply same_env_refl].
  - destruct active.
    + destruct (is_dimmed _); [|apply same_env_refl].
      apply (restored_env (with_ctl _ s)).
    + destruct (_ && _); [apply dimmed_env|apply same_env_refl].
Qed.

(** A loop over the controllers with a method that always returns
    normally: it returns normally, visits every controller, and what
    the method guarantees of one controller holds of all of them. *)
Lemma each_controller_Forall (method : M unit) (P Q : Controller -> Prop)
    (w0 : World) :
  (forall s, P (ctl s) -> same_env w0 (world s) ->
     exists s', method s = (Ok tt, s')
                /\ Q (ctl s') /\ same_env w0 (world s')) ->
  forall cs w,
    Forall P cs -> same_env w0 w ->
    exists cs' w',
      each_controller method cs w = (Ok tt, (cs', w'))
      /\ Forall Q cs' /\ same_env w0 w' /\ length cs' = length cs.
Proof.
  intros H. induction cs as [|c cs IH]; intros w F K; cbn [each_controller].
  - exists [], w.
    split; [reflexivity|]. split; [constructor|]. now split.
  - inversion F as [|? ? Pc Fcs]; subst.
    destruct (H (mkState c w) Pc K) as (s' & E & Qs & Ks).
    rewrite E.
    destruct (IH (world s') Fcs Ks) as (cs' & w' & E' & Fq & K' & Len).
    rewrite E'. exists (ctl s' :: cs'), w'.
    split; [reflexivity|]. split; [now constructor|].
    split; [exact K'|]. cbn. now rewrite Len.
Qed.

Lemma Forall_True {A} (l : list A) : Forall (fun _ => True) l.
Proof. induction l; constructor; trivial. Qed.

Lemma restore_and_stamp_spec (s : State) :
  restore_and_stamp s
  = (Ok tt,
     with_ctl (set_last_active (clock (world (restored s)))) (restored s)).
Proof.
  unfold restore_and_stamp. unfold bind at 1. rewrite restore_dim_spec.
  reflexivity.
Qed.

Lemma for_controllers_Forall (method : M unit) (P Q : Controller -> Prop)
    (a : MainWindow) :
  (forall s, P (ctl s) -> same_env (shared a) (world s) ->
     exists s', method s = (Ok tt, s')
                /\ Q (ctl s') /\ same_env (world s) (world s')) ->
  Forall P (controllers a) ->
  exists a',
    for_controllers method a = (Ok tt, a')
    /\ Forall Q (controllers a')
    /\ same_env (shared a) (shared a')
    /\ _pause_timer a' = _pause_timer a
    /\ _pause_update_timer a' = _pause_update_timer a
    /\ length (controllers a') = length (controllers a).
Proof.
  intros H F. unfold for_controllers.
  destruct (each_controller_Forall method P Q (shared a)) with
    (cs := controllers a) (w := shared a)
    as (cs' & w' & E & Fq & K & Len); trivial.
  - intros s Ps Ks. destruct (H s Ps Ks) as (s' & E & Qs & Ks').
    exists s'. split; [exact E|]. split; [exact Qs|].
    eapply same_env_trans; eassumption.
  - apply same_env_refl.
  - rewrite E. eexists. split; [reflexivity|]. cbn. repeat split; trivial;
      apply K.
Qed.

(* ------------------------------------------------------------------ *)
(** ** Awake mode and pause *)

Lemma pause_active_stop_if_active (cs : list Controller) (w : World)
    (t u : option QTimer) :
  pause_active (mkMainWindow cs w (stop_if_active t) u) = false.
Proof.
  unfold pause_active, stop_if_active. cbn.
  destruct t as [[i [|]]|]; reflexivity.
Qed.

(** X25: switching awake mode off never raises; it stops a running
    pause timer, stamps every controller's [last_active] with the
    current time and leaves every dim state as it was.  So each
    controller starts a fresh idle period: with a positive
    [inactivity_limit], a tick right after does not dim an Active
    controller. *)
Theorem awake_off_resets_idle_timers (a : MainWindow) :
  exists a',
    on_awake_toggled false a = (Ok tt, a')
    /\ awake_mode (global_cfg (shared a')) = false
    /\ pause_active a' = false
    /\ Forall (fun c => last_active c = clock (shared a)) (controllers a')
    /\ map is_dimmed (controllers a') = map is_dimmed (controllers a)
    /\ ((0 < inactivity_limit (global_cfg (shared a)))%Q ->
        forall c, In c (controllers a') -> is_dimmed c = false ->
        exists s', check_inactivity (mkState c (shared a')) = (Ok tt, s')
                   /\ is_dimmed (ctl s') = false).
Proof.
  unfold on_awake_toggled. cbn [negb]. eexists. split; [reflexivity|].
  cbn [shared controllers].
  assert (L : Forall (fun c => last_active c = clock (shared a))
                (map (set_last_active
                        (clock (set_global_cfg
                                  (set_awake_mode false (global_cfg (shared a)))
                                  (shared a))))
                     (controllers a))).
  { apply Forall_forall. intros c Hc. apply in_map_iff in Hc.
    destruct Hc as (c0 & <- & _). destruct c0, (shared a). reflexivity. }
  split; [destruct (shared a); reflexivity|].
  split; [apply pause_active_stop_if_active|].
  split; [exact L|].
  split.
  { rewrite map_map. apply map_ext. intros c. now destruct c. }
  intros Pos c Hc D.
  rewrite Forall_forall in L. specialize (L c Hc).
  set (w := set_global_cfg _ _).
  destruct (check_inactivity_spec (mkState c w)) as (b & _ & E).
  rewrite E. eexists. split; [reflexivity|].
  unfold ticked. cbn [ctl world].
  assert (Aw : awake_mode (global_cfg w) = false)
    by (unfold w; destruct (shared a); reflexivity).
  assert (Lim : inactivity_limit (global_cfg w)
                = inactivity_limit (global_cfg (shared a)))
    by (unfold w; destruct (shared a); reflexivity).
  assert (Ck : clock w = clock (shared a))
    by (unfold w; destruct (shared a); reflexivity).
  rewrite Aw. destruct b.
  - replace (is_dimmed (ctl (with_ctl (set_last_active (clock w))
                                      (mkState c w))))
      with false by (destruct c; cbn in *; now subst).
    destruct c; cbn in *; now subst.
  - rewrite Lim, Ck, L.
    replace (Qle_bool (inactivity_limit (global_cfg (shared a)))
                      (clock (shared a) - clock (shared a))) with false.
    + exact D.
    + symmetry. apply Qle_bool_false.
      setoid_replace (clock (shared a) - clock (shared a))%Q with 0%Q by ring.
      exact Pos.
Qed.

Lemma awake_off_resets_idle_timers_witness :
  exists s',
    check_inactivity
      (mkState (set_last_active 100 (sample_controller false 0 (Some 100)))
               (set_global_cfg (sample_global false)
                               (shared (sample_window true))))
    = (Ok tt, s')
    /\ is_dimmed (ctl s') = false.
Proof.
  destruct (awake_off_resets_idle_timers (sample_window true))
    as (a' & E & _ & _ & _ & _ & H).
  injection E as <-.
  apply H; [reflexivity|left; reflexivity|reflexivity].
Defined.

Lemma pause_dimming_spec (minutes : Z) (a : MainWindow) :
  pause_dimming minutes a
  = (Ok tt,
     mkMainWindow (controllers a)
       (set_global_cfg (set_awake_mode true (global_cfg (shared a)))
                       (shared a))
       (Some (mkTimer (Z.max 1 minutes * 60 * 1000) true))
       (Some (mkTimer 30000 true))).
Proof.
  unfold pause_dimming, on_awake_toggled. destruct a as [cs w p u].
  cbn [shared controllers _pause_timer _pause_update_timer negb].
  destruct (awake_mode (global_cfg w)) eqn:A; cbn [negb]; [|reflexivity].
  destruct w. destruct global_cfg0. cbn in A. subst. reflexivity.
Qed.

(** X26: [pause_dimming] never raises; it switches awake mode on and
    starts a single-shot pause timer of [max(1, minutes)] minutes (so a
    pause of zero or fewer minutes lasts one minute), leaving the
    controllers as they are.  When that timer expires awake mode is
    off again, no pause timer runs, and every controller's
    [last_active] is the time of the expiry. *)
Theorem pause_then_expiry (minutes : Z) (a : MainWindow)
    (f : World -> World) :
  exists a1 a2,
    pause_dimming minutes a = (Ok tt, a1)
    /\ awake_mode (global_cfg (shared a1)) = true
    /\ _pause_timer a1 = Some (mkTimer (Z.max 1 minutes * 60000) true)
    /\ controllers a1 = controllers a
    /\ pause_timer_timeout
         (mkMainWindow (controllers a1) (outside f (shared a1))
                       (_pause_timer a1) (_pause_update_timer a1))
       = (Ok tt, a2)
    /\ awake_mode (global_cfg (shared a2)) = false
    /\ pause_active a2 = false
    /\ Forall (fun c => last_active c = clock (f (shared a1)))
              (controllers a2).
Proof.
  rewrite pause_dimming_spec. eexists. eexists.
  split; [reflexivity|].
  cbn [shared controllers _pause_timer _pause_update_timer].
  split; [destruct (shared a); reflexivity|].
  split; [f_equal; f_equal; lia|].
  split; [reflexivity|].
  unfold pause_timer_timeout, pause_active, _pause_timeout, on_awake_toggled.
  cbn [shared controllers _pause_timer _pause_update_timer isActive negb
       option_map stop_if_active stop].
  split; [reflexivity|].
  cbn [shared controllers _pause_timer _pause_update_timer isActive].
  split; [unfold outside; destruct (f _); reflexivity|].
  split; [reflexivity|].
  apply Forall_forall. intros c Hc. apply in_map_iff in Hc.
  destruct Hc as (c0 & <- & _).
  unfold outside. destruct c0, (f _). reflexivity.
Qed.

(** X27: a manual toggle during a pause cancels the pause: after
    [pause_dimming] then [toggle_awake_mode], awake mode is off and the
    pause timer is stopped, and a late expiry of that timer changes
    nothing. *)
Theorem manual_toggle_cancels_pause (minutes : Z) (a : MainWindow) :
  exists a1 a2,
    pause_dimming minutes a = (Ok tt, a1)
    /\ toggle_awake_mode a1 = (Ok tt, a2)
    /\ awake_mode (global_cfg (shared a2)) = false
    /\ pause_active a2 = false
    /\ pause_timer_timeout a2 = (Ok tt, a2).
Proof.
  rewrite pause_dimming_spec. eexists. eexists.
  split; [reflexivity|].
  unfold toggle_awake_mode, on_awake_toggled.
  cbn [shared controllers _pause_timer _pause_update_timer isActive negb
       stop_if_active stop_if_present option_map stop].
  replace (awake_mode
             (global_cfg
                (set_global_cfg (set_awake_mode true (global_cfg (shared a)))
                                (shared a))))
    with true by (destruct (shared a); reflexivity).
  cbn [negb stop_if_active stop_if_present option_map stop isActive].
  split; [reflexivity|].
  cbn [shared].
  split; [destruct (shared a); reflexivity|].
  split; reflexivity.
Qed.

(* ------------------------------------------------------------------ *)
(** ** What the window keeps true *)

Lemma loop_keeps_WindowInv (method : M unit) (a : MainWindow) :
  (forall s, Inv (ctl s) ->
     exists s', method s = (Ok tt, s')
                /\ Inv (ctl s') /\ same_env (world s) (world s')) ->
  WindowInv a ->
  exists a', for_controllers method a = (Ok tt, a') /\ WindowInv a'.
Proof.
  intros H [P F].
  destruct (for_controllers_Forall method Inv Inv a) as
    (a' & E & Fq & [G _] & Tp & _); trivial.
  - intros s I _. now apply H.
  - exists a'. split; [exact E|]. split; [|exact Fq].
    unfold pause_active in *. now rewrite Tp, G.
Qed.

Lemma dim_loop_step (s : State) :
  Inv (ctl s) ->
  exists s', dim s = (Ok tt, s')
             /\ Inv (ctl s') /\ same_env (world s) (world s').
Proof.
  intros I. rewrite dim_spec. eexists. split; [reflexivity|].
  split; [now apply Inv_dimmed|apply dimmed_env].
Qed.

Lemma tick_loop_step (s : State) :
  Inv (ctl s) ->
  exists s', check_inactivity s = (Ok tt, s')
             /\ Inv (ctl s') /\ same_env (world s) (world s').
Proof.
  intros I. destruct (check_inactivity_spec s) as (b & _ & E).
  rewrite E. eexists. split; [reflexivity|].
  split; [now apply Inv_ticked|apply ticked_env].
Qed.

Lemma restore_loop_step (s : State) :
  Inv (ctl s) ->
  exists s', immediate_restore s = (Ok tt, s')
             /\ Inv (ctl s') /\ same_env (world s) (world s').
Proof.
  intros I. rewrite immediate_restore_restored.
  eexists. split; [reflexivity|].
  split; [now apply Inv_restored|apply restored_env].
Qed.

Lemma stamp_loop_step (s : State) :
  Inv (ctl s) ->
  exists s', restore_and_stamp s = (Ok tt, s')
             /\ Inv (ctl s') /\ same_env (world s) (world s').
Proof.
  intros I. rewrite restore_and_stamp_spec.
  eexists. split; [reflexivity|].
  split; [apply Inv_set_last_active; now apply Inv_restored
         |apply restored_env].
Qed.

Lemma refresh_loop_step (s : State) :
  Inv (ctl s) ->
  exists s', refresh_geometry s = (Ok tt, s')
             /\ Inv (ctl s') /\ same_env (world s) (world s').
Proof.
  intros I. rewrite refresh_geometry_spec.
  eexists. split; [reflexivity|].
  split; [now apply Inv_refresh|apply same_env_refl].
Qed.

Lemma Forall_Inv_stamped (v : Q) (cs : list Controller) :
  Forall Inv cs -> Forall Inv (map (set_last_active v) cs).
Proof.
  intros F. apply Forall_forall. intros c Hc. apply in_map_iff in Hc.
  destruct Hc as (c0 & <- & Hc0). apply Inv_set_last_active.
  rewrite Forall_forall in F. now apply F.
Qed.

Lemma on_awake_toggled_WindowInv (state : bool) (a : MainWindow) :
  Forall Inv (controllers a) ->
  exists a', on_awake_toggled state a = (Ok tt, a') /\ WindowInv a'.
Proof.
  intros F. unfold on_awake_toggled. eexists. split; [reflexivity|].
  destruct state; cbn [negb]; split; cbn [controllers shared].
  - intros _. destruct (shared a); reflexivity.
  - exact F.
  - rewrite pause_active_stop_if_active. discriminate.
  - now apply Forall_Inv_stamped.
Qed.

Lemma run_window_op_keeps (op : WindowOp) (a : MainWindow) :
  WindowInv a ->
  exists a', run_window_op op a = (Ok tt, a') /\ WindowInv a'.
Proof.
  intros I. pose proof I as [P F]. destruct op; cbn [run_window_op].
  - now apply on_awake_toggled_WindowInv.
  - unfold toggle_awake_mode. now apply on_awake_toggled_WindowInv.
  - rewrite pause_dimming_spec. eexists. split; [reflexivity|].
    split; [|exact F]. intros _. cbn [shared].
    destruct (shared a); reflexivity.
  - unfold pause_timer_timeout.
    destruct (pause_active a); [|now exists a].
    unfold _pause_timeout. now apply on_awake_toggled_WindowInv.
  - unfold resume_now.
    cbn [shared].
    destruct (awake_mode (global_cfg (shared a)));
      [now apply on_awake_toggled_WindowInv|].
    eexists. split; [reflexivity|]. split; [|exact F].
    rewrite pause_active_stop_if_active. discriminate.
  - now apply loop_keeps_WindowInv; [apply dim_loop_step|].
  - unfold on_apply_clicked.
    apply loop_keeps_WindowInv; [apply stamp_loop_step|].
    split; [|exact F].
    unfold pause_active in *. cbn [_pause_timer shared].
    intros H. rewrite <- (P H). destruct (shared a); reflexivity.
  - now apply loop_keeps_WindowInv; [apply restore_loop_step|].
  - unfold refresh_all_geometries.
    destruct (loop_keeps_WindowInv refresh_geometry a refresh_loop_step I)
      as (a' & E & I').
    rewrite E. now exists a'.
  - now apply loop_keeps_WindowInv; [apply tick_loop_step|].
  - eexists. split; [reflexivity|]. split; [|exact F].
    unfold pause_active in *. cbn [_pause_timer shared].
    intros H. rewrite <- (P H). unfold outside.
    destruct (f (shared a)); reflexivity.
Qed.

(** X28: whatever the user, the tray and the timers do to the window,
    in whatever order (checkbox and hotkey toggles, pauses of any
    length, pause expiry, resume, nap now, apply, cleanup, geometry
    refresh, rounds of activity ticks) and however the world outside
    changes in between, no handler raises, every controller keeps
    [Inv], and the pause timer runs only while awake mode is on. *)
Theorem window_never_raises (a : MainWindow) (ops : list WindowOp) :
  WindowInv a ->
  exists a', run_window_ops ops a = (Ok tt, a') /\ WindowInv a'.
Proof.
  revert a. induction ops as [|op ops IH]; intros a I; cbn [run_window_ops].
  - now exists a.
  - destruct (run_window_op_keeps op a I) as (a1 & E & I1).
    rewrite E. now apply IH.
Qed.

Lemma window_never_raises_witness :
  exists a',
    run_window_ops [PauseDimming 15; NapNow; TickAll; ToggleAwakeMode;
                    PauseTimerExpires; ApplyClicked 30; Cleanup]
                   (sample_window false)
    = (Ok tt, a')
    /\ WindowInv a'.
Proof.
  apply window_never_raises.
  split; [discriminate|].
  unfold sample_window. cbn [controllers].
  constructor; [|constructor; [|constructor]].
  - split; [discriminate|]. split; [discriminate|].
    eexists. split; reflexivity.
  - split; [discriminate|]. split; [discriminate|].
    eexists. split; reflexivity.
Defined.

(* ------------------------------------------------------------------ *)
(** ** Apply, cleanup and nap *)

(** X29: [on_apply_clicked] and [cleanup] never raise, whatever state
    the controllers and the hardware are in.  After Apply the new
    inactivity limit is stored and every controller is Active with
    [last_active] at the current time; after [cleanup] every controller
    is Active with no fade timer running and its overlay hidden at
    opacity 0.0.  A monitor whose write fails does not keep the loop
    from reaching the others. *)
Theorem apply_and_cleanup (a : MainWindow) (new_inactivity : Z) :
  (exists a',
     on_apply_clicked new_inactivity a = (Ok tt, a')
     /\ inactivity_limit (global_cfg (shared a')) = inject_Z new_inactivity
     /\ length (controllers a') = length (controllers a)
     /\ Forall (fun c => is_dimmed c = false
                         /\ last_active c = clock (shared a))
               (controllers a'))
  /\ (exists a',
        cleanup a = (Ok tt, a')
        /\ length (controllers a') = length (controllers a)
        /\ Forall (fun c => is_dimmed c = false
                            /\ timer_active c = false
                            /\ forall o, overlay c = Some o ->
                                 visible o = false /\ opacity o = 0%Q)
                  (controllers a')).
Proof.
  split.
  - unfold on_apply_clicked.
    set (a1 := mkMainWindow _ _ _ _).
    destruct (for_controllers_Forall restore_and_stamp (fun _ => True)
                (fun c => is_dimmed c = false
                          /\ last_active c = clock (shared a)) a1)
      as (a' & E & Fq & [G _] & _ & _ & Len).
    + intros s _ [_ Ck]. rewrite restore_and_stamp_spec.
      eexists. split; [reflexivity|].
      destruct (restored_fields s) as (D & _).
      destruct (restored_env s) as [_ Ck'].
      split; [|apply restored_env].
      split.
      * destruct (restored s) as [c w]. destruct c. exact D.
      * replace (clock (shared a)) with (clock (shared a1))
          by (unfold a1; cbn; destruct (shared a); reflexivity).
        rewrite <- Ck, <- Ck'.
        destruct (restored s) as [c w]. destruct c. reflexivity.
    + apply Forall_True.
    + exists a'. split; [exact E|]. split.
      * rewrite G. unfold a1. cbn. destruct (shared a). reflexivity.
      * split; [exact Len|exact Fq].
  - unfold cleanup.
    destruct (for_controllers_Forall immediate_restore (fun _ => True)
                (fun c => is_dimmed c = false
                          /\ timer_active c = false
                          /\ forall o, overlay c = Some o ->
                               visible o = false /\ opacity o = 0%Q) a)
      as (a' & E & Fq & _ & _ & _ & Len).
    + intros s _ _. rewrite immediate_restore_restored.
      eexists. split; [reflexivity|].
      destruct (restored_fields s) as (D & T & _).
      split; [|apply restored_env].
      split; [exact D|]. split; [exact T|].
      intros o Ho. destruct s as [c w]. destruct c.
      unfold restored in Ho. revert Ho. monad.
      destruct fade_timer0 as [[i [|]]|]; destruct overlay0 as [o0|];
        intros Ho; try discriminate; injection Ho as <-; split; reflexivity.
    + apply Forall_True.
    + exists a'. split; [exact E|]. split; [exact Len|exact Fq].
Qed.



(* ------------------------------------------------------------------ *)
(** ** Further statements at sample states *)

Lemma presence_cursor_witness :
  is_monitor_active (sample_present false) = (Ok true, sample_present false).
Proof.
  destruct (presence_cursor (sample_present false)) as (b & E & C & _).
  rewrite E. now rewrite (C eq_refl).
Defined.

Lemma dim_idempotent_witness :
  dim (sample_state true false 70 (Some 100))
  = (Ok tt, sample_state true false 70 (Some 100)).
Proof.
  apply (proj1 (dim_idempotent (sample_state true false 70 (Some 100)))).
  reflexivity.
Defined.

Lemma refresh_geometry_idempotent_witness :
  refresh_geometry (sample_state false false 100 (Some 100))
  = (Ok tt, sample_state false false 100 (Some 100)).
Proof.
  destruct (refresh_geometry_idempotent
              (sample_state false false 100 (Some 100)))
    as (s' & E & _ & N & _).
  rewrite E. now rewrite (N eq_refl).
Defined.

(** A controller on the one DDC monitor of the sample world, and a
    controller with [ddc_index] -1. *)
Lemma construction_witness :
  (exists s,
     __init__ sample_cfg 0 0 (sample_world (mkMonitor 70 true true) false 100)
     = (Ok tt, s)
     /\ monitorcontrol_monitor (ctl s) = Some 0%nat
     /\ attached s = Some (mkMonitor 70 true true)
     /\ original_brightness (ctl s) = Some 70)
  /\ (exists s,
        __init__ sample_cfg 0 (-1)
          (sample_world (mkMonitor 100 true true) false 100)
        = (Ok tt, s)
        /\ monitorcontrol_monitor (ctl s) = None
        /\ original_brightness (ctl s) = None).
Proof.
  split.
  - destruct (construction sample_cfg 0 0
                (sample_world (mkMonitor 70 true true) false 100))
      as (s & E & _ & _ & _ & _ & _ & _ & _ & H & _ & _).
    destruct H as (Hm & m & N & A & O); [cbn; lia|].
    cbn in N. injection N as <-.
    exists s. repeat split; assumption.
  - destruct (construction sample_cfg 0 (-1)
                (sample_world (mkMonitor 100 true true) false 100))
      as (s & E & _ & _ & _ & _ & _ & _ & _ & _ & H & _).
    exists s. split; [exact E|]. apply H. cbn. lia.
Defined.
